(** * LSCP: Locally Selective Combination in Parallel

    A shallow embedding of [examples/temp_do_not_use_lscp.py]: the
    constructor of the [LSCP] class, the random feature sampler
    ([generate_bagging_indices]), the local region finder
    ([_get_local_region]), the competence selector
    ([_get_competent_detectors]) and [decision_function].

    Conventions.
    - Python integers are [Z]; indices into arrays are [nat].
    - A float64 is an exact rational or [NaN]: rounding is not modelled,
      the control flow around undefined values is.
    - An exception is a value of [exn]; a computation that may raise returns
      a [result]; code that also assigns attributes of [self] or advances a
      random generator runs in the state-and-exception monad [SE]. *)

From Stdlib Require Import String.
From Stdlib Require Import List Permutation Sorted ZArith QArith Qround Qminmax.
From Stdlib Require Import Lia Lqa Bool.
Import ListNotations.

Set Implicit Arguments.

(** ** Exceptions and results *)

Inductive exn : Type :=
| AssertionError
| ValueError
| IndexError
| AttributeError
| TypeError
| NotFittedError.

Inductive result (A : Type) : Type :=
| Ok (a : A)
| Raise (e : exn).

Arguments Ok {A} a.
Arguments Raise {A} e.

Definition is_ok {A} (r : result A) : bool :=
  match r with Ok _ => true | Raise _ => false end.

Module Res.

Definition bind {A B} (r : result A) (k : A -> result B) : result B :=
    match r with
    | Ok a => k a
    | Raise e => Raise e
    end.

Definition map {A B} (f : A -> B) (r : result A) : result B :=
    bind r (fun a => Ok (f a)).

(** [[f(x) for x in l]], stopping at the first exception. *)
Fixpoint mapM {A B} (f : A -> result B) (l : list A) : result (list B) :=
    match l with
    | [] => Ok []
    | x :: l' => bind (f x) (fun y => map (cons y) (mapM f l'))
    end.

End Res.

(** ** State and exceptions

    [SE S A] is a computation over a mutable store [S] that returns an [A]
    or raises; the store survives an exception, as attribute assignments
    made before a Python [raise] do. *)

Definition SE (S A : Type) : Type := S -> S * result A.

Module SEM.

Definition ret {S A} (a : A) : SE S A := fun s => (s, Ok a).

Definition bind {S A B} (m : SE S A) (k : A -> SE S B) : SE S B :=
    fun s =>
      match m s with
      | (s', Ok a) => k a s'
      | (s', Raise e) => (s', Raise e)
      end.

Definition raise {S A} (e : exn) : SE S A := fun s => (s, Raise e).

Definition get {S} : SE S S := fun s => (s, Ok s).

Definition modify {S} (f : S -> S) : SE S unit := fun s => (f s, Ok tt).

Definition lift {S A} (r : result A) : SE S A := fun s => (s, r).

(** [for x in l: acc = body(acc, x)] *)
Fixpoint for_each {S A B} (l : list A) (body : B -> A -> SE S B) (acc : B)
    : SE S B :=
    match l with
    | [] => ret acc
    | x :: l' => bind (body acc x) (fun acc' => for_each l' body acc')
    end.

End SEM.

Declare Scope se_scope.
Delimit Scope se_scope with se.
Notation "x <- m ;; k" := (SEM.bind m (fun x => k))
  (at level 61, m at next level, right associativity) : se_scope.
Notation "m ;;; k" := (SEM.bind m (fun _ => k))
  (at level 61, right associativity) : se_scope.

(** ** Numbers and arrays *)

Inductive float64 : Type :=
| Fin (q : Q)
| NaN.

Definition is_nan (x : float64) : bool :=
  match x with NaN => true | Fin _ => false end.

(** A 1-d array of finite floats, a 2-d array as the list of its rows. *)
Definition vector : Type := list Q.
Definition matrix : Type := list (list Q).

(** [range(n)] for a Python integer [n]. *)
Definition range (n : Z) : list nat := seq 0 (Z.to_nat n).

(** [int(x)] truncates towards zero. *)
Definition py_int (x : Q) : Z := Z.quot (Qnum x) (Zpos (Qden x)).

(** [m.shape[0]] and [m.shape[1]]. *)
Definition shape0 (m : matrix) : Z := Z.of_nat (length m).
Definition shape1 (m : matrix) : Z :=
  match m with
  | [] => 0
  | r :: _ => Z.of_nat (length r)
  end.

(** [a[i]] on a list or 1-d array: [IndexError] out of range. *)
Definition getitem {A} (a : list A) (i : nat) : result A :=
  match nth_error a i with
  | Some x => Ok x
  | None => Raise IndexError
  end.

(** [a[idx]] with a list of indices (fancy indexing). *)
Definition take {A} (a : list A) (idx : list nat) : result (list A) :=
  Res.mapM (getitem a) idx.

(** [m[:, idx]] and [m[:, d]]. *)
Definition take_cols (m : matrix) (idx : list nat) : result matrix :=
  Res.mapM (fun row => take row idx) m.

Definition column (m : matrix) (d : nat) : result vector :=
  Res.mapM (fun row => getitem row d) m.

(** [a[k] = x] on a list. *)
Fixpoint setitem {A} (a : list A) (k : nat) (x : A) : result (list A) :=
  match a, k with
  | [], _ => Raise IndexError
  | _ :: a', O => Ok (x :: a')
  | y :: a', S k' => Res.map (cons y) (setitem a' k' x)
  end.

(** [m[:, k] = v]: [v] has one entry per row, or a single entry that is
    broadcast; [ValueError] for any other length. *)
Fixpoint set_rows (m : matrix) (k : nat) (v : vector) : result matrix :=
  match m, v with
  | [], _ => Ok []
  | row :: m', x :: v' =>
      Res.bind (setitem row k x) (fun row' =>
      Res.map (cons row') (set_rows m' k v'))
  | _ :: _, [] => Raise ValueError
  end.

Definition set_column (m : matrix) (k : nat) (v : vector) : result matrix :=
  if (length v =? length m)%nat then set_rows m k v
  else match v with
       | [x] => set_rows m k (repeat x (length m))
       | _ => Raise ValueError
       end.

(** [np.zeros([n, c])]. *)
Definition zeros (n c : Z) : matrix :=
  repeat (repeat 0 (Z.to_nat c)) (Z.to_nat n).

(** [enumerate(l)]. *)
Definition enumerate {A} (l : list A) : list (nat * A) :=
  combine (seq 0 (length l)) l.

(** ** Library primitives

    The numerical primitives the class calls.  They live in numpy, scipy,
    scikit-learn and [pyod.utils]; each is modelled here in exact rational
    arithmetic. *)

(** Square root of a rational, rounded down to a multiple of [2^-52] of the
    denominator; [0] for a non-positive argument. *)
Definition Qsqrt (q : Q) : Q :=
  let a := Qnum q in
  let b := Zpos (Qden q) in
  Qmake (Z.sqrt (a * b * 2 ^ 104)) (Qden q * 2 ^ 52).

(** Sums are kept in lowest terms. *)
Definition Qsum (l : list Q) : Q :=
  fold_right (fun x acc => Qred (x + acc)) 0 l.

Definition Qlen (l : list Q) : Q := inject_Z (Z.of_nat (length l)).

Module np.

(** [np.mean(a)]: [nan] on an empty array. *)
Definition mean (a : vector) : float64 :=
  match a with
  | [] => NaN
  | _ :: _ => Fin (Qsum a / Qlen a)
  end.

(** The finite values of [a], or [None] when [a] holds a [nan]. *)
Fixpoint finite (a : list float64) : option vector :=
  match a with
  | [] => Some []
  | NaN :: _ => None
  | Fin q :: a' => option_map (cons q) (finite a')
  end.

(** The range of [np.histogram] when none is given: [(0, 1)] for an empty
    array, [(a.min(), a.max())] otherwise, widened by one half on each side
    when both ends coincide. *)
Definition outer_edges (a : vector) : Q * Q :=
  match a with
  | [] => (0, 1)
  | x :: a' =>
      let first_edge := fold_left Qmin a' x in
      let last_edge := fold_left Qmax a' x in
      if Qeq_bool first_edge last_edge
      then (first_edge - (1 # 2), last_edge + (1 # 2))
      else (first_edge, last_edge)
  end.

(** [np.linspace(first_edge, last_edge, bins + 1)[i]]. *)
Definition bin_edge (first_edge last_edge : Q) (bins : Z) (i : nat) : Q :=
  first_edge + inject_Z (Z.of_nat i) * ((last_edge - first_edge) / inject_Z bins).

(** The bin of [x]: bins are closed on the left and open on the right, but
    for the last one, which is closed on both sides. *)
Definition bin_index (first_edge last_edge : Q) (bins : Z) (x : Q) : nat :=
  let i := Qfloor ((x - first_edge) * (inject_Z bins / (last_edge - first_edge))) in
  Z.to_nat (if (i =? bins)%Z then i - 1 else i).

(** [np.histogram(a, bins=bins)] for an integer [bins]: the counts per bin
    and the [bins + 1] edges.  [ValueError] when [bins] is not positive or
    the range of [a] is not finite. *)
Definition histogram (a : list float64) (bins : Z)
  : result (list nat * list Q) :=
  if (bins <? 1)%Z then Raise ValueError
  else
    match finite a with
    | None => Raise ValueError
    | Some qs =>
        let (first_edge, last_edge) := outer_edges qs in
        let idx := List.map (bin_index first_edge last_edge bins) qs in
        Ok (List.map (count_occ Nat.eq_dec idx) (range bins),
            List.map (bin_edge first_edge last_edge bins) (range (bins + 1)))
    end.

(** [np.where(mask)[0].tolist()] for a 1-d mask. *)
Fixpoint where_ (mask : list bool) (i : nat) : list nat :=
  match mask with
  | [] => []
  | b :: mask' => if b then i :: where_ mask' (S i) else where_ mask' (S i)
  end.

(** [x >= lo] and [x <= hi] on floats: false when [x] is [nan]. *)
Definition ge (x : float64) (lo : Q) : bool :=
  match x with Fin q => Qle_bool lo q | NaN => false end.
Definition le (x : float64) (hi : Q) : bool :=
  match x with Fin q => Qle_bool q hi | NaN => false end.

End np.

Module scipy.

Definition sum_of_squares (a : vector) : Q := Qsum (List.map (fun v => v * v) a).

(** Modelled from the spec: [pearsonr], imported from [pyod.utils.stat_models]
    (which hands on [scipy.stats.pearsonr]), is not part of the sources.  It
    returns a correlation in [[-1, 1]], or the undefined value [nan] for
    degenerate inputs: fewer than two points, or a constant vector, where
    the quotient is [0 / 0]. *)
Definition pearsonr (x y : vector) : float64 :=
  match np.mean x, np.mean y with
  | Fin mx, Fin my =>
      let xm := List.map (fun v => v - mx) x in
      let ym := List.map (fun v => v - my) y in
      let r_num := Qsum (List.map (fun p => fst p * snd p) (combine xm ym)) in
      let r_den := Qsqrt (sum_of_squares xm * sum_of_squares ym) in
      if Qeq_bool r_den 0 then NaN
      else Fin (Qmax (Qmin (r_num / r_den) 1) (- (1)))
  | _, _ => NaN
  end.

End scipy.

Module pyod_utils.

(** [sorted(l)], by insertion. *)
Fixpoint insert (x : nat) (l : list nat) : list nat :=
  match l with
  | [] => [x]
  | y :: l' => if (x <=? y)%nat then x :: l else y :: insert x l'
  end.

Definition sort (l : list nat) : list nat := fold_right insert [] l.

(** Modelled from the spec: [argmaxn], imported from [pyod.utils.utility], is
    not part of the sources.  It picks the [n] entries with the highest
    value: [n] must lie in [[1, len(value_list)]], the threshold is the
    [n]-th highest value, and the indices of the entries that reach it are
    returned in increasing order.  Entries that tie with the [n]-th highest
    all reach the threshold; the order among ties is the primitive's own
    and no statement below depends on it. *)
Definition argmaxn (value_list : list nat) (n : Z) : result (list nat) :=
  let length := Z.of_nat (List.length value_list) in
  if ((n <? 1) || (length <? n))%Z then Raise ValueError
  else
    let value_sorted := sort value_list in
    let threshold := nth (Z.to_nat (length - n)) value_sorted O in
    Ok (np.where_ (List.map (fun v => (threshold <=? v)%nat) value_list) 0).

End pyod_utils.

Module sklearn.

(** *** Random generators

    The state of a [numpy.random.RandomState] is the sequence of raw draws
    it is still to deliver; a draw that is asked of an exhausted sequence
    is [0].  Every sequence of draws is the state of some generator, so a
    statement about all states covers every outcome of the sampling. *)
Definition RandomState_t : Type := list Z.

Definition next_raw (rs : RandomState_t) : Z * RandomState_t :=
  match rs with
  | [] => (0%Z, [])
  | r :: rs' => (r, rs')
  end.

(** [rs.randint(low, high)]: an integer of [[low, high)]; [ValueError] when
    the interval is empty. *)
Definition randint (low high : Z) : SE RandomState_t Z :=
  fun rs =>
    if (high <=? low)%Z then (rs, Raise ValueError)
    else let (r, rs') := next_raw rs in
         (rs', Ok (low + r mod (high - low))%Z).

Fixpoint randint_n (low high : Z) (size : nat) : SE RandomState_t (list Z) :=
  match size with
  | O => SEM.ret []
  | S size' =>
      (x <- randint low high ;;
       xs <- randint_n low high size' ;;
       SEM.ret (x :: xs))%se
  end.

(** [rs.randint(low, high, size)]: [size] draws with replacement. *)
Definition randint_size (low high size : Z) : SE RandomState_t (list Z) :=
  if ((high <=? low) || (size <? 0))%Z then SEM.raise ValueError
  else randint_n low high (Z.to_nat size).

(** Removes and returns the element at position [i] of a pool. *)
Fixpoint pop {A} (i : nat) (pool : list A) (d : A) : A * list A :=
  match pool, i with
  | [], _ => (d, [])
  | x :: pool', O => (x, pool')
  | x :: pool', S i' => let (y, rest) := pop i' pool' d in (y, x :: rest)
  end.

Fixpoint draw_distinct (n_samples : nat) (pool : list nat)
  : SE RandomState_t (list nat) :=
  match n_samples with
  | O => SEM.ret []
  | S n' =>
      (i <- randint 0 (Z.of_nat (length pool)) ;;
       let (x, pool') := pop (Z.to_nat i) pool O in
       xs <- draw_distinct n' pool' ;;
       SEM.ret (x :: xs))%se
  end.

(** [sample_without_replacement(n_population, n_samples, random_state=rs)]:
    [n_samples] distinct integers of [[0, n_population)]; [ValueError] when
    more samples are asked than the population holds, or a size is
    negative. *)
Definition sample_without_replacement (n_population n_samples : Z)
  : SE RandomState_t (list nat) :=
  if ((n_population <? 0) || (n_samples <? 0) || (n_population <? n_samples))%Z
  then SEM.raise ValueError
  else draw_distinct (Z.to_nat n_samples) (range n_population).

(** [np.random.RandomState(seed)]: the seed must fit 32 bits; the sequence
    a seed starts is the generator's own ([stream]). *)
Definition RandomState (stream : Z -> RandomState_t) (seed : Z)
  : result RandomState_t :=
  if ((0 <=? seed) && (seed <? 2 ^ 32))%Z then Ok (stream seed)
  else Raise ValueError.

(** [check_array(X)]: a 2-d array with at least one row and one column. *)
Definition check_array (X : matrix) : result matrix :=
  match X with
  | [] => Raise ValueError
  | row :: _ =>
      if (length row =? 0)%nat
         || negb (forallb (fun r => (length r =? length row)%nat) X)
      then Raise ValueError
      else Ok X
  end.

End sklearn.

(** ** External collaborators

    The base detectors and the numerical back end are black boxes behind a
    narrow interface. *)

(** A base detector: [estimator_fit] is its method [fit], which trains the
    object in place and is given here as the trained object; [predict]
    scores the rows of a matrix; [check_estimator] is scikit-learn's
    validation of the object. *)
Class Detector (E : Type) : Type := {
  estimator_fit : E -> matrix -> result E;
  predict : E -> matrix -> result vector;
  check_estimator : E -> result unit
}.

(** The back end: the random stream a seed starts, [standardizer] of
    [pyod.utils.utility], and [KDTree(train).query(test, k=k)[1]], the
    indices of the [k] nearest training rows of every test row. *)
Class Backend : Type := {
  mt19937 : Z -> sklearn.RandomState_t;
  standardizer : matrix -> matrix;
  KDTree_query : matrix -> matrix -> Z -> result (list (list nat))
}.

(** ** The random feature sampler *)

(** What [random_state] may be: [None], an integer seed, or a generator. *)
Inductive random_state_t : Type :=
| RS_None
| RS_int (seed : Z)
| RS_instance (rs : sklearn.RandomState_t).

(** The generators a call can reach: the object given as [random_state],
    and numpy's global generator. *)
Definition rng_store : Type := (random_state_t * sklearn.RandomState_t)%type.

Section Sampler.

Context {B : Backend}.

(** [random_state = check_random_state(random_state)], followed by the
    code [m] that draws from the generator.  [None] stands for the global
    generator and a generator stands for itself: both are shared with the
    caller and keep the draws made from them.  An integer seeds a fresh
    generator, which is dropped on return. *)
Definition check_random_state {A} (m : SE sklearn.RandomState_t A)
  : SE rng_store A :=
  fun st =>
    let (random_state, np_random) := st in
    match random_state with
    | RS_None =>
        let (np_random', r) := m np_random in ((RS_None, np_random'), r)
    | RS_int seed =>
        match sklearn.RandomState mt19937 seed with
        | Ok rs => let (_, r) := m rs in (st, r)
        | Raise e => (st, Raise e)
        end
    | RS_instance rs =>
        let (rs', r) := m rs in ((RS_instance rs', np_random), r)
    end.

Definition _generate_indices (bootstrap : bool) (n_population n_samples : Z)
  : SE sklearn.RandomState_t (list nat) :=
  if bootstrap
  then (indices <- sklearn.randint_size 0 n_population n_samples ;;
        SEM.ret (List.map Z.to_nat indices))%se
  else sklearn.sample_without_replacement n_population n_samples.

Definition generate_bagging_indices (bootstrap_features : bool)
    (n_features min_features max_features : Z) : SE rng_store (list nat) :=
  check_random_state
    (random_n_features <- sklearn.randint min_features max_features ;;
     _generate_indices bootstrap_features n_features random_n_features)%se.

End Sampler.

(** ** The class [LSCP] *)

(** The attributes [fit] assigns; an attribute is [None] until it has
    been assigned. *)
Record fitted_attributes : Type := {
  n_features_ : option Z;
  X_train_norm_ : option matrix;
  train_scores_norm_ : option matrix;
  training_pseudo_label_ : option vector;
  decision_scores_ : option bool;
  threshold_ : option bool;
  labels_ : option bool
}.

Definition not_fitted : fitted_attributes :=
  {| n_features_ := None; X_train_norm_ := None; train_scores_norm_ := None;
     training_pseudo_label_ := None; decision_scores_ := None;
     threshold_ := None; labels_ := None |}.

(** The attributes of an [LSCP] object: those [__init__] assigns, and in
    [attrs] those of [fit]. *)
Record LSCP (E : Type) : Type := {
  estimator_list : list E;
  n_clf : Z;
  n_iterations : Z;
  local_region_size : Z;
  local_region_min : Z;
  local_region_max : Z;
  local_max_features : Q;
  local_min_features : Q;
  local_region_iterations : Z;
  local_region_threshold : Z;
  n_bins : Z;
  n_selected : Z;
  random_state : random_state_t;
  attrs : fitted_attributes
}.

(** Attribute assignments. *)
Definition assign_n_features_ (v : Z) (a : fitted_attributes)
  : fitted_attributes :=
  {| n_features_ := Some v;
     X_train_norm_ := X_train_norm_ a;
     train_scores_norm_ := train_scores_norm_ a;
     training_pseudo_label_ := training_pseudo_label_ a;
     decision_scores_ := decision_scores_ a;
     threshold_ := threshold_ a;
     labels_ := labels_ a |}.

Definition assign_X_train_norm_ (v : matrix) (a : fitted_attributes)
  : fitted_attributes :=
  {| n_features_ := n_features_ a;
     X_train_norm_ := Some v;
     train_scores_norm_ := train_scores_norm_ a;
     training_pseudo_label_ := training_pseudo_label_ a;
     decision_scores_ := decision_scores_ a;
     threshold_ := threshold_ a;
     labels_ := labels_ a |}.

Definition assign_train_scores_norm_ (v : matrix) (a : fitted_attributes)
  : fitted_attributes :=
  {| n_features_ := n_features_ a;
     X_train_norm_ := X_train_norm_ a;
     train_scores_norm_ := Some v;
     training_pseudo_label_ := training_pseudo_label_ a;
     decision_scores_ := decision_scores_ a;
     threshold_ := threshold_ a;
     labels_ := labels_ a |}.

Definition assign_training_pseudo_label_ (v : vector) (a : fitted_attributes)
  : fitted_attributes :=
  {| n_features_ := n_features_ a;
     X_train_norm_ := X_train_norm_ a;
     train_scores_norm_ := train_scores_norm_ a;
     training_pseudo_label_ := Some v;
     decision_scores_ := decision_scores_ a;
     threshold_ := threshold_ a;
     labels_ := labels_ a |}.

Definition assign_decision_scores_ (v : bool) (a : fitted_attributes)
  : fitted_attributes :=
  {| n_features_ := n_features_ a;
     X_train_norm_ := X_train_norm_ a;
     train_scores_norm_ := train_scores_norm_ a;
     training_pseudo_label_ := training_pseudo_label_ a;
     decision_scores_ := Some v;
     threshold_ := threshold_ a;
     labels_ := labels_ a |}.

Definition assign_threshold_ (v : bool) (a : fitted_attributes)
  : fitted_attributes :=
  {| n_features_ := n_features_ a;
     X_train_norm_ := X_train_norm_ a;
     train_scores_norm_ := train_scores_norm_ a;
     training_pseudo_label_ := training_pseudo_label_ a;
     decision_scores_ := decision_scores_ a;
     threshold_ := Some v;
     labels_ := labels_ a |}.

Definition assign_labels_ (v : bool) (a : fitted_attributes)
  : fitted_attributes :=
  {| n_features_ := n_features_ a;
     X_train_norm_ := X_train_norm_ a;
     train_scores_norm_ := train_scores_norm_ a;
     training_pseudo_label_ := training_pseudo_label_ a;
     decision_scores_ := decision_scores_ a;
     threshold_ := threshold_ a;
     labels_ := Some v |}.

Definition set_estimator_list {E} (v : list E) (self : LSCP E) : LSCP E :=
  {| estimator_list := v;
     n_clf := n_clf self;
     n_iterations := n_iterations self;
     local_region_size := local_region_size self;
     local_region_min := local_region_min self;
     local_region_max := local_region_max self;
     local_max_features := local_max_features self;
     local_min_features := local_min_features self;
     local_region_iterations := local_region_iterations self;
     local_region_threshold := local_region_threshold self;
     n_bins := n_bins self;
     n_selected := n_selected self;
     random_state := random_state self;
     attrs := attrs self |}.

Definition set_local_region_size {E} (v : Z) (self : LSCP E) : LSCP E :=
  {| estimator_list := estimator_list self;
     n_clf := n_clf self;
     n_iterations := n_iterations self;
     local_region_size := v;
     local_region_min := local_region_min self;
     local_region_max := local_region_max self;
     local_max_features := local_max_features self;
     local_min_features := local_min_features self;
     local_region_iterations := local_region_iterations self;
     local_region_threshold := local_region_threshold self;
     n_bins := n_bins self;
     n_selected := n_selected self;
     random_state := random_state self;
     attrs := attrs self |}.

Definition set_n_bins {E} (v : Z) (self : LSCP E) : LSCP E :=
  {| estimator_list := estimator_list self;
     n_clf := n_clf self;
     n_iterations := n_iterations self;
     local_region_size := local_region_size self;
     local_region_min := local_region_min self;
     local_region_max := local_region_max self;
     local_max_features := local_max_features self;
     local_min_features := local_min_features self;
     local_region_iterations := local_region_iterations self;
     local_region_threshold := local_region_threshold self;
     n_bins := v;
     n_selected := n_selected self;
     random_state := random_state self;
     attrs := attrs self |}.

Definition set_random_state {E} (v : random_state_t) (self : LSCP E) : LSCP E :=
  {| estimator_list := estimator_list self;
     n_clf := n_clf self;
     n_iterations := n_iterations self;
     local_region_size := local_region_size self;
     local_region_min := local_region_min self;
     local_region_max := local_region_max self;
     local_max_features := local_max_features self;
     local_min_features := local_min_features self;
     local_region_iterations := local_region_iterations self;
     local_region_threshold := local_region_threshold self;
     n_bins := n_bins self;
     n_selected := n_selected self;
     random_state := v;
     attrs := attrs self |}.

Definition set_attrs {E} (v : fitted_attributes) (self : LSCP E) : LSCP E :=
  {| estimator_list := estimator_list self;
     n_clf := n_clf self;
     n_iterations := n_iterations self;
     local_region_size := local_region_size self;
     local_region_min := local_region_min self;
     local_region_max := local_region_max self;
     local_max_features := local_max_features self;
     local_min_features := local_min_features self;
     local_region_iterations := local_region_iterations self;
     local_region_threshold := local_region_threshold self;
     n_bins := n_bins self;
     n_selected := n_selected self;
     random_state := random_state self;
     attrs := v |}.

(** One call of [tree.query]: the sampled features and the [k] asked for.
    The calls are recorded for the proofs; the code never reads them. *)
Record query_event : Type := {
  ev_features : list nat;
  ev_k : Z
}.

(** The store of a method call: the object, numpy's global generator, and
    the record of nearest-neighbour queries made so far. *)
Record world (E : Type) : Type := {
  self : LSCP E;
  np_random : sklearn.RandomState_t;
  queries : list query_event
}.

Definition n_bins_warning : string :=
  "Number of histogram bins greater than number of classifiers, reducing n_bins to n_clf.".

(** [collections.Counter(l).items()]: every distinct item with its number
    of occurrences, in the order of first occurrence. *)
Fixpoint counter_add (x : nat) (c : list (nat * nat)) : list (nat * nat) :=
  match c with
  | [] => [(x, 1%nat)]
  | (y, n) :: c' =>
      if (x =? y)%nat then (y, S n) :: c' else (y, n) :: counter_add x c'
  end.

Definition Counter (l : list nat) : list (nat * nat) :=
  fold_left (fun c x => counter_add x c) l [].

(** [c[x]] on a counter: [0] for an item that was never seen. *)
Fixpoint Counter_get (c : list (nat * nat)) (x : nat) : nat :=
  match c with
  | [] => O
  | (y, n) :: c' => if (x =? y)%nat then n else Counter_get c' x
  end.

(** [l[k] = x] for a [k] within the list. *)
Fixpoint replace_nth {A} (l : list A) (k : nat) (x : A) : list A :=
  match l, k with
  | [], _ => []
  | _ :: l', O => x :: l'
  | y :: l', S k' => y :: replace_nth l' k' x
  end.

(** [l[index]] on a Python list: a negative index counts from the end;
    [IndexError] outside of the list. *)
Definition list_getitem {A} (l : list A) (index : Z) : result A :=
  let i := if (index <? 0)%Z then (index + Z.of_nat (length l))%Z else index in
  if (i <? 0)%Z then Raise IndexError else getitem l (Z.to_nat i).

Section Class_LSCP.

Context {E : Type} {D : Detector E} {B : Backend}.

(** *** The constructor

    The store of [__init__] is the list of warnings issued. *)
Definition warn (msg : string) : SE (list string) unit :=
  SEM.modify (fun ws => ws ++ [msg]).

(** Lines 89 to 101: the attributes are assigned. *)
Definition init_attributes (estimator_list : list E)
    (n_iterations local_region_size : Z) (local_max_features : Q)
    (n_bins : Z) (random_state : random_state_t) : LSCP E :=
  let local_region_iterations := 20%Z in
  {| estimator_list := estimator_list;
     n_clf := Z.of_nat (length estimator_list);
     n_iterations := n_iterations;
     local_region_size := local_region_size;
     local_region_min := 30;
     local_region_max := 100;
     local_max_features := local_max_features;
     local_min_features := 1 # 2;
     local_region_iterations := local_region_iterations;
     local_region_threshold := py_int (inject_Z local_region_iterations / 2);
     n_bins := n_bins;
     n_selected := 1;
     random_state := random_state;
     attrs := not_fitted |}.

(** Lines 103 to 110: the checks on the attributes. *)
Definition init_checks (self : LSCP E) : SE (list string) (LSCP E) :=
  if negb (1 <? Z.of_nat (length (estimator_list self)))%Z
  then SEM.raise AssertionError
  else
    (self <- (if (n_bins self >=? n_clf self)%Z
              then warn n_bins_warning ;;; SEM.ret (set_n_bins (n_clf self) self)
              else SEM.ret self) ;;
     _ <- SEM.lift (Res.mapM check_estimator (estimator_list self)) ;;
     SEM.ret self)%se.

Definition __init__ (estimator_list : list E)
    (n_iterations local_region_size : Z) (local_max_features : Q)
    (n_bins : Z) (random_state : random_state_t)
  : SE (list string) (LSCP E) :=
  init_checks (init_attributes estimator_list n_iterations local_region_size
                 local_max_features n_bins random_state).

(** *** Access to the object *)

Definition get_self : SE (world E) (LSCP E) :=
  fun w => (w, Ok (self w)).

Definition update_self (f : LSCP E -> LSCP E) : SE (world E) unit :=
  SEM.modify (fun w =>
    {| self := f (self w); np_random := np_random w; queries := queries w |}).

(** [self.a = v] for an attribute of [fit]. *)
Definition assign (f : fitted_attributes -> fitted_attributes)
  : SE (world E) unit :=
  update_self (fun self => set_attrs (f (attrs self)) self).

(** [self.a] for an attribute of [fit]. *)
Definition attr {A} (f : fitted_attributes -> option A) : SE (world E) A :=
  (self <- get_self ;;
   match f (attrs self) with
   | Some v => SEM.ret v
   | None => SEM.raise AttributeError
   end)%se.

Definition record_query (features : list nat) (k : Z) : SE (world E) unit :=
  SEM.modify (fun w =>
    {| self := self w; np_random := np_random w;
       queries := queries w ++ [{| ev_features := features; ev_k := k |}] |}).

(** Runs sampling code on [self.random_state] and the global generator;
    the generator objects keep the draws made. *)
Definition with_generators {A} (m : SE rng_store A) : SE (world E) A :=
  fun w =>
    let '((random_state', np_random'), r) :=
      m (random_state (self w), np_random w) in
    ({| self := set_random_state random_state' (self w);
        np_random := np_random'; queries := queries w |}, r).

(** *** [fit] *)

(** [np.max(row)]: [ValueError] on an empty row. *)
Definition row_max (row : vector) : result Q :=
  match row with
  | [] => Raise ValueError
  | x :: row' => Ok (fold_left Qmax row' x)
  end.

Definition fit (X : matrix) : SE (world E) unit :=
  (X <- SEM.lift (sklearn.check_array X) ;;
   assign (assign_n_features_ (shape1 X)) ;;;
   assign (assign_X_train_norm_ (standardizer X)) ;;;
   X_train_norm <- attr X_train_norm_ ;;
   self <- get_self ;;
   train_scores <-
     SEM.for_each (enumerate (estimator_list self))
       (fun train_scores ke =>
          estimator <- SEM.lift (estimator_fit (snd ke) X_train_norm) ;;
          update_self (fun self =>
            set_estimator_list
              (replace_nth (estimator_list self) (fst ke) estimator) self) ;;;
          col <- SEM.lift (predict estimator X_train_norm) ;;
          SEM.lift (set_column train_scores (fst ke) col))
       (zeros (shape0 X_train_norm) (n_clf self)) ;;
   assign (assign_train_scores_norm_ (standardizer train_scores)) ;;;
   train_scores_norm <- attr train_scores_norm_ ;;
   pseudo_label <- SEM.lift (Res.mapM row_max train_scores_norm) ;;
   assign (assign_training_pseudo_label_ pseudo_label) ;;;
   assign (assign_decision_scores_ true) ;;;
   assign (assign_threshold_ true) ;;;
   assign (assign_labels_ true))%se.

(** *** The local region finder *)

(** Lines 202 and 203: [grid[j] = grid[j] + ind_arr[j, :].tolist()] for
    every [j] of [range(n)]. *)
Definition extend_grid (n : Z) (grid ind_arr : list (list nat))
  : result (list (list nat)) :=
  Res.mapM (fun j =>
    Res.bind (getitem grid j) (fun g =>
    Res.bind (getitem ind_arr j) (fun row =>
    Ok (g ++ row)))) (range n).

(** Lines 190 to 200: the features of a pass are drawn and the neighbours
    of the test rows under them are looked up. *)
Definition region_query (X_test_norm : matrix)
  : SE (world E) (list (list nat)) :=
  (self <- get_self ;;
   X_train_norm <- attr X_train_norm_ ;;
   features <- with_generators
     (generate_bagging_indices false
        (shape1 X_train_norm)
        (py_int (inject_Z (shape1 X_train_norm) * local_min_features self))
        (shape1 X_train_norm)) ;;
   train <- SEM.lift (take_cols X_train_norm features) ;;
   test <- SEM.lift (take_cols X_test_norm features) ;;
   self <- get_self ;;
   record_query features (local_region_size self) ;;;
   SEM.lift (KDTree_query train test (local_region_size self)))%se.

(** Lines 190 to 203: one pass. *)
Definition region_pass (X_test_norm : matrix) (grid : list (list nat))
    (t : nat) : SE (world E) (list (list nat)) :=
  (ind_arr <- region_query X_test_norm ;;
   SEM.lift (extend_grid (shape0 X_test_norm) grid ind_arr))%se.

(** Lines 187 to 203: the accumulated neighbours of every test row. *)
Definition region_grid (X_test_norm : matrix)
  : SE (world E) (list (list nat)) :=
  (self <- get_self ;;
   SEM.for_each (range (local_region_iterations self))
     (region_pass X_test_norm)
     (repeat [] (Z.to_nat (shape0 X_test_norm))))%se.

(** Lines 207 to 209: the items seen more than [threshold] times. *)
Definition consensus (threshold : Z) (g : list nat) : list nat :=
  List.map fst
    (filter (fun ic => (threshold <? Z.of_nat (snd ic))%Z) (Counter g)).

Definition _get_local_region (X_test_norm : matrix)
  : SE (world E) (list (list nat)) :=
  (grid <- region_grid X_test_norm ;;
   self <- get_self ;;
   SEM.lift
     (Res.mapM (fun j =>
        Res.map (consensus (local_region_threshold self)) (getitem grid j))
        (range (shape0 X_test_norm))))%se.

(** *** The competence selector *)

(** [np.where((scores >= lo) & (scores <= hi))[0].tolist()]. *)
Definition between (scores : list float64) (lo hi : Q) : list nat :=
  np.where_ (List.map (fun x => np.ge x lo && np.le x hi) scores) 0.

Definition _get_competent_detectors (self : LSCP E) (scores : list float64)
  : result (list nat) :=
  Res.bind (np.histogram scores (n_bins self)) (fun hb =>
  let (hist, bin_edges) := hb in
  Res.bind (pyod_utils.argmaxn hist (n_selected self)) (fun max_bins =>
  fold_left (fun candidates max_bin =>
    Res.bind candidates (fun candidates =>
    Res.bind (getitem bin_edges max_bin) (fun lo =>
    Res.bind (getitem bin_edges (max_bin + 1)) (fun hi =>
    Ok (candidates ++ between scores lo hi)))))
    max_bins (Ok []))).

(** *** [decision_function] *)

(** Lines 169 to 175: the correlation of every detector with the pseudo
    ground truth on the local region [ind_k]. *)
Definition local_competence (n_clf : Z)
    (training_pseudo_label train_scores_norm : list _) (ind_k : list nat)
  : result (list float64) :=
  Res.bind (take training_pseudo_label ind_k)
    (fun local_pseudo_ground_truth =>
  Res.bind (take train_scores_norm ind_k) (fun local_train_scores =>
  Res.mapM (fun d =>
    Res.map (scipy.pearsonr local_pseudo_ground_truth)
      (column local_train_scores d))
    (range n_clf))).

(** Lines 169 to 179: the score of test row [i], whose region is [ind_k]. *)
Definition row_score (test_scores_norm : matrix) (i : nat) (ind_k : list nat)
  : SE (world E) float64 :=
  (self <- get_self ;;
   training_pseudo_label <- attr training_pseudo_label_ ;;
   train_scores_norm <- attr train_scores_norm_ ;;
   pearson_corr_scores <- SEM.lift
     (local_competence (n_clf self) training_pseudo_label train_scores_norm
        ind_k) ;;
   candidates <- SEM.lift (_get_competent_detectors self pearson_corr_scores) ;;
   row <- SEM.lift (getitem test_scores_norm i) ;;
   selected <- SEM.lift (take row candidates) ;;
   SEM.ret (np.mean selected))%se.

(** Lines 157 to 159: the scores of every detector on the test rows. *)
Definition predict_all (X_test_norm : matrix) : SE (world E) matrix :=
  (self <- get_self ;;
   SEM.for_each (enumerate (estimator_list self))
     (fun test_scores ke =>
        col <- SEM.lift (predict (snd ke) X_test_norm) ;;
        SEM.lift (set_column test_scores (fst ke) col))
     (zeros (shape0 X_test_norm) (n_clf self)))%se.

(** [check_is_fitted(self, ['training_pseudo_label_', 'train_scores_norm_',
    'X_train_norm_', 'n_features_'])]. *)
Definition check_is_fitted : SE (world E) unit :=
  (self <- get_self ;;
   match training_pseudo_label_ (attrs self), train_scores_norm_ (attrs self),
         X_train_norm_ (attrs self), n_features_ (attrs self) with
   | Some _, Some _, Some _, Some _ => SEM.ret tt
   | _, _, _, _ => SEM.raise NotFittedError
   end)%se.

Definition decision_function (X : matrix) : SE (world E) (list float64) :=
  (check_is_fitted ;;;
   X <- SEM.lift (sklearn.check_array X) ;;
   n_features <- attr n_features_ ;;
   if negb (n_features =? shape1 X)%Z then SEM.raise ValueError
   else
     update_self (fun self =>
       set_local_region_size
         (Z.min (local_region_size self) (local_region_min self)) self) ;;;
     update_self (fun self =>
       set_local_region_size
         (Z.max (local_region_size self) (local_region_max self)) self) ;;;
     let X_test_norm := standardizer X in
     ind_arr <- _get_local_region X_test_norm ;;
     test_scores <- predict_all X_test_norm ;;
     let test_scores_norm := standardizer test_scores in
     SEM.for_each (enumerate ind_arr)
       (fun pred_scores_ens ik =>
          score <- row_score test_scores_norm (fst ik) (snd ik) ;;
          SEM.ret (pred_scores_ens ++ [score]))
       [])%se.

(** *** Access to the detectors *)

Definition __len__ (self : LSCP E) : Z :=
  Z.of_nat (length (estimator_list self)).

Definition __getitem__ (self : LSCP E) (index : Z) : result E :=
  list_getitem (estimator_list self) index.

(** [list(iter(self))]. *)
Definition __iter__ (self : LSCP E) : list E := estimator_list self.

End Class_LSCP.

(** ** A reference back end and stub detectors

    Executable stand-ins for the collaborators, on which the methods can be
    run. *)

Module Reference.

(** Column [j] of a matrix, for the statistics of [zscore]. *)
Definition col_values (m : matrix) (j : nat) : vector :=
  List.map (fun row => nth j row 0) m.

(** The mean and the scale of a column: the scale is the standard
    deviation, or [1] when that is [0]. *)
Definition col_stats (c : vector) : Q * Q :=
  let mu := Qred (Qsum c / Qlen c) in
  let var := Qsum (List.map (fun v => (v - mu) * (v - mu)) c) / Qlen c in
  let sd := Qred (Qsqrt var) in
  (mu, if Qeq_bool sd 0 then 1 else sd).

(** Modelled from the spec: [standardizer], imported from
    [pyod.utils.utility], is not part of the sources.  It is the column-wise
    transform to zero mean and unit variance, [(x - mean) / scale], which
    gives zeros on a column without variance. *)
Definition zscore (X : matrix) : matrix :=
  let stats :=
    List.map (fun j => col_stats (col_values X j))
      (seq 0 (Z.to_nat (shape1 X))) in
  List.map (fun row =>
    List.map (fun vs => Qred ((fst vs - fst (snd vs)) / snd (snd vs)))
      (combine row stats)) X.

(** Squared Euclidean distance. *)
Definition sqdist (a b : vector) : Q :=
  Qsum (List.map (fun p => (fst p - snd p) * (fst p - snd p)) (combine a b)).

Fixpoint insert_by (x : Q * nat) (l : list (Q * nat)) : list (Q * nat) :=
  match l with
  | [] => [x]
  | y :: l' => if Qle_bool (fst x) (fst y) then x :: l else y :: insert_by x l'
  end.

(** The [k] rows of [train] nearest to [x], nearest first, ties by index. *)
Definition nearest (train : matrix) (k : nat) (x : vector) : list nat :=
  firstn k
    (List.map snd
       (fold_right insert_by []
          (List.map (fun ir => (sqdist x (snd ir), fst ir)) (enumerate train)))).

(** Exhaustive nearest-neighbour search; [ValueError] when [train] has no
    row or no column, or [k] is not in [[1, len(train)]]. *)
Definition brute_force_query (train test : matrix) (k : Z)
  : result (list (list nat)) :=
  if ((shape0 train <? 1) || (shape1 train <? 1)
      || (k <? 1) || (shape0 train <? k))%Z
  then Raise ValueError
  else Ok (List.map (nearest train (Z.to_nat k)) test).

(** A linear congruential stream in place of the Mersenne Twister. *)
Fixpoint lcg (x : Z) (n : nat) : list Z :=
  match n with
  | O => []
  | S n' =>
      let x' := ((1103515245 * x + 12345) mod 2 ^ 31)%Z in
      (x' / 65536)%Z :: lcg x' n'
  end.

Definition lcg_stream (seed : Z) : sklearn.RandomState_t := lcg seed 256.

#[global] Instance backend : Backend := {|
  mt19937 := lcg_stream;
  standardizer := zscore;
  KDTree_query := brute_force_query
|}.

(** A stub detector scores a row by a weighted sum of its features;
    [is_estimator] tells whether it passes scikit-learn's validation. *)
Record stub : Type := {
  coef : vector;
  is_estimator : bool
}.

Definition dot (a b : vector) : Q :=
  Qsum (List.map (fun p => fst p * snd p) (combine a b)).

#[global] Instance stub_detector : Detector stub := {|
  estimator_fit := fun e _ => Ok e;
  predict := fun e X => Ok (List.map (dot (coef e)) X);
  check_estimator := fun e => if is_estimator e then Ok tt else Raise TypeError
|}.

End Reference.

(** ** Small inputs *)

Module Fixture.

Import Reference.

Definition by_first : stub := {| coef := [1; 0; 0]; is_estimator := true |}.
Definition by_second : stub := {| coef := [0; 1; 0]; is_estimator := true |}.
Definition by_sum : stub := {| coef := [1; 1; 1]; is_estimator := true |}.

(** An object that scikit-learn's validation rejects. *)
Definition not_an_estimator : stub := {| coef := []; is_estimator := false |}.

Definition X_train : matrix :=
  [[0; 0; 1]; [1; 3; 0]; [2; 1; 4]; [3; 4; 2]; [5; 2; 3]; [9; 9; 9]].

Definition X_test : matrix := [[1; 1; 1]; [4; 3; 2]].

(** [LSCP(estimators, n_iterations, local_region_size, 1.0, n_bins,
    random_state)], with no warning issued before. *)
Definition construct (estimators : list stub)
    (n_iterations local_region_size n_bins : Z) (random_state : random_state_t)
  : list string * result (LSCP stub) :=
  __init__ estimators n_iterations local_region_size 1 n_bins random_state [].

(** The store in which a fresh object starts. *)
Definition start (obj : LSCP stub) : world stub :=
  {| self := obj; np_random := lcg 7 64; queries := [] |}.

(** The store after [LSCP([by_first, by_second, by_sum],
    n_iterations=n_iterations, local_region_size=size,
    random_state=rs).fit(X_train)]. *)
Definition fitted_world (n_iterations size : Z) (rs : random_state_t)
  : world stub :=
  match snd (construct [by_first; by_second; by_sum] n_iterations size 10 rs)
  with
  | Ok obj => fst (fit X_train (start obj))
  | Raise _ => start (init_attributes [] n_iterations size 1 10 rs)
  end.

(** A training set of 104 rows whose three features are [1] or [-1], each
    with mean [0] and variance [1], so that standardizing leaves it as it
    is; and two test rows of the same kind. *)
Definition sign (b : Z) : Q := if Z.even b then 1 else - (1).

Definition X_large : matrix :=
  List.map (fun i =>
    let z := Z.of_nat i in [sign z; sign (z / 2); sign (z / 4)])
    (seq 0 104).

Definition X_probe : matrix := [[1; 1; - (1)]; [- (1); - (1); 1]].

Definition by_third : stub := {| coef := [0; 0; 1]; is_estimator := true |}.

(** The store after [LSCP([by_first, by_second, by_third],
    local_region_size=size, random_state=rs).fit(X_large)]. *)
Definition large_world (size : Z) (rs : random_state_t) : world stub :=
  match snd (construct [by_first; by_second; by_third] 20 size 10 rs) with
  | Ok obj => fst (fit X_large (start obj))
  | Raise _ => start (init_attributes [] 20 size 1 10 rs)
  end.

(** The store after [LSCP([by_first, by_first],
    random_state=42).fit(X_large)]: two detectors that agree. *)
Definition twin_world : world stub :=
  match snd (construct [by_first; by_first] 20 30 10 (RS_int 42)) with
  | Ok obj => fst (fit X_large (start obj))
  | Raise _ => start (init_attributes [] 20 30 1 10 (RS_int 42))
  end.

(** A detector that gives every row the score [0]. *)
Definition flat : stub := {| coef := [0; 0; 0]; is_estimator := true |}.

(** The store after [LSCP([by_first, by_second, flat],
    random_state=42).fit(X_large)]. *)
Definition flat_world : world stub :=
  match snd (construct [by_first; by_second; flat] 20 30 10 (RS_int 42)) with
  | Ok obj => fst (fit X_large (start obj))
  | Raise _ => start (init_attributes [] 20 30 1 10 (RS_int 42))
  end.

(** A training set of 200 rows in two halves that the first feature tells
    apart one way and the second feature the other way. *)
Definition X_split : matrix :=
  List.map (fun i =>
    let s := if (i <? 100)%nat then 1 else - (1) in
    [s; - s; sign (Z.of_nat i)])
    (seq 0 200).

(** A generator whose draws make the passes sample the first feature
    alone and the second feature alone in turn. *)
Definition alternating : sklearn.RandomState_t :=
  concat (repeat [0; 0; 0; 1]%Z 10).

(** The store after [LSCP([by_first, by_second, by_third],
    random_state=alternating).fit(X_split)]. *)
Definition split_world : world stub :=
  match snd (construct [by_first; by_second; by_third] 20 30 10
               (RS_instance alternating)) with
  | Ok obj => fst (fit X_split (start obj))
  | Raise _ => start (init_attributes [] 20 30 1 10 RS_None)
  end.

End Fixture.

(** ** Vocabulary of the statements *)

(** The same generator object: a seed is the same seed, a generator the
    same generator, whose state may have advanced. *)
Definition same_generator (a b : random_state_t) : Prop :=
  match a, b with
  | RS_None, RS_None => True
  | RS_int s, RS_int s' => s = s'
  | RS_instance _, RS_instance _ => True
  | _, _ => False
  end.

(** A vector of finite entries all equal to [v]. *)
Definition all_equal (v : Q) (scores : list float64) : Prop :=
  Forall (fun x => exists q, x = Fin q /\ q == v) scores.

(** A vector without variance: empty, or constant. *)
Definition constant (l : vector) : Prop :=
  exists c, Forall (fun q => q == c) l.

Section Vocabulary.

Context {E : Type} {D : Detector E} {B : Backend}.

(** The values [__init__] gives to the attributes that have no parameter. *)
Definition constructed (self : LSCP E) : Prop :=
  n_clf self = Z.of_nat (length (estimator_list self)) /\
  local_region_min self = 30%Z /\
  local_region_max self = 100%Z /\
  local_min_features self = 1 # 2 /\
  local_region_iterations self = 20%Z /\
  local_region_threshold self = 10%Z /\
  n_selected self = 1%Z.

(** A query a pass of the region finder can make on [self]: it asks for
    [self.local_region_size] neighbours under a feature subset drawn by
    [generate_bagging_indices] with the bounds of lines 193 to 196. *)
Definition drawn_by (self : LSCP E) (ev : query_event) : Prop :=
  ev_k ev = local_region_size self /\
  exists X_train_norm st,
    X_train_norm_ (attrs self) = Some X_train_norm /\
    snd (generate_bagging_indices false
           (shape1 X_train_norm)
           (py_int (inject_Z (shape1 X_train_norm) * local_min_features self))
           (shape1 X_train_norm) st)
    = Ok (ev_features ev).

(** The store [w'] comes from [w] by passes of the region finder: the
    object is the same but for the state of its generator, and the queries
    of the passes have been recorded. *)
Definition after_passes (w w' : world E) : Prop :=
  exists random_state' np_random' new,
    w' = {| self := set_random_state random_state' (self w);
            np_random := np_random';
            queries := queries w ++ new |} /\
    same_generator (random_state (self w)) random_state' /\
    Forall (drawn_by (self w)) new.

(** What one pass does on [self], run in a store of its own: the queries
    it records and the neighbours it finds. *)
Definition pass_outcome (self : LSCP E) (X_test_norm : matrix)
  : list query_event * result (list (list nat)) :=
  let out :=
    region_query X_test_norm
      {| self := self; np_random := []; queries := [] |} in
  (queries (fst out), snd out).

(** The store after lines 149 and 150 of [decision_function]. *)
Definition region_size_set (w : world E) : world E :=
  {| self :=
       set_local_region_size
         (Z.max (Z.min (local_region_size (self w)) (local_region_min (self w)))
            (local_region_max (self w)))
         (self w);
     np_random := np_random w;
     queries := queries w |}.

(** The store [w] with some more queries recorded. *)
Definition with_queries (new : list query_event) (w : world E) : world E :=
  {| self := self w; np_random := np_random w; queries := queries w ++ new |}.

End Vocabulary.

(** * Properties *)

(** ** Results and loops *)

Lemma mapM_ok_iff {A B} (f : A -> result B) (l : list A) :
  is_ok (Res.mapM f l) = true <-> Forall (fun x => is_ok (f x) = true) l.
Proof.
  induction l as [|x l IH]; simpl.
  - split; auto.
  - destruct (f x) as [y|e] eqn:Hx; simpl.
    + unfold Res.map. destruct (Res.mapM f l) as [ys|e]; simpl in *.
      * split; intros; auto. constructor; [now rewrite Hx | now apply IH].
      * split; [discriminate|]. intros H. inversion H; subst. now apply IH.
    + split; [discriminate|]. intros H. inversion H; subst.
      rewrite Hx in *. discriminate.
Qed.

Lemma mapM_length {A B} (f : A -> result B) (l : list A) (r : list B) :
  Res.mapM f l = Ok r -> length r = length l.
Proof.
  revert r. induction l as [|x l IH]; simpl; intros r H.
  - now inversion H.
  - destruct (f x); try discriminate. simpl in H. unfold Res.map in H.
    destruct (Res.mapM f l); try discriminate. simpl in H.
    inversion H; subst. simpl. f_equal. now apply IH.
Qed.

(** A property of the store that every turn of a loop keeps, whether the
    turn returns or raises, holds when the loop ends. *)
Lemma for_each_store {S A B} (I : S -> Prop) (body : B -> A -> SE S B)
    (l : list A) :
  (forall acc x s, I s -> I (fst (body acc x s))) ->
  forall acc s, I s -> I (fst (SEM.for_each l body acc s)).
Proof.
  intros Hb. induction l as [|x l IH]; simpl; intros acc s Hs; [exact Hs|].
  unfold SEM.bind. specialize (Hb acc x s Hs).
  destruct (body acc x s) as [s' [acc'|e]]; simpl in *; auto.
Qed.

(** A loop that returns has run every turn: a property indexed by the
    number of turns made goes from [0] to the length of the list. *)
Lemma for_each_count {S A B} (P : nat -> S -> B -> Prop)
    (body : B -> A -> SE S B) (l : list A) :
  (forall i acc x s s' acc',
      P i s acc -> body acc x s = (s', Ok acc') -> P (Datatypes.S i) s' acc') ->
  forall i acc s s' acc',
    P i s acc -> SEM.for_each l body acc s = (s', Ok acc') ->
    P (i + length l)%nat s' acc'.
Proof.
  intros Hb. induction l as [|x l IH]; simpl; intros i acc s s' acc' HP H.
  - inversion H; subst. now rewrite Nat.add_0_r.
  - unfold SEM.bind in H.
    destruct (body acc x s) as [s1 [acc1|e]] eqn:Hx; try discriminate.
    replace (i + Datatypes.S (length l))%nat
      with (Datatypes.S i + length l)%nat by lia.
    eapply IH; [|exact H]. eapply Hb; eauto.
Qed.

(** ** The constructor *)

Section Constructor.

Context {E : Type} {D : Detector E}.

Variables (estimators : list E) (n_iter size : Z) (max_features : Q)
  (bins : Z) (rs : random_state_t) (ws : list string).

Let built := init_attributes estimators n_iter size max_features bins rs.

(** The outcome of [__init__], case by case. *)
Lemma init_cases :
  __init__ estimators n_iter size max_features bins rs ws =
  if (Z.of_nat (length estimators) <=? 1)%Z then (ws, Raise AssertionError)
  else
    (if (bins >=? Z.of_nat (length estimators))%Z
     then ws ++ [n_bins_warning] else ws,
     match Res.mapM check_estimator estimators with
     | Ok _ =>
         Ok (if (bins >=? Z.of_nat (length estimators))%Z
             then set_n_bins (Z.of_nat (length estimators)) built
             else built)
     | Raise e => Raise e
     end).
Proof.
  unfold __init__, init_checks. fold built. simpl.
  destruct (Z.ltb_spec 1 (Z.of_nat (length estimators))) as [H|H];
    destruct (Z.leb_spec (Z.of_nat (length estimators)) 1) as [H'|H'];
    try lia; simpl; [|reflexivity].
  unfold SEM.bind, SEM.lift, SEM.ret, warn, SEM.modify.
  destruct (bins >=? Z.of_nat (length estimators))%Z; simpl;
    destruct (Res.mapM check_estimator estimators); reflexivity.
Qed.

End Constructor.

(** C9. When [n_bins] is configured larger than the number of detectors,
    the constructor issues its warning and the object holds
    [n_bins = n_clf]; when it is strictly smaller, no warning is issued and
    the configured value is kept.  Neither case raises by itself: if the
    constructor raises, the exception is the one of the validation of the
    detectors. *)
Theorem init_n_bins_reduced {E : Type} {D : Detector E}
    (estimators : list E) (n_iter size : Z) (max_features : Q) (bins : Z)
    (rs : random_state_t) (ws : list string) :
  (2 <= length estimators)%nat ->
  let out := __init__ estimators n_iter size max_features bins rs ws in
  let n := Z.of_nat (length estimators) in
  ((n < bins)%Z ->
     fst out = ws ++ [n_bins_warning] /\
     match snd out with
     | Ok self => n_clf self = n /\ n_bins self = n
     | Raise e => Res.mapM check_estimator estimators = Raise e
     end) /\
  ((bins < n)%Z ->
     fst out = ws /\
     match snd out with
     | Ok self => n_clf self = n /\ n_bins self = bins
     | Raise e => Res.mapM check_estimator estimators = Raise e
     end).
Proof.
  intros Hlen out n. subst out. rewrite init_cases. fold n.
  destruct (Z.leb_spec n 1) as [H|H]; [subst n; lia|].
  split; intros Hb.
  - destruct (Z.geb_spec bins n) as [Hge|Hge]; [|lia]. simpl.
    split; [reflexivity|].
    destruct (Res.mapM check_estimator estimators); simpl; auto.
  - destruct (Z.geb_spec bins n) as [Hge|Hge]; [lia|]. simpl.
    split; [reflexivity|].
    destruct (Res.mapM check_estimator estimators); simpl; auto.
Qed.

Lemma init_n_bins_reduced_witness :
  Fixture.construct [Fixture.by_first; Fixture.by_second] 20 30 10 (RS_int 42)
  = ([n_bins_warning],
     Ok (set_n_bins 2
           (init_attributes [Fixture.by_first; Fixture.by_second] 20 30 1 10
              (RS_int 42)))) /\
  fst (Fixture.construct [Fixture.by_first; Fixture.by_second] 20 30 10
         (RS_int 42)) = [] ++ [n_bins_warning].
Proof.
  split; [reflexivity|].
  apply (proj1 (init_n_bins_reduced [Fixture.by_first; Fixture.by_second]
                  20 30 1 10 (RS_int 42) [] (le_n 2))).
  simpl. lia.
Defined.

(** C10 (as amended). With one detector or none the constructor raises
    [AssertionError]; with two or more it returns the object exactly when
    every detector passes [check_estimator]. *)
Theorem init_detector_count {E : Type} {D : Detector E}
    (estimators : list E) (n_iter size : Z) (max_features : Q) (bins : Z)
    (rs : random_state_t) (ws : list string) :
  let out := __init__ estimators n_iter size max_features bins rs ws in
  ((length estimators <= 1)%nat -> out = (ws, Raise AssertionError)) /\
  ((2 <= length estimators)%nat ->
     (is_ok (snd out) = true <->
      Forall (fun e => is_ok (check_estimator e) = true) estimators)).
Proof.
  intros out. subst out. rewrite init_cases.
  destruct (Z.leb_spec (Z.of_nat (length estimators)) 1) as [H|H].
  - split; [reflexivity|]. intros; lia.
  - split; [intros; lia|]. intros _. simpl.
    rewrite <- mapM_ok_iff.
    destruct (Res.mapM check_estimator estimators); simpl; tauto.
Qed.

Lemma init_detector_count_witness :
  Fixture.construct [Fixture.by_first] 20 30 10 (RS_int 42)
  = ([], Raise AssertionError) /\
  is_ok (snd (Fixture.construct [Fixture.by_first; Fixture.by_sum] 20 30 10
                (RS_int 42))) = true.
Proof.
  split.
  - apply (proj1 (init_detector_count [Fixture.by_first] 20 30 1 10
                    (RS_int 42) [])).
    simpl. lia.
  - apply (proj2 (init_detector_count [Fixture.by_first; Fixture.by_sum]
                    20 30 1 10 (RS_int 42) [])).
    + simpl. lia.
    + repeat constructor.
Defined.

(** C10 as stated fails: two detectors, one of which does not pass
    [check_estimator], and the constructor raises. *)
Lemma init_two_detectors_raises :
  (2 <= length [Fixture.by_first; Fixture.not_an_estimator])%nat /\
  Fixture.construct [Fixture.by_first; Fixture.not_an_estimator] 20 30 10
    (RS_int 42)
  = ([n_bins_warning], Raise TypeError).
Proof. split; [simpl; lia | reflexivity]. Qed.

(** ** The random feature sampler *)

Lemma randint_range (low high : Z) (rs rs' : sklearn.RandomState_t) (v : Z) :
  sklearn.randint low high rs = (rs', Ok v) -> (low <= v < high)%Z.
Proof.
  unfold sklearn.randint.
  destruct (Z.leb_spec high low) as [H|H]; [discriminate|].
  destruct (sklearn.next_raw rs) as [r rs1]. intros Heq.
  inversion Heq; subst.
  pose proof (Z.mod_pos_bound r (high - low)). lia.
Qed.

Lemma randint_ok (low high : Z) (rs : sklearn.RandomState_t) :
  (low < high)%Z -> is_ok (snd (sklearn.randint low high rs)) = true.
Proof.
  intros H. unfold sklearn.randint.
  destruct (Z.leb_spec high low); [lia|].
  now destruct (sklearn.next_raw rs).
Qed.

Lemma pop_perm {A} (i : nat) (pool : list A) (d x : A) (pool' : list A) :
  (i < length pool)%nat -> sklearn.pop i pool d = (x, pool') ->
  Permutation pool (x :: pool').
Proof.
  revert i x pool'.
  induction pool as [|y pool IH]; simpl; intros i x pool' Hi H; [lia|].
  destruct i as [|i].
  - inversion H; subst. reflexivity.
  - simpl in H. destruct (sklearn.pop i pool d) as [z rest] eqn:Hp.
    inversion H; subst.
    rewrite (IH i x rest); [apply perm_swap | lia | exact Hp].
Qed.

(** The draws come out of the pool, each position at most once. *)
Lemma draw_distinct_perm (n : nat) :
  forall pool rs rs' l,
    sklearn.draw_distinct n pool rs = (rs', Ok l) ->
    length l = n /\ exists rest, Permutation pool (l ++ rest).
Proof.
  induction n as [|n IH]; simpl; intros pool rs rs' l H.
  - inversion H; subst. split; [reflexivity|]. now exists pool.
  - unfold SEM.bind in H.
    destruct (sklearn.randint 0 (Z.of_nat (length pool)) rs)
      as [rs1 [i|e]] eqn:Hi; [|discriminate].
    apply randint_range in Hi.
    destruct (sklearn.pop (Z.to_nat i) pool O) as [x pool'] eqn:Hp.
    destruct (sklearn.draw_distinct n pool' rs1) as [rs2 [xs|e]] eqn:Hd;
      [|discriminate].
    inversion H; subst.
    apply pop_perm in Hp; [|lia].
    destruct (IH _ _ _ _ Hd) as [Hlen [rest Hperm]].
    split; [simpl; now rewrite Hlen|].
    exists rest. simpl. rewrite Hp. now constructor.
Qed.

Lemma pop_length {A} (i : nat) (pool : list A) (d : A) :
  (i < length pool)%nat ->
  S (length (snd (sklearn.pop i pool d))) = length pool.
Proof.
  revert i. induction pool as [|y pool IH]; simpl; intros i Hi; [lia|].
  destruct i as [|i]; [reflexivity|].
  specialize (IH i ltac:(lia)). simpl.
  destruct (sklearn.pop i pool d) as [z rest]. simpl in *. lia.
Qed.

Lemma draw_distinct_ok (n : nat) :
  forall pool rs, (n <= length pool)%nat ->
    is_ok (snd (sklearn.draw_distinct n pool rs)) = true.
Proof.
  induction n as [|n IH]; simpl; intros pool rs Hn; [reflexivity|].
  unfold SEM.bind.
  pose proof (@randint_ok 0 (Z.of_nat (length pool)) rs ltac:(lia)) as Hok.
  destruct (sklearn.randint 0 (Z.of_nat (length pool)) rs)
    as [rs1 [i|e]] eqn:Hi; [|discriminate].
  apply randint_range in Hi.
  pose proof (@pop_length _ (Z.to_nat i) pool O ltac:(lia)) as Hl.
  destruct (sklearn.pop (Z.to_nat i) pool O) as [x pool']. simpl in Hl.
  specialize (IH pool' rs1 ltac:(lia)). simpl.
  now destruct (sklearn.draw_distinct n pool' rs1) as [rs2 [xs|e]].
Qed.

Lemma range_length (n : Z) : length (range n) = Z.to_nat n.
Proof. unfold range. apply length_seq. Qed.

Lemma range_In (n : Z) (i : nat) : In i (range n) <-> (Z.of_nat i < n)%Z.
Proof. unfold range. rewrite in_seq. lia. Qed.

Lemma sample_without_replacement_spec (n_population n_samples : Z)
    (rs rs' : sklearn.RandomState_t) (l : list nat) :
  sklearn.sample_without_replacement n_population n_samples rs = (rs', Ok l) ->
  Z.of_nat (length l) = n_samples /\ NoDup l /\
  Forall (fun i => (Z.of_nat i < n_population)%Z) l.
Proof.
  unfold sklearn.sample_without_replacement.
  destruct (Z.ltb_spec n_population 0); [discriminate|].
  destruct (Z.ltb_spec n_samples 0); [discriminate|].
  destruct (Z.ltb_spec n_population n_samples); [discriminate|].
  simpl. intros H2.
  apply draw_distinct_perm in H2. destruct H2 as [Hlen [rest Hperm]].
  split; [lia|]. split.
  - eapply NoDup_app_remove_r.
    eapply Permutation_NoDup; [exact Hperm|]. apply seq_NoDup.
  - apply Forall_forall. intros i Hi. apply range_In.
    eapply Permutation_in; [symmetry; exact Hperm|].
    apply in_or_app. now left.
Qed.

Lemma sample_without_replacement_ok (n_population n_samples : Z)
    (rs : sklearn.RandomState_t) :
  (0 <= n_samples <= n_population)%Z ->
  is_ok (snd (sklearn.sample_without_replacement n_population n_samples rs))
  = true.
Proof.
  intros H. unfold sklearn.sample_without_replacement.
  destruct (Z.ltb_spec n_population 0); [lia|].
  destruct (Z.ltb_spec n_samples 0); [lia|].
  destruct (Z.ltb_spec n_population n_samples); [lia|].
  simpl. apply draw_distinct_ok. rewrite range_length. lia.
Qed.

Section Sampler_facts.

Context {B : Backend}.

(** Whatever [random_state] is, the sampling code runs on some generator. *)
Lemma check_random_state_run {A} (m : SE sklearn.RandomState_t A)
    (st : rng_store) (a : A) :
  snd (check_random_state m st) = Ok a ->
  exists rs, snd (m rs) = Ok a.
Proof.
  unfold check_random_state. destruct st as [[|seed|rs0] g].
  - destruct (m g) as [g' r] eqn:Hm. simpl. intros ->. exists g.
    now rewrite Hm.
  - destruct (sklearn.RandomState mt19937 seed) as [rs|e]; [|discriminate].
    destruct (m rs) as [rs' r] eqn:Hm. simpl. intros ->. exists rs.
    now rewrite Hm.
  - destruct (m rs0) as [rs' r] eqn:Hm. simpl. intros ->. exists rs0.
    now rewrite Hm.
Qed.

(** The sampled subset: its size lies in [[min_features, max_features)],
    and it consists of distinct features. *)
Lemma generate_bagging_indices_spec (n_features min_features max_features : Z)
    (st : rng_store) (features : list nat) :
  snd (generate_bagging_indices false n_features min_features max_features st)
  = Ok features ->
  (min_features <= Z.of_nat (length features) < max_features)%Z /\
  NoDup features /\
  Forall (fun f => (Z.of_nat f < n_features)%Z) features.
Proof.
  unfold generate_bagging_indices. intros H.
  apply check_random_state_run in H. destruct H as [rs H].
  unfold SEM.bind in H.
  destruct (sklearn.randint min_features max_features rs)
    as [rs1 [k|e]] eqn:Hk; [|discriminate].
  apply randint_range in Hk. unfold _generate_indices in H.
  destruct (sklearn.sample_without_replacement n_features k rs1)
    as [rs2 r] eqn:Hs.
  simpl in H. subst r.
  apply sample_without_replacement_spec in Hs. intuition lia.
Qed.

(** A generator object always delivers a subset when the interval of sizes
    is not empty and fits the features. *)
Lemma generate_bagging_indices_ok (n_features min_features max_features : Z)
    (rs g : sklearn.RandomState_t) :
  (0 <= min_features < max_features)%Z -> (max_features <= n_features + 1)%Z ->
  is_ok (snd (generate_bagging_indices false n_features min_features
                max_features (RS_instance rs, g))) = true.
Proof.
  intros Hm Hn. unfold generate_bagging_indices, check_random_state, SEM.bind.
  pose proof (@randint_ok min_features max_features rs ltac:(lia)) as Hok.
  destruct (sklearn.randint min_features max_features rs)
    as [rs1 [k|e]] eqn:Hk; [|discriminate].
  apply randint_range in Hk. unfold _generate_indices.
  pose proof (@sample_without_replacement_ok n_features k rs1 ltac:(lia)).
  now destruct (sklearn.sample_without_replacement n_features k rs1).
Qed.

End Sampler_facts.

(** ** The store of the methods *)

Section Store.

Context {E : Type} {D : Detector E} {B : Backend}.

Lemma set_random_state_same (self : LSCP E) :
  set_random_state (random_state self) self = self.
Proof. now destruct self. Qed.

Lemma same_generator_refl (a : random_state_t) : same_generator a a.
Proof. now destruct a. Qed.

Lemma same_generator_trans (a b c : random_state_t) :
  same_generator a b -> same_generator b c -> same_generator a c.
Proof. destruct a, b, c; simpl; intros; try tauto; congruence. Qed.

Lemma after_passes_refl (w : world E) : after_passes w w.
Proof.
  exists (random_state (self w)), (np_random w), [].
  rewrite set_random_state_same, app_nil_r.
  split; [now destruct w|]. split; [apply same_generator_refl|constructor].
Qed.

Lemma after_passes_trans (w1 w2 w3 : world E) :
  after_passes w1 w2 -> after_passes w2 w3 -> after_passes w1 w3.
Proof.
  intros (rs2 & g2 & new2 & -> & Hk2 & Hd2) (rs3 & g3 & new3 & -> & Hk3 & Hd3).
  simpl in *. exists rs3, g3, (new2 ++ new3). split; [|split].
  - now rewrite app_assoc.
  - eapply same_generator_trans; eauto.
  - apply Forall_app. split; [exact Hd2|exact Hd3].
Qed.

(** [check_random_state] hands back the generator objects it was given. *)
Lemma check_random_state_same {A} (m : SE sklearn.RandomState_t A)
    (st : rng_store) :
  same_generator (fst st) (fst (fst (check_random_state m st))).
Proof.
  unfold check_random_state. destruct st as [[|seed|rs] g]; simpl.
  - now destruct (m g).
  - destruct (sklearn.RandomState mt19937 seed) as [rs|e]; simpl; auto.
    now destruct (m rs).
  - now destruct (m rs).
Qed.

(** With a seed, no generator that outlives the call is touched, and the
    outcome does not depend on the global generator. *)
Lemma check_random_state_seed {A} (m : SE sklearn.RandomState_t A)
    (seed : Z) (g : sklearn.RandomState_t) :
  check_random_state m (RS_int seed, g) =
  ((RS_int seed, g), snd (check_random_state m (RS_int seed, []))).
Proof.
  unfold check_random_state.
  destruct (sklearn.RandomState mt19937 seed) as [rs|e]; simpl; auto.
  now destruct (m rs).
Qed.

(** One pass of the region finder, whatever its outcome. *)
Lemma region_query_after (X : matrix) (w : world E) :
  after_passes w (fst (region_query X w)).
Proof.
  unfold region_query, SEM.bind, get_self, attr, SEM.bind, get_self. simpl.
  destruct (X_train_norm_ (attrs (self w))) as [Xtr|] eqn:HX; simpl;
    [|apply after_passes_refl].
  unfold with_generators.
  pose proof (check_random_state_same
    (random_n_features <-
       sklearn.randint
         (py_int (inject_Z (shape1 Xtr) * local_min_features (self w)))
         (shape1 Xtr) ;;
     _generate_indices false (shape1 Xtr) random_n_features)%se
    (random_state (self w), np_random w)) as Hsame.
  unfold generate_bagging_indices.
  destruct (check_random_state _ (random_state (self w), np_random w))
    as [[rs' g'] r] eqn:Hgen.
  simpl in Hsame.
  assert (Hskip : after_passes w
            {| self := set_random_state rs' (self w); np_random := g';
               queries := queries w |}).
  { exists rs', g', []. rewrite app_nil_r. repeat split; auto. }
  destruct r as [features|e]; simpl; [|exact Hskip].
  unfold SEM.lift.
  destruct (take_cols Xtr features) as [train|e]; simpl; [|exact Hskip].
  destruct (take_cols X features) as [test|e]; simpl; [|exact Hskip].
  unfold record_query, SEM.modify. simpl.
  assert (Hdone : after_passes w
            {| self := set_random_state rs' (self w); np_random := g';
               queries := queries w ++
                 [{| ev_features := features;
                     ev_k := local_region_size (self w) |}] |}).
  { exists rs', g',
      [{| ev_features := features; ev_k := local_region_size (self w) |}].
    repeat split; auto. constructor; [|constructor].
    split; [reflexivity|]. exists Xtr, (random_state (self w), np_random w).
    split; [exact HX|]. unfold generate_bagging_indices.
    now rewrite Hgen. }
  replace (local_region_size (set_random_state rs' (self w)))
    with (local_region_size (self w)) by reflexivity.
  destruct (KDTree_query train test (local_region_size (self w)));
    exact Hdone.
Qed.

(** A pass that returns has made exactly one query. *)
Lemma region_query_one (X : matrix) (w w' : world E)
    (ind_arr : list (list nat)) :
  region_query X w = (w', Ok ind_arr) ->
  length (queries w') = S (length (queries w)).
Proof.
  unfold region_query, SEM.bind, get_self, attr, SEM.bind, get_self. simpl.
  destruct (X_train_norm_ (attrs (self w))) as [Xtr|]; simpl;
    [|discriminate].
  unfold with_generators.
  destruct (generate_bagging_indices _ _ _ _ _) as [[rs' g'] [features|e]];
    simpl; [|discriminate].
  unfold SEM.lift.
  destruct (take_cols Xtr features) as [train|e]; simpl; [|discriminate].
  destruct (take_cols X features) as [test|e]; simpl; [|discriminate].
  unfold record_query, SEM.modify. simpl.
  destruct (KDTree_query train test _); [|discriminate].
  intros H. inversion H; subst. simpl. rewrite length_app. simpl. lia.
Qed.

Lemma region_pass_after (X : matrix) (grid : list (list nat)) (t : nat)
    (w : world E) :
  after_passes w (fst (region_pass X grid t w)).
Proof.
  unfold region_pass, SEM.bind. pose proof (region_query_after X w) as H.
  destruct (region_query X w) as [w1 [ind_arr|e]]; simpl in *; auto.
Qed.

Lemma region_pass_one (X : matrix) (grid grid' : list (list nat)) (t : nat)
    (w w' : world E) :
  region_pass X grid t w = (w', Ok grid') ->
  length (queries w') = S (length (queries w)).
Proof.
  unfold region_pass, SEM.bind.
  destruct (region_query X w) as [w1 [ind_arr|e]] eqn:Hq; [|discriminate].
  unfold SEM.lift. intros H. inversion H; subst.
  now apply region_query_one in Hq.
Qed.

Lemma region_grid_after (X : matrix) (w : world E) :
  after_passes w (fst (region_grid X w)).
Proof.
  unfold region_grid, SEM.bind, get_self. simpl.
  apply (for_each_store (fun s => after_passes w s)).
  - intros acc x s Hs. eapply after_passes_trans; [exact Hs|].
    apply region_pass_after.
  - apply after_passes_refl.
Qed.

(** A run of the region finder that returns has made one query for each
    of its [local_region_iterations] passes. *)
Lemma region_grid_count (X : matrix) (w w' : world E)
    (grid : list (list nat)) :
  region_grid X w = (w', Ok grid) ->
  length (queries w') =
  (length (queries w) + Z.to_nat (local_region_iterations (self w)))%nat.
Proof.
  unfold region_grid, SEM.bind, get_self. simpl. intros H.
  rewrite <- range_length.
  apply (for_each_count
           (fun i s (_ : list (list nat)) =>
              length (queries s) = (length (queries w) + i)%nat)
           (region_pass X)) with (i := O) in H; [exact H| |simpl; lia].
  intros i acc x s s' acc' Hi Hb. apply region_pass_one in Hb. lia.
Qed.

Lemma get_local_region_after (X : matrix) (w : world E) :
  after_passes w (fst (_get_local_region X w)).
Proof.
  unfold _get_local_region, SEM.bind. pose proof (region_grid_after X w) as H.
  destruct (region_grid X w) as [w1 [grid|e]]; simpl in *; auto.
Qed.

Lemma get_local_region_count (X : matrix) (w w' : world E)
    (regions : list (list nat)) :
  _get_local_region X w = (w', Ok regions) ->
  length (queries w') =
  (length (queries w) + Z.to_nat (local_region_iterations (self w)))%nat.
Proof.
  unfold _get_local_region, SEM.bind.
  destruct (region_grid X w) as [w1 [grid|e]] eqn:Hg; [|discriminate].
  unfold get_self, SEM.lift. simpl. intros H. inversion H; subst.
  now apply region_grid_count in Hg.
Qed.

Lemma predict_all_store (X : matrix) (w : world E) :
  fst (predict_all X w) = w.
Proof.
  unfold predict_all, SEM.bind, get_self. simpl.
  apply (for_each_store (fun s => s = w)); [|reflexivity].
  intros acc x s ->. unfold SEM.lift.
  destruct (predict (snd x) X); simpl; reflexivity.
Qed.

Lemma row_score_store (test_scores_norm : matrix) (i : nat)
    (ind_k : list nat) (w : world E) :
  fst (row_score test_scores_norm i ind_k w) = w.
Proof.
  unfold row_score, SEM.bind, get_self, attr, SEM.bind, get_self, SEM.lift.
  simpl.
  destruct (training_pseudo_label_ (attrs (self w))); simpl; [|reflexivity].
  destruct (train_scores_norm_ (attrs (self w))); simpl; [|reflexivity].
  destruct (local_competence _ _ _ _); simpl; [|reflexivity].
  destruct (_get_competent_detectors _ _); simpl; [|reflexivity].
  destruct (getitem _ _); simpl; [|reflexivity].
  destruct (take _ _); reflexivity.
Qed.

Lemma check_array_same (X X' : matrix) :
  sklearn.check_array X = Ok X' -> X' = X.
Proof.
  unfold sklearn.check_array. destruct X as [|row X]; [discriminate|].
  destruct (_ || _); [discriminate|]. now inversion 1.
Qed.

(** The store after [decision_function]: a call that raises before line
    149 leaves it as it was; any other call has assigned
    [local_region_size], and its store is the one the region finder
    leaves. *)
Lemma decision_function_run (X : matrix) (w w' : world E)
    (r : result (list float64)) :
  decision_function X w = (w', r) ->
  (w' = w /\ is_ok r = false) \/
  (w' = fst (_get_local_region (standardizer X) (region_size_set w)) /\
   (is_ok r = true ->
    is_ok (snd (_get_local_region (standardizer X) (region_size_set w)))
    = true)).
Proof.
  unfold decision_function, SEM.bind at 1.
  unfold check_is_fitted, SEM.bind at 1. unfold get_self at 1. simpl.
  destruct (training_pseudo_label_ (attrs (self w)));
    [|intros H; inversion H; left; now split].
  destruct (train_scores_norm_ (attrs (self w)));
    [|intros H; inversion H; left; now split].
  destruct (X_train_norm_ (attrs (self w)));
    [|intros H; inversion H; left; now split].
  destruct (n_features_ (attrs (self w))) as [n|] eqn:Hn;
    [|intros H; inversion H; left; now split].
  simpl. unfold SEM.bind at 1. unfold SEM.lift at 1.
  destruct (sklearn.check_array X) as [X'|e] eqn:HX;
    [|intros H; inversion H; left; now split].
  apply check_array_same in HX. subst X'.
  unfold SEM.bind at 1. unfold attr, SEM.bind at 1, get_self at 1.
  rewrite Hn. simpl.
  destruct (negb (n =? shape1 X)%Z);
    [intros H; inversion H; left; now split|].
  intros H. right. revert H.
  unfold SEM.bind at 1. unfold update_self at 1, SEM.modify at 1.
  unfold SEM.bind at 1. unfold update_self at 1, SEM.modify at 1. simpl.
  unfold SEM.bind at 1.
  match goal with
  | |- context [_get_local_region (standardizer X) ?w0] =>
      change w0 with (region_size_set w)
  end.
  destruct (_get_local_region (standardizer X) (region_size_set w))
    as [w1 [ind_arr|e]]; simpl;
    [|intros H; inversion H; subst; split; [reflexivity|discriminate]].
  unfold SEM.bind at 1.
  pose proof (predict_all_store (standardizer X) w1) as Hp.
  destruct (predict_all (standardizer X) w1) as [w2 [test_scores|e]];
    simpl in Hp; subst w2;
    [|intros H; inversion H; subst; split; [reflexivity|discriminate]].
  intros H. split; [|reflexivity].
  match type of H with
  | SEM.for_each ?l ?body ?acc ?s = _ =>
      pose proof (for_each_store (fun s' => s' = w1) body l) as Hloop;
      specialize (fun Hb => Hloop Hb acc s eq_refl)
  end.
  rewrite H in Hloop. apply Hloop.
  intros acc x s ->. unfold SEM.bind.
  pose proof (row_score_store (standardizer test_scores) (fst x) (snd x) w1)
    as Hrow.
  destruct (row_score _ _ _ w1) as [s' [score|e]]; simpl in *; now subst.
Qed.

End Store.

(** ** What [__init__] fixes, and what [fit] keeps *)

Section Invariant.

Context {E : Type} {D : Detector E} {B : Backend}.

Lemma init_constructed (estimators : list E) (n_iter size : Z)
    (max_features : Q) (bins : Z) (rs : random_state_t) (ws : list string)
    (self : LSCP E) :
  snd (__init__ estimators n_iter size max_features bins rs ws) = Ok self ->
  constructed self /\ n_iterations self = n_iter /\
  local_region_size self = size /\ random_state self = rs.
Proof.
  rewrite init_cases.
  destruct (Z.of_nat (length estimators) <=? 1)%Z; [discriminate|]. simpl.
  destruct (Res.mapM check_estimator estimators); [|discriminate].
  intros H. inversion H; subst.
  destruct (bins >=? Z.of_nat (length estimators))%Z;
    unfold constructed; simpl; repeat split; reflexivity.
Qed.

Lemma replace_nth_length {A} (l : list A) (k : nat) (x : A) :
  length (replace_nth l k x) = length l.
Proof.
  revert k. induction l as [|y l IH]; intros [|k]; simpl; auto.
Qed.

(** [fit] assigns its own attributes and trains the detectors in place;
    the attributes of [__init__] keep their values. *)
Lemma fit_constructed (X : matrix) (w : world E) :
  constructed (self w) -> constructed (self (fst (fit X w))).
Proof.
  intros Hc.
  set (I := fun s : world E =>
    length (estimator_list (self s)) = length (estimator_list (self w)) /\
    set_attrs not_fitted (set_estimator_list [] (self s)) =
    set_attrs not_fitted (set_estimator_list [] (self w))).
  assert (HI : forall s, I s -> constructed (self s)).
  { intros s [Hl Hs]. unfold constructed in *.
    pose proof (f_equal (@n_clf E) Hs) as H1.
    pose proof (f_equal (@local_region_min E) Hs) as H2.
    pose proof (f_equal (@local_region_max E) Hs) as H3.
    pose proof (f_equal (@local_min_features E) Hs) as H4.
    pose proof (f_equal (@local_region_iterations E) Hs) as H5.
    pose proof (f_equal (@local_region_threshold E) Hs) as H6.
    pose proof (f_equal (@n_selected E) Hs) as H7.
    simpl in *. rewrite H1, H2, H3, H4, H5, H6, H7, Hl. exact Hc. }
  apply HI.
  assert (Hassign : forall f s, I s -> I (fst (assign f s)))
    by (intros f s [Hl Hs]; split; [exact Hl|exact Hs]).
  assert (H0 : I w) by (split; reflexivity).
  unfold fit, SEM.bind at 1. unfold SEM.lift at 1.
  destruct (sklearn.check_array X) as [X'|e]; [|exact H0].
  unfold SEM.bind at 1.
  pose proof (Hassign (assign_n_features_ (shape1 X')) w H0) as H1.
  destruct (assign (assign_n_features_ (shape1 X')) w) as [w1 [[]|e]];
    simpl in H1; [|exact H1].
  unfold SEM.bind at 1.
  pose proof (Hassign (assign_X_train_norm_ (standardizer X')) w1 H1) as H2.
  destruct (assign (assign_X_train_norm_ (standardizer X')) w1)
    as [w2 [[]|e]]; simpl in H2; [|exact H2].
  unfold SEM.bind at 1. unfold attr at 1, SEM.bind at 1, get_self at 1.
  destruct (X_train_norm_ (attrs (self w2))) as [Xtr|]; [|exact H2].
  simpl. unfold SEM.bind at 1, get_self at 1. unfold SEM.bind at 1.
  match goal with
  | |- I (fst (let (s', r) := SEM.for_each ?l ?body ?acc ?s in _)) =>
      pose proof (@for_each_store _ _ _ I body l) as Hloop;
      specialize (fun Hb => Hloop Hb acc s H2);
      destruct (SEM.for_each l body acc s) as [w3 [train_scores|e]]
  end; simpl in Hloop.
  - assert (H3 : I w3).
    { apply Hloop. intros acc x s Hs. unfold SEM.bind, SEM.lift.
      destruct (estimator_fit (snd x) Xtr) as [est|e]; [|exact Hs]. simpl.
      assert (I (fst (update_self (fun self0 : LSCP E =>
                 set_estimator_list
                   (replace_nth (estimator_list self0) (fst x) est) self0) s)))
        as Hu.
      { destruct Hs as [Hl Hs]. split; [|exact Hs]. simpl.
        now rewrite replace_nth_length. }
      simpl in Hu.
      destruct (predict est Xtr) as [col|e]; simpl;
        [destruct (set_column acc (fst x) col)|]; exact Hu. }
    clear Hloop. unfold SEM.bind at 1.
    pose proof (Hassign (assign_train_scores_norm_ (standardizer train_scores))
                  w3 H3) as H4.
    destruct (assign (assign_train_scores_norm_ _) w3) as [w4 [[]|e]];
      simpl in H4; [|exact H4].
    unfold SEM.bind at 1. unfold attr at 1, SEM.bind at 1, get_self at 1.
    destruct (train_scores_norm_ (attrs (self w4))) as [tsn|]; [|exact H4].
    simpl. unfold SEM.bind at 1, SEM.lift at 1.
    destruct (Res.mapM row_max tsn) as [label|e]; [|exact H4].
    unfold SEM.bind at 1.
    pose proof (Hassign (assign_training_pseudo_label_ label) w4 H4) as H5.
    destruct (assign (assign_training_pseudo_label_ label) w4)
      as [w5 [[]|e]]; simpl in H5; [|exact H5].
    unfold SEM.bind at 1.
    pose proof (Hassign (assign_decision_scores_ true) w5 H5) as H6.
    destruct (assign (assign_decision_scores_ true) w5) as [w6 [[]|e]];
      simpl in H6; [|exact H6].
    unfold SEM.bind at 1.
    pose proof (Hassign (assign_threshold_ true) w6 H6) as H7.
    destruct (assign (assign_threshold_ true) w6) as [w7 [[]|e]];
      simpl in H7; [|exact H7].
    apply Hassign. exact H7.
  - apply Hloop. intros acc x s Hs. unfold SEM.bind, SEM.lift.
    destruct (estimator_fit (snd x) Xtr) as [est|e']; [|exact Hs]. simpl.
    assert (I (fst (update_self (fun self0 : LSCP E =>
               set_estimator_list
                 (replace_nth (estimator_list self0) (fst x) est) self0) s)))
      as Hu.
    { destruct Hs as [Hl Hs]. split; [|exact Hs]. simpl.
      now rewrite replace_nth_length. }
    simpl in Hu.
    destruct (predict est Xtr) as [col|e'']; simpl;
      [destruct (set_column acc (fst x) col)|]; exact Hu.
Qed.

End Invariant.

(** ** The region size and the passes of the region finder *)

Section Regions.

Context {E : Type} {D : Detector E} {B : Backend}.

Lemma shape1_nonneg (m : matrix) : (0 <= shape1 m)%Z.
Proof. destruct m; simpl; lia. Qed.

Lemma half_features (n : Z) :
  (0 <= n)%Z -> py_int (inject_Z n * (1 # 2)) = (n / 2)%Z.
Proof.
  intros H. unfold py_int. simpl. rewrite Z.mul_1_r.
  apply Z.quot_div_nonneg; lia.
Qed.

(** The queries of a call of [decision_function], all of which ask for
    the region size of lines 149 and 150. *)
Lemma decision_function_queries (X : matrix) (w w' : world E)
    (r : result (list float64)) :
  decision_function X w = (w', r) ->
  exists new,
    queries w' = queries w ++ new /\
    Forall (drawn_by (self (region_size_set w))) new /\
    (is_ok r = true ->
     length new = Z.to_nat (local_region_iterations (self w)) /\
     local_region_size (self w') =
     local_region_size (self (region_size_set w))).
Proof.
  intros H. apply decision_function_run in H. destruct H as [[-> Hr]|[-> Hok]].
  - exists []. rewrite app_nil_r. split; [reflexivity|]. split; [constructor|].
    intros Hok. rewrite Hr in Hok. discriminate.
  - pose proof (get_local_region_after (standardizer X) (region_size_set w))
      as (rs' & g' & new & Hw & _ & Hnew).
    exists new. rewrite Hw. simpl. repeat split; auto.
    specialize (Hok H).
    destruct (_get_local_region (standardizer X) (region_size_set w))
      as [w1 [regions|e]] eqn:Hrun; [|discriminate].
    apply get_local_region_count in Hrun. simpl in *. subst w1. simpl in Hrun.
    rewrite length_app in Hrun. lia.
Qed.

(** C1. [decision_function] does not clamp the region size into
    [[30, 100]]: whatever size is configured, every nearest-neighbour query
    asks for [local_region_max = 100] neighbours, and a call that returns
    has made its 20 queries with it and leaves [local_region_size = 100].
    A configured size of 50 is therefore not used unchanged. *)
Theorem decision_function_region_size (X : matrix) (w : world E) :
  constructed (self w) ->
  exists new,
    queries (fst (decision_function X w)) = queries w ++ new /\
    Forall (fun ev => ev_k ev = 100%Z) new /\
    (is_ok (snd (decision_function X w)) = true ->
     length new = 20%nat /\
     local_region_size (self (fst (decision_function X w))) = 100%Z).
Proof.
  intros (_ & Hmin & Hmax & _ & Hit & _).
  destruct (decision_function X w) as [w' r] eqn:H. simpl.
  apply decision_function_queries in H.
  destruct H as (new & Hq & Hnew & Hok).
  assert (Hsize : local_region_size (self (region_size_set w)) = 100%Z)
    by (simpl; lia).
  exists new. split; [exact Hq|]. split.
  - eapply Forall_impl; [|exact Hnew]. intros ev [Hk _]. congruence.
  - intros Hr. destruct (Hok Hr) as [Hlen Hs]. rewrite Hit in Hlen.
    split; [exact Hlen|congruence].
Qed.

(** C4 (as amended). On an object built by [__init__], whatever
    [n_iterations] was given, a run of the region finder that returns has
    made exactly [local_region_iterations = 20] passes, and the consensus
    threshold is [20 / 2]; [n_iterations] is stored and not read. *)
Theorem local_region_passes (X : matrix) (w : world E) :
  constructed (self w) ->
  is_ok (snd (_get_local_region X w)) = true ->
  let w' := fst (_get_local_region X w) in
  length (queries w') = (length (queries w) + 20)%nat /\
  local_region_threshold (self w') = (20 / 2)%Z /\
  n_iterations (self w') = n_iterations (self w).
Proof.
  intros (_ & _ & _ & _ & Hit & Hth & _) Hok w'. subst w'.
  pose proof (get_local_region_after X w) as (rs' & g' & new & Hw & _ & _).
  destruct (_get_local_region X w) as [w1 [regions|e]] eqn:Hrun;
    [|discriminate].
  apply get_local_region_count in Hrun. simpl in *. rewrite Hit in Hrun.
  split; [exact Hrun|]. subst w1. simpl. split; [exact Hth|reflexivity].
Qed.

(** C5 (as amended). The feature subset of every pass of the region
    finder consists of distinct features, at least [n_features / 2]
    (rounded down) of them and strictly fewer than [n_features]: no pass
    ever samples all the features. *)
Theorem region_feature_subset_size (X X_train_norm : matrix) (w : world E) :
  constructed (self w) ->
  X_train_norm_ (attrs (self w)) = Some X_train_norm ->
  let n_features := shape1 X_train_norm in
  exists new,
    queries (fst (_get_local_region X w)) = queries w ++ new /\
    Forall (fun ev =>
              (n_features / 2 <= Z.of_nat (length (ev_features ev))
               < n_features)%Z /\
              NoDup (ev_features ev) /\
              Forall (fun f => (Z.of_nat f < n_features)%Z) (ev_features ev))
      new.
Proof.
  intros (_ & _ & _ & Hmin & _) HX n_features.
  pose proof (get_local_region_after X w) as (rs' & g' & new & Hw & _ & Hnew).
  exists new. rewrite Hw. simpl. split; [reflexivity|].
  eapply Forall_impl; [|exact Hnew].
  intros ev (_ & Xtr & st & HX' & Hgen).
  rewrite HX in HX'. inversion HX'; subst Xtr. rewrite Hmin in Hgen.
  apply generate_bagging_indices_spec in Hgen.
  rewrite half_features in Hgen by apply shape1_nonneg. exact Hgen.
Qed.

(** C7 (as amended). [decision_function] leaves the attributes of [fit]
    and every attribute of [__init__] other than [local_region_size] as
    they were; [random_state] stays the same seed or the same generator
    object, whose state may have advanced. *)
Theorem decision_function_frame (X : matrix) (w : world E) :
  let self' := self (fst (decision_function X w)) in
  attrs self' = attrs (self w) /\
  estimator_list self' = estimator_list (self w) /\
  n_clf self' = n_clf (self w) /\
  n_iterations self' = n_iterations (self w) /\
  local_region_min self' = local_region_min (self w) /\
  local_region_max self' = local_region_max (self w) /\
  local_max_features self' = local_max_features (self w) /\
  local_min_features self' = local_min_features (self w) /\
  local_region_iterations self' = local_region_iterations (self w) /\
  local_region_threshold self' = local_region_threshold (self w) /\
  n_bins self' = n_bins (self w) /\
  n_selected self' = n_selected (self w) /\
  same_generator (random_state (self w)) (random_state self').
Proof.
  intros self'. subst self'.
  destruct (decision_function X w) as [w' r] eqn:H. simpl.
  apply decision_function_run in H. destruct H as [[-> _]|[-> _]].
  - repeat split; auto using same_generator_refl.
  - pose proof (get_local_region_after (standardizer X) (region_size_set w))
      as (rs' & g' & new & Hw & Hsame & _).
    rewrite Hw. simpl. repeat split; auto.
Qed.

End Regions.

(** ** The claims on small inputs *)

Lemma decision_function_region_size_witness :
  local_region_size (self (Fixture.large_world 50 (RS_int 42))) = 50%Z /\
  exists new,
    queries (fst (decision_function Fixture.X_probe
                    (Fixture.large_world 50 (RS_int 42))))
    = queries (Fixture.large_world 50 (RS_int 42)) ++ new /\
    Forall (fun ev => ev_k ev = 100%Z) new /\
    (is_ok (snd (decision_function Fixture.X_probe
                   (Fixture.large_world 50 (RS_int 42)))) = true ->
     length new = 20%nat /\
     local_region_size
       (self (fst (decision_function Fixture.X_probe
                     (Fixture.large_world 50 (RS_int 42))))) = 100%Z).
Proof.
  split; [vm_compute; reflexivity|].
  apply decision_function_region_size.
  vm_compute. repeat split; reflexivity.
Defined.

(** The call of C1 evaluated: with [local_region_size=50] the call
    returns the two scores after 20 queries for 100 neighbours each. *)
Example decision_function_size_50 :
  let out :=
    decision_function Fixture.X_probe (Fixture.large_world 50 (RS_int 42)) in
  snd out = Ok [Fin (1 # 3); Fin (- 1 # 3)] /\
  List.map ev_k (queries (fst out)) = repeat 100%Z 20 /\
  local_region_size (self (fst out)) = 100%Z.
Proof. vm_compute. repeat split; reflexivity. Qed.

Lemma local_region_passes_witness :
  let w := Fixture.fitted_world 5 2 (RS_int 42) in
  let w' := fst (_get_local_region (standardizer Fixture.X_test) w) in
  length (queries w') = (length (queries w) + 20)%nat /\
  local_region_threshold (self w') = (20 / 2)%Z /\
  n_iterations (self w') = n_iterations (self w).
Proof.
  apply local_region_passes.
  - vm_compute. repeat split; reflexivity.
  - vm_compute. reflexivity.
Defined.

(** C4 as stated fails: an object configured with [n_iterations=5] makes
    20 passes. *)
Lemma passes_ignore_n_iterations :
  let w := Fixture.fitted_world 5 2 (RS_int 42) in
  let out := _get_local_region (standardizer Fixture.X_test) w in
  n_iterations (self w) = 5%Z /\
  is_ok (snd out) = true /\
  length (queries (fst out)) = 20%nat /\
  Z.of_nat (length (queries (fst out))) <> n_iterations (self w).
Proof. vm_compute. repeat split; try reflexivity. discriminate. Qed.

Lemma region_feature_subset_size_witness :
  let w := Fixture.fitted_world 20 2 (RS_instance (Reference.lcg 1 64)) in
  exists new,
    queries (fst (_get_local_region (standardizer Fixture.X_test) w))
    = queries w ++ new /\
    Forall (fun ev =>
              (3 / 2 <= Z.of_nat (length (ev_features ev)) < 3)%Z /\
              NoDup (ev_features ev) /\
              Forall (fun f => (Z.of_nat f < 3)%Z) (ev_features ev))
      new.
Proof.
  apply (@region_feature_subset_size _ _ (standardizer Fixture.X_test)
           (Reference.zscore Fixture.X_train)
           (Fixture.fitted_world 20 2 (RS_instance (Reference.lcg 1 64)))).
  - vm_compute. repeat split; reflexivity.
  - vm_compute. reflexivity.
Defined.

(** C5 as stated fails: with four features no state of the generator
    yields a subset of all four, and with three features a subset of one
    feature, fewer than [0.5 * 3], can be drawn. *)
Lemma no_draw_of_all_features :
  (~ exists st features,
        snd (generate_bagging_indices false 4
               (py_int (inject_Z 4 * (1 # 2))) 4 st) = Ok features /\
        length features = 4%nat) /\
  (exists st features,
      snd (generate_bagging_indices false 3
             (py_int (inject_Z 3 * (1 # 2))) 3 st) = Ok features /\
      inject_Z (Z.of_nat (length features)) < (1 # 2) * inject_Z 3).
Proof.
  split.
  - intros (st & features & Hgen & Hlen).
    apply generate_bagging_indices_spec in Hgen. lia.
  - exists (RS_instance [0%Z], []), [0%nat]. split; reflexivity.
Qed.

(** C7 as stated fails: an object configured with [local_region_size=10]
    holds another value after a call of [decision_function] that returns. *)
Lemma decision_function_assigns_region_size :
  let w := Fixture.large_world 10 (RS_int 42) in
  let out := decision_function Fixture.X_probe w in
  is_ok (snd out) = true /\
  local_region_size (self w) = 10%Z /\
  local_region_size (self (fst out)) <> local_region_size (self w).
Proof. vm_compute. repeat split; try reflexivity. discriminate. Qed.

(** ** Counting neighbours *)

Section Counting.

Abbreviation keys := (List.map (@fst nat nat)).
Abbreviation add_all := (fold_left (fun c x => counter_add x c)).

Lemma counter_add_keys_in (x : nat) (c : list (nat * nat)) :
  In x (keys c) -> keys (counter_add x c) = keys c.
Proof.
  induction c as [|[y n] c IH]; simpl; [tauto|]. intros H.
  destruct (Nat.eqb_spec x y) as [->|Hne]; simpl; [reflexivity|].
  f_equal. apply IH. destruct H; [congruence|assumption].
Qed.

Lemma counter_add_keys_new (x : nat) (c : list (nat * nat)) :
  ~ In x (keys c) -> keys (counter_add x c) = keys c ++ [x].
Proof.
  induction c as [|[y n] c IH]; simpl; [reflexivity|]. intros H.
  destruct (Nat.eqb_spec x y) as [->|Hne]; simpl; [tauto|].
  f_equal. apply IH. tauto.
Qed.

(** Items that are new and distinct are appended in their order. *)
Lemma counter_keys_distinct (l : list nat) :
  forall c, NoDup (keys c ++ l) -> keys (add_all l c) = keys c ++ l.
Proof.
  induction l as [|x l IH]; simpl; intros c H.
  - now rewrite app_nil_r.
  - assert (Hx : ~ In x (keys c)).
    { apply NoDup_remove_2 in H. intros Hin. apply H.
      apply in_or_app. now left. }
    rewrite IH; rewrite counter_add_keys_new by exact Hx;
      rewrite <- app_assoc; simpl; [reflexivity|exact H].
Qed.

(** Items that were seen before add no key. *)
Lemma counter_keys_seen (l : list nat) :
  forall c, (forall x, In x l -> In x (keys c)) -> keys (add_all l c) = keys c.
Proof.
  induction l as [|x l IH]; simpl; intros c H; [reflexivity|].
  rewrite IH; rewrite counter_add_keys_in by auto; auto.
Qed.

Lemma counter_add_get (x y : nat) (c : list (nat * nat)) :
  Counter_get (counter_add x c) y =
  if (y =? x)%nat then S (Counter_get c y) else Counter_get c y.
Proof.
  induction c as [|[z n] c IH]; simpl.
  - now destruct (y =? x)%nat.
  - destruct (Nat.eqb_spec x z) as [->|Hxz]; simpl.
    + now destruct (y =? z)%nat.
    + destruct (Nat.eqb_spec y z) as [->|Hyz].
      * destruct (Nat.eqb_spec z x); [congruence|reflexivity].
      * exact IH.
Qed.

Lemma add_all_get (l : list nat) (y : nat) :
  forall c,
    Counter_get (add_all l c) y
    = (count_occ Nat.eq_dec l y + Counter_get c y)%nat.
Proof.
  induction l as [|x l IH]; simpl; intros c; [reflexivity|].
  rewrite IH, counter_add_get.
  destruct (Nat.eq_dec x y) as [->|Hne].
  - rewrite Nat.eqb_refl. lia.
  - destruct (Nat.eqb_spec y x); [congruence|reflexivity].
Qed.

(** A counter holds, for every item, the number of its occurrences. *)
Lemma Counter_get_count (l : list nat) (y : nat) :
  Counter_get (Counter l) y = count_occ Nat.eq_dec l y.
Proof. unfold Counter. rewrite add_all_get. simpl. lia. Qed.

Lemma In_Counter_get (c : list (nat * nat)) (x n : nat) :
  NoDup (keys c) -> In (x, n) c -> Counter_get c x = n.
Proof.
  induction c as [|[y m] c IH]; simpl; [tauto|].
  intros Hnd [H|H].
  - inversion H; subst. now rewrite Nat.eqb_refl.
  - inversion Hnd as [|? ? Hy Hnd']; subst.
    destruct (Nat.eqb_spec x y) as [->|Hne]; [|now apply IH].
    exfalso. apply Hy. now apply (in_map fst) in H.
Qed.

Lemma entries_constant (c : list (nat * nat)) (v : nat) :
  (forall p, In p c -> snd p = v) ->
  c = List.map (fun x => (x, v)) (keys c).
Proof.
  induction c as [|[y m] c IH]; simpl; intros H; [reflexivity|].
  rewrite <- IH by auto. now rewrite <- (H (y, m)) by auto.
Qed.

Lemma count_occ_concat_repeat (row : list nat) (k x : nat) :
  count_occ Nat.eq_dec (concat (repeat row k)) x
  = (k * count_occ Nat.eq_dec row x)%nat.
Proof.
  induction k as [|k IH]; simpl; [reflexivity|].
  now rewrite count_occ_app, IH.
Qed.

Lemma In_concat_repeat (row : list nat) (k x : nat) :
  In x (concat (repeat row k)) -> In x row.
Proof.
  induction k as [|k IH]; simpl; [tauto|].
  rewrite in_app_iff. tauto.
Qed.

(** The accumulated neighbours of a test row whose [k] passes all found
    the same distinct neighbours [row]: every one of them is counted [k]
    times, and no other index is counted. *)
Lemma Counter_repeated (row : list nat) (k : nat) :
  NoDup row -> (0 < k)%nat ->
  Counter (concat (repeat row k)) = List.map (fun x => (x, k)) row.
Proof.
  intros Hnd Hk. destruct k as [|k]; [lia|].
  assert (Hkeys : keys (Counter (concat (repeat row (S k)))) = row).
  { unfold Counter. simpl. rewrite fold_left_app.
    rewrite counter_keys_seen; rewrite (counter_keys_distinct row []);
      simpl; auto.
    intros x. apply In_concat_repeat. }
  rewrite (@entries_constant (Counter (concat (repeat row (S k)))) (S k)).
  - now rewrite Hkeys.
  - intros [x n] Hin. simpl.
    assert (Hx : In x row)
      by (rewrite <- Hkeys; now apply (in_map fst) in Hin).
    apply In_Counter_get in Hin; [|now rewrite Hkeys].
    rewrite Counter_get_count, count_occ_concat_repeat in Hin.
    apply (NoDup_count_occ' Nat.eq_dec) in Hx; [|exact Hnd]. nia.
Qed.

(** The consensus filter removes nothing from such a row. *)
Lemma consensus_repeated (threshold : Z) (row : list nat) (k : nat) :
  NoDup row -> (0 < k)%nat -> (threshold < Z.of_nat k)%Z ->
  consensus threshold (concat (repeat row k)) = row.
Proof.
  intros Hnd Hk Hth. unfold consensus. rewrite Counter_repeated by auto.
  induction row as [|x row IH]; simpl; [reflexivity|].
  destruct (Z.ltb_spec threshold (Z.of_nat k)); [|lia]. simpl.
  f_equal. apply IH. now inversion Hnd.
Qed.

End Counting.

(** ** The region finder under an integer seed *)

Lemma mapM_map_arg {A B C} (h : B -> result C) (f : A -> B) (l : list A) :
  Res.mapM h (List.map f l) = Res.mapM (fun x => h (f x)) l.
Proof.
  induction l as [|x l IH]; simpl; [reflexivity|]. now rewrite IH.
Qed.

(** A comprehension over [range(len(l))] that reads [l[j]] is a map
    over [l]. *)
Lemma mapM_range_nth {A B} (l : list A) (g : A -> B) :
  forall h : nat -> result B,
    (forall j x, nth_error l j = Some x -> h j = Ok (g x)) ->
    Res.mapM h (seq 0 (length l)) = Ok (List.map g l).
Proof.
  induction l as [|x l IH]; simpl; intros h H; [reflexivity|].
  rewrite (H O x eq_refl). simpl. unfold Res.map.
  rewrite <- seq_shift, mapM_map_arg.
  rewrite (IH (fun j => h (S j))); [reflexivity|].
  intros j y Hj. now apply H.
Qed.

Lemma concat_repeat_snoc {A} (row : list A) (k : nat) :
  concat (repeat row k) ++ row = concat (repeat row (S k)).
Proof.
  induction k as [|k IH]; simpl in *; [now rewrite app_nil_r|].
  now rewrite <- app_assoc, IH.
Qed.

Lemma map_nil_repeat {A B} (l : list A) :
  List.map (fun _ => @nil B) l = repeat [] (length l).
Proof. induction l; simpl; congruence. Qed.

Lemma extend_grid_same (n : Z) (f : list nat -> list nat)
    (ind_arr : list (list nat)) :
  length ind_arr = Z.to_nat n ->
  extend_grid n (List.map f ind_arr) ind_arr
  = Ok (List.map (fun row => f row ++ row) ind_arr).
Proof.
  intros H. unfold extend_grid, range. rewrite <- H.
  apply mapM_range_nth. intros j row Hj. unfold getitem.
  rewrite nth_error_map, Hj. reflexivity.
Qed.

Section Seeded.

Context {E : Type} {D : Detector E} {B : Backend}.

(** With an integer seed a pass leaves the object and the generators as
    they were, and does what it does in any other store. *)
Lemma region_query_seeded (X : matrix) (self0 : LSCP E) (seed : Z)
    (g : sklearn.RandomState_t) (q : list query_event) :
  random_state self0 = RS_int seed ->
  region_query X {| self := self0; np_random := g; queries := q |} =
  ({| self := self0; np_random := g;
      queries := q ++ fst (pass_outcome self0 X) |},
   snd (pass_outcome self0 X)).
Proof.
  intros Hseed.
  assert (Hs : set_random_state (RS_int seed) self0 = self0)
    by (rewrite <- Hseed; apply set_random_state_same).
  unfold pass_outcome, region_query, SEM.bind, get_self, attr, SEM.bind,
    get_self. simpl.
  destruct (X_train_norm_ (attrs self0)) as [Xtr|]; simpl;
    [|now rewrite app_nil_r].
  unfold with_generators, generate_bagging_indices. simpl. rewrite Hseed.
  destruct (sklearn.RandomState mt19937 seed) as [rs|e]; simpl;
    rewrite ?Hs; [|now rewrite app_nil_r].
  match goal with
  | |- context [SEM.bind ?a ?b rs] =>
      destruct (SEM.bind a b rs) as [rs' [features|e]]
  end; simpl; rewrite ?Hs; [|now rewrite app_nil_r].
  unfold SEM.lift.
  destruct (take_cols Xtr features) as [train|e]; simpl;
    [|now rewrite app_nil_r].
  destruct (take_cols X features) as [test|e]; simpl;
    [|now rewrite app_nil_r].
  now destruct (KDTree_query train test (local_region_size self0)).
Qed.

(** The passes under a seed: each records the same queries and adds the
    same neighbours to the grid. *)
Lemma seeded_passes (X : matrix) (self0 : LSCP E) (seed : Z)
    (evs : list query_event) (ind_arr : list (list nat)) :
  random_state self0 = RS_int seed ->
  pass_outcome self0 X = (evs, Ok ind_arr) ->
  length ind_arr = Z.to_nat (shape0 X) ->
  forall (turns : list nat) (k : nat) g q,
    SEM.for_each turns (region_pass X)
      (List.map (fun row => concat (repeat row k)) ind_arr)
      {| self := self0; np_random := g; queries := q |}
    = ({| self := self0; np_random := g;
          queries := q ++ concat (repeat evs (length turns)) |},
       Ok (List.map (fun row => concat (repeat row (k + length turns)))
             ind_arr)).
Proof.
  intros Hseed Hout Hlen.
  induction turns as [|t turns IH]; simpl; intros k g q.
  - now rewrite app_nil_r, Nat.add_0_r.
  - unfold SEM.bind at 1. unfold region_pass at 1. unfold SEM.bind at 1.
    rewrite (region_query_seeded X self0 g q Hseed), Hout. simpl.
    unfold SEM.lift.
    rewrite (extend_grid_same (shape0 X)
               (fun row => concat (repeat row k)) ind_arr Hlen).
    rewrite (map_ext _ (fun row => concat (repeat row (S k))))
      by (intros row; apply concat_repeat_snoc).
    rewrite IH. rewrite <- app_assoc.
    now replace (S k + length turns)%nat with (k + S (length turns))%nat
      by lia.
Qed.

(** C3. With an integer seed every pass seeds a fresh generator and draws
    the same feature subset: the passes record the same query 20 times;
    if that query finds, for every test row, [k] distinct neighbours, each
    of them is counted 20 times and no other index is counted, all of them
    pass the consensus threshold, and the local region of a row is exactly
    its neighbours under that one subset. *)
Theorem seeded_region_is_one_neighbour_set (X : matrix) (w : world E)
    (seed : Z) (evs : list query_event) (ind_arr : list (list nat)) :
  constructed (self w) ->
  random_state (self w) = RS_int seed ->
  pass_outcome (self w) X = (evs, Ok ind_arr) ->
  length ind_arr = Z.to_nat (shape0 X) ->
  Forall (@NoDup nat) ind_arr ->
  length evs = 1%nat /\
  region_grid X w =
    (with_queries (concat (repeat evs 20)) w,
     Ok (List.map (fun row => concat (repeat row 20)) ind_arr)) /\
  Forall (fun row =>
            Counter (concat (repeat row 20))
            = List.map (fun x => (x, 20%nat)) row /\
            consensus (local_region_threshold (self w))
              (concat (repeat row 20)) = row)
    ind_arr /\
  _get_local_region X w = (with_queries (concat (repeat evs 20)) w, Ok ind_arr).
Proof.
  intros (_ & _ & _ & _ & Hit & Hth & _) Hseed Hout Hlen Hnd.
  assert (Hgrid : region_grid X w =
    (with_queries (concat (repeat evs 20)) w,
     Ok (List.map (fun row => concat (repeat row 20)) ind_arr))).
  { unfold region_grid, SEM.bind, get_self. simpl. rewrite Hit.
    rewrite <- Hlen, <- map_nil_repeat.
    destruct w as [self0 g q]. simpl in *.
    exact (seeded_passes Hseed Hout Hlen (range 20) 0 g q). }
  assert (Hrows : Forall (fun row =>
            Counter (concat (repeat row 20))
            = List.map (fun x => (x, 20%nat)) row /\
            consensus (local_region_threshold (self w))
              (concat (repeat row 20)) = row) ind_arr).
  { eapply Forall_impl; [|exact Hnd]. intros row Hrow. split.
    - apply Counter_repeated; [exact Hrow|lia].
    - apply consensus_repeated; [exact Hrow|lia|rewrite Hth; lia]. }
  split; [|split; [exact Hgrid|split; [exact Hrows|]]].
  - unfold pass_outcome in Hout.
    destruct (region_query X {| self := self w; np_random := [];
                                queries := [] |}) as [w1 r] eqn:Hq.
    simpl in Hout. inversion Hout; subst.
    now apply region_query_one in Hq.
  - unfold _get_local_region, SEM.bind. rewrite Hgrid.
    unfold get_self, SEM.lift.
    remember (List.map (fun row => concat (repeat row 20)) ind_arr) as grid
      eqn:Hg.
    simpl. f_equal. unfold range.
    replace (Z.to_nat (shape0 X)) with (length grid)
      by (subst grid; now rewrite length_map).
    rewrite (mapM_range_nth _ (consensus (local_region_threshold (self w)))).
    + f_equal. subst grid. rewrite map_map. rewrite <- (map_id ind_arr) at 2.
      apply map_ext_in. intros row Hrow.
      rewrite Forall_forall in Hrows. now apply Hrows.
    + intros j x Hj. unfold getitem. now rewrite Hj.
Qed.

End Seeded.

Lemma seeded_region_is_one_neighbour_set_witness :
  let w := Fixture.fitted_world 20 2 (RS_int 42) in
  let X := standardizer Fixture.X_test in
  let evs := [{| ev_features := [2; 1]%nat; ev_k := 2 |}] in
  _get_local_region X w
  = (with_queries (concat (repeat evs 20)) w, Ok [[0; 1]; [5; 3]]%nat).
Proof.
  apply (@seeded_region_is_one_neighbour_set _ _
           (standardizer Fixture.X_test)
           (Fixture.fitted_world 20 2 (RS_int 42)) 42
           [{| ev_features := [2; 1]%nat; ev_k := 2 |}]
           [[0; 1]; [5; 3]]%nat).
  - vm_compute. repeat split; reflexivity.
  - vm_compute. reflexivity.
  - vm_compute. reflexivity.
  - vm_compute. reflexivity.
  - repeat constructor; simpl; intuition discriminate.
Defined.

(** ** The competence selector *)

Section Top_n.

Import pyod_utils.

Lemma insert_length (x : nat) (s : list nat) :
  length (insert x s) = S (length s).
Proof.
  induction s as [|y s IH]; simpl; [reflexivity|].
  destruct (x <=? y)%nat; simpl; [reflexivity|now rewrite IH].
Qed.

Lemma sort_length (l : list nat) : length (sort l) = length l.
Proof.
  induction l as [|x l IH]; simpl; [reflexivity|].
  unfold sort in *. simpl. now rewrite insert_length, IH.
Qed.

Lemma insert_max (x : nat) (s : list nat) :
  list_max (insert x s) = Nat.max x (list_max s).
Proof.
  induction s as [|y s IH]; simpl; [reflexivity|].
  destruct (x <=? y)%nat; simpl; [reflexivity|]. rewrite IH. lia.
Qed.

Lemma sort_max (l : list nat) : list_max (sort l) = list_max l.
Proof.
  induction l as [|x l IH]; simpl; [reflexivity|].
  unfold sort in *. simpl. now rewrite insert_max, IH.
Qed.

Lemma insert_sorted (x : nat) (s : list nat) :
  Sorted le s -> Sorted le (insert x s).
Proof.
  induction 1 as [|y s Hs IH Hhd]; simpl; [repeat constructor|].
  destruct (Nat.leb_spec x y) as [Hxy|Hxy].
  - constructor; [now constructor|now constructor].
  - constructor; [exact IH|].
    destruct s as [|z s]; simpl.
    + constructor. lia.
    + inversion Hhd; subst.
      destruct (x <=? z)%nat; constructor; lia.
Qed.

Lemma sort_sorted (l : list nat) : Sorted le (sort l).
Proof.
  induction l as [|x l IH]; simpl; [constructor|].
  now apply insert_sorted.
Qed.

(** The last entry of a sorted list is its greatest. *)
Lemma sorted_last_max (s : list nat) :
  Sorted le s -> nth (length s - 1) s O = list_max s.
Proof.
  induction 1 as [|y s Hs IH Hhd]; [reflexivity|].
  destruct s as [|z s]; [simpl; lia|].
  replace (length (y :: z :: s) - 1)%nat with (S (length (z :: s) - 1))
    by (simpl; lia).
  change (nth (S (length (z :: s) - 1)) (y :: z :: s) O)
    with (nth (length (z :: s) - 1) (z :: s) O).
  rewrite IH. inversion Hhd; subst. simpl. lia.
Qed.

(** With [n = 1], [argmaxn] returns the positions of the greatest
    entries. *)
Lemma argmaxn_one (l : list nat) :
  l <> [] ->
  argmaxn l 1 =
  Ok (np.where_ (List.map (fun v => (list_max l <=? v)%nat) l) 0).
Proof.
  intros Hl. unfold argmaxn.
  assert (0 < length l)%nat by (destruct l; simpl; [congruence|lia]).
  destruct (Z.ltb_spec 1 1); [lia|].
  destruct (Z.ltb_spec (Z.of_nat (length l)) 1); [lia|]. simpl.
  replace (Z.to_nat (Z.of_nat (length l) - 1)) with (length (sort l) - 1)%nat
    by (rewrite sort_length; lia).
  now rewrite sorted_last_max, sort_max by apply sort_sorted.
Qed.

Lemma where_seq (f : nat -> bool) (len : nat) :
  forall i, np.where_ (List.map f (seq i len)) i = filter f (seq i len).
Proof.
  induction len as [|len IH]; simpl; intros i; [reflexivity|].
  rewrite IH. reflexivity.
Qed.

Lemma where_all (mask : list bool) :
  Forall (fun b => b = true) mask ->
  forall i, np.where_ mask i = seq i (length mask).
Proof.
  induction 1 as [|b mask Hb _ IH]; simpl; intros i; [reflexivity|].
  subst b. now rewrite IH.
Qed.

Lemma filter_only (f : nat -> bool) (b len : nat) :
  (b < len)%nat -> (forall j, f j = true <-> j = b) ->
  filter f (seq 0 len) = [b].
Proof.
  intros Hb Hf.
  replace len with (b + S (len - S b))%nat by lia.
  rewrite seq_app, filter_app. simpl.
  assert (Hnone : forall l, ~ In b l -> filter f l = []).
  { induction l as [|j l IH]; simpl; intros Hin; [reflexivity|].
    destruct (f j) eqn:Hj; [apply Hf in Hj; tauto|]. apply IH. tauto. }
  rewrite (Hnone (seq 0 b)) by (rewrite in_seq; lia).
  rewrite (Hnone (seq (S b) (len - S b))) by (rewrite in_seq; lia).
  simpl. now rewrite (proj2 (Hf b) eq_refl).
Qed.

End Top_n.

Section Equal_scores.

Context {E : Type}.

Lemma finite_all_equal (v : Q) (scores : list float64) :
  all_equal v scores ->
  exists qs, np.finite scores = Some qs /\ Forall (fun q => q == v) qs /\
             length qs = length scores.
Proof.
  induction 1 as [|x scores (q & -> & Hq) _ (qs & Hf & Hall & Hlen)]; simpl.
  - exists []. repeat split; constructor.
  - exists (q :: qs). rewrite Hf. simpl. repeat split; auto.
Qed.

Lemma fold_min_equal (v : Q) (l : vector) :
  Forall (fun q => q == v) l ->
  forall x, x == v -> fold_left Qmin l x == v.
Proof.
  induction 1 as [|q l Hq _ IH]; simpl; intros x Hx; [exact Hx|].
  apply IH. rewrite Hx, Hq. apply Q.min_id.
Qed.

Lemma fold_max_equal (v : Q) (l : vector) :
  Forall (fun q => q == v) l ->
  forall x, x == v -> fold_left Qmax l x == v.
Proof.
  induction 1 as [|q l Hq _ IH]; simpl; intros x Hx; [exact Hx|].
  apply IH. rewrite Hx, Hq. apply Q.max_id.
Qed.

(** The range of the histogram of equal scores is widened around them. *)
Lemma outer_edges_equal (v : Q) (qs : vector) :
  qs <> [] -> Forall (fun q => q == v) qs ->
  fst (np.outer_edges qs) == v - (1 # 2) /\
  snd (np.outer_edges qs) == v + (1 # 2).
Proof.
  intros Hne Hall. destruct qs as [|x qs]; [congruence|].
  inversion Hall as [|? ? Hx Hqs]; subst. unfold np.outer_edges.
  pose proof (fold_min_equal Hqs Hx) as Hmin.
  pose proof (fold_max_equal Hqs Hx) as Hmax.
  rewrite (Qeq_eq_bool (fold_left Qmin qs x) (fold_left Qmax qs x))
    by (now rewrite Hmin, Hmax).
  simpl. now rewrite Hmin, Hmax.
Qed.

(** All of them fall into the bin in the middle. *)
Lemma bin_index_equal (v first_edge last_edge : Q) (bins : Z) (q : Q) :
  (1 <= bins)%Z ->
  first_edge == v - (1 # 2) -> last_edge == v + (1 # 2) -> q == v ->
  np.bin_index first_edge last_edge bins q = Z.to_nat (bins / 2).
Proof.
  intros Hb Hlo Hhi Hq. unfold np.bin_index.
  assert (Hmid : (q - first_edge) * (inject_Z bins / (last_edge - first_edge))
                 == inject_Z bins / inject_Z 2).
  { rewrite Hq, Hlo, Hhi. field. lra. }
  rewrite (Qfloor_comp _ _ Hmid), <- Zdiv_Qdiv.
  destruct (Z.eqb_spec (bins / 2) bins) as [Heq|Hne]; [|reflexivity].
  pose proof (Z.div_lt bins 2 ltac:(lia) ltac:(lia)). lia.
Qed.

Lemma count_occ_constant (b n j : nat) :
  count_occ Nat.eq_dec (repeat b n) j = if (j =? b)%nat then n else O.
Proof.
  induction n as [|n IH]; simpl.
  - now destruct (j =? b)%nat.
  - rewrite IH. destruct (Nat.eq_dec b j) as [->|Hne].
    + now rewrite Nat.eqb_refl.
    + destruct (Nat.eqb_spec j b); [congruence|reflexivity].
Qed.

Lemma map_constant {A B} (f : A -> B) (b : B) (l : list A) :
  Forall (fun x => f x = b) l -> List.map f l = repeat b (length l).
Proof. induction 1; simpl; congruence. Qed.

(** The edges of the bin in the middle enclose the scores. *)
Lemma middle_bin_edges (v first_edge last_edge : Q) (bins : Z) :
  (1 <= bins)%Z ->
  first_edge == v - (1 # 2) -> last_edge == v + (1 # 2) ->
  np.bin_edge first_edge last_edge bins (Z.to_nat (bins / 2)) <= v /\
  v <= np.bin_edge first_edge last_edge bins (Z.to_nat (bins / 2) + 1).
Proof.
  intros Hb Hlo Hhi. unfold np.bin_edge.
  pose proof (Z.div_pos bins 2 ltac:(lia) ltac:(lia)) as Hpos.
  rewrite Nat2Z.inj_add, !Z2Nat.id by lia. simpl (Z.of_nat 1).
  assert (Hw : (last_edge - first_edge) / inject_Z bins == 1 / inject_Z bins).
  { rewrite Hlo, Hhi. field. unfold Qeq. simpl. lia. }
  rewrite Hw, Hlo.
  assert (Hbins : 0 < inject_Z bins) by (unfold Qlt; simpl; lia).
  assert (Hhalf : inject_Z (bins / 2) * (1 / inject_Z bins) <= 1 # 2).
  { unfold Qdiv. rewrite Qmult_1_l.
    apply Qle_shift_div_r; [exact Hbins|].
    pose proof (Z.mul_div_le bins 2 ltac:(lia)).
    unfold Qle, Qmult, inject_Z. cbn [Qnum Qden]. lia. }
  assert (Hnext : (1 # 2) <= inject_Z (bins / 2 + 1) * (1 / inject_Z bins)).
  { unfold Qdiv. rewrite Qmult_1_l.
    apply Qle_shift_div_l; [exact Hbins|].
    pose proof (Z.mod_pos_bound bins 2 ltac:(lia)).
    pose proof (Z.div_mod bins 2 ltac:(lia)).
    unfold Qle, Qmult, inject_Z. cbn [Qnum Qden]. lia. }
  split; lra.
Qed.

(** The histogram of [n] equal scores: [n] in the bin in the middle,
    nothing elsewhere. *)
Lemma histogram_equal (v : Q) (scores : list float64) (bins : Z) :
  (1 <= bins)%Z -> scores <> [] -> all_equal v scores ->
  exists first_edge last_edge,
    first_edge == v - (1 # 2) /\ last_edge == v + (1 # 2) /\
    np.histogram scores bins =
    Ok (List.map (fun j => if (j =? Z.to_nat (bins / 2))%nat
                           then length scores else O) (range bins),
        List.map (np.bin_edge first_edge last_edge bins) (range (bins + 1))).
Proof.
  intros Hb Hne Hall.
  destruct (finite_all_equal Hall) as (qs & Hfin & Hqs & Hlen).
  assert (Hqne : qs <> []) by (destruct qs, scores; simpl in *; congruence).
  destruct (outer_edges_equal Hqne Hqs) as [Hlo Hhi].
  unfold np.histogram. destruct (Z.ltb_spec bins 1); [lia|].
  rewrite Hfin.
  destruct (np.outer_edges qs) as [first_edge last_edge]. simpl in Hlo, Hhi.
  exists first_edge, last_edge. split; [exact Hlo|]. split; [exact Hhi|].
  rewrite (@map_constant _ _ (np.bin_index first_edge last_edge bins)
             (Z.to_nat (bins / 2)) qs).
  - rewrite Hlen. do 2 f_equal. apply map_ext. intros j.
    apply count_occ_constant.
  - eapply Forall_impl; [|exact Hqs]. intros q Hq.
    now apply bin_index_equal with (v := v).
Qed.

(** On equal scores the only bin that is not empty is the one in the
    middle, and its edges select every score. *)
Lemma selector_on_equal_scores (self : LSCP E) (v : Q)
    (scores : list float64) (row : vector) :
  n_selected self = 1%Z -> (1 <= n_bins self)%Z ->
  Z.of_nat (length scores) = n_clf self -> (1 <= n_clf self)%Z ->
  all_equal v scores ->
  length row = length scores ->
  _get_competent_detectors self scores = Ok (range (n_clf self)) /\
  length (range (n_clf self)) = length scores /\
  Res.map np.mean (take row (range (n_clf self))) = Ok (np.mean row).
Proof.
  intros Hsel Hbins Hclf Hpos Hall Hrow.
  assert (Hne : scores <> []) by (destruct scores; simpl in *; [lia|congruence]).
  assert (Hrange : range (n_clf self) = seq 0 (length scores))
    by (unfold range; rewrite <- Hclf, Nat2Z.id; reflexivity).
  destruct (histogram_equal Hbins Hne Hall)
    as (first_edge & last_edge & Hlo & Hhi & Hhist).
  pose proof (Z.div_pos (n_bins self) 2 ltac:(lia) ltac:(lia)) as Hmid.
  pose proof (Z.div_lt (n_bins self) 2 ltac:(lia) ltac:(lia)) as Hlt.
  set (b := Z.to_nat (n_bins self / 2)) in *.
  split; [|split].
  - unfold _get_competent_detectors. rewrite Hhist, Hsel. simpl Res.bind.
    set (hist := List.map (fun j => if (j =? b)%nat then length scores else O)
                   (range (n_bins self))).
    assert (Hmax : list_max hist = length scores).
    { apply Nat.le_antisymm.
      - apply list_max_le. apply Forall_forall. intros n Hn.
        apply in_map_iff in Hn. destruct Hn as (j & <- & _).
        destruct (j =? b)%nat; lia.
      - assert (Hin : In (length scores) hist).
        { apply in_map_iff. exists b. rewrite Nat.eqb_refl.
          split; [reflexivity|]. apply range_In. subst b. lia. }
        pose proof (proj1 (list_max_le hist (list_max hist)) (le_n _)) as Hle.
        rewrite Forall_forall in Hle. now apply Hle. }
    rewrite argmaxn_one
      by (unfold hist, range; destruct (Z.to_nat (n_bins self)) eqn:Hz;
          [lia|discriminate]).
    rewrite Hmax. unfold hist, range. rewrite map_map, where_seq.
    rewrite (@filter_only _ b).
    + simpl. unfold getitem.
      rewrite !nth_error_map. unfold range. rewrite !nth_error_seq.
      destruct (Nat.ltb_spec b (Z.to_nat (n_bins self + 1))); [|subst b; lia].
      destruct (Nat.ltb_spec (b + 1) (Z.to_nat (n_bins self + 1)));
        [|subst b; lia].
      simpl. f_equal. unfold range in Hrange. rewrite Hrange.
      unfold between.
      rewrite where_all; [now rewrite length_map|].
      apply Forall_map. eapply Forall_impl; [|exact Hall].
      intros x (q & -> & Hq). simpl.
      destruct (middle_bin_edges Hbins Hlo Hhi) as [Hle Hge].
      fold b in Hle, Hge.
      apply andb_true_intro. split; apply Qle_bool_iff; rewrite Hq;
        assumption.
    + subst b. lia.
    + intros j. destruct (Nat.eqb_spec j b) as [->|Hj].
      * rewrite Nat.leb_refl. tauto.
      * split; [|congruence]. intros Hle. apply Nat.leb_le in Hle.
        destruct scores; simpl in *; [congruence|lia].
  - rewrite Hrange. apply length_seq.
  - rewrite Hrange, <- Hrow. unfold take.
    rewrite (mapM_range_nth row (fun x => x)).
    + simpl. now rewrite map_id.
    + intros j x Hj. unfold getitem. now rewrite Hj.
Qed.

Lemma local_competence_length (n : Z) (label : vector) (tsn : matrix)
    (ind_k : list nat) (corr : list float64) :
  local_competence n label tsn ind_k = Ok corr ->
  length corr = Z.to_nat n.
Proof.
  unfold local_competence.
  destruct (take label ind_k); [|discriminate].
  destruct (take tsn ind_k); [|discriminate]. simpl.
  intros H. apply mapM_length in H. now rewrite range_length in H.
Qed.

(** C8. On every correlation vector whose entries are all equal, the
    competence selector returns every detector; and a test row whose
    correlation vector is such gets as its score the mean of its
    standardized test scores over all the detectors. *)
Theorem equal_competence_selects_all (w : world E) (v : Q)
    (label : vector) (tsn test_scores_norm : matrix) (ind_k : list nat)
    (corr : list float64) (i : nat) (row : vector) :
  n_selected (self w) = 1%Z -> (1 <= n_bins (self w))%Z ->
  (1 <= n_clf (self w))%Z ->
  training_pseudo_label_ (attrs (self w)) = Some label ->
  train_scores_norm_ (attrs (self w)) = Some tsn ->
  local_competence (n_clf (self w)) label tsn ind_k = Ok corr ->
  all_equal v corr ->
  getitem test_scores_norm i = Ok row ->
  length row = Z.to_nat (n_clf (self w)) ->
  (forall scores v',
      Z.of_nat (length scores) = n_clf (self w) -> all_equal v' scores ->
      _get_competent_detectors (self w) scores = Ok (range (n_clf (self w)))
      /\ length (range (n_clf (self w))) = Z.to_nat (n_clf (self w))) /\
  row_score test_scores_norm i ind_k w = (w, Ok (np.mean row)).
Proof.
  intros Hsel Hbins Hclf Hlabel Htsn Hcorr Hall Hrow Hlen. split.
  - intros scores v' Hn Hall'. split; [|apply range_length].
    assert (Hl : length (repeat 0 (length scores)) = length scores)
      by apply repeat_length.
    exact (proj1 (@selector_on_equal_scores (self w) v' scores
                    (repeat 0 (length scores)) Hsel Hbins Hn Hclf Hall' Hl)).
  - pose proof (local_competence_length _ _ _ _ Hcorr) as Hn.
    assert (Hn' : Z.of_nat (length corr) = n_clf (self w)) by lia.
    assert (Hl : length row = length corr) by lia.
    destruct (@selector_on_equal_scores (self w) v corr row Hsel Hbins Hn'
                Hclf Hall Hl) as (Hselect & _ & Hmean).
    unfold row_score, SEM.bind, get_self, attr, SEM.bind, get_self, SEM.lift.
    simpl. rewrite Hlabel. simpl. rewrite Htsn. simpl. rewrite Hcorr. simpl.
    rewrite Hselect. simpl. rewrite Hrow. simpl.
    unfold Res.map, Res.bind in Hmean.
    destruct (take row (range (n_clf (self w)))) as [selected|e];
      [|discriminate].
    simpl. unfold SEM.ret. now inversion Hmean.
Qed.

End Equal_scores.

(** ** Degenerate correlations *)

Section Degenerate.

Lemma Qsum_constant (c : Q) (l : vector) :
  Forall (fun q => q == c) l -> Qsum l == Qlen l * c.
Proof.
  unfold Qlen. induction 1 as [|q l Hq _ IH].
  - simpl. ring.
  - change (Qsum (q :: l)) with (Qred (q + Qsum l)).
    change (length (q :: l)) with (S (length l)).
    rewrite Qred_correct, IH, Hq.
    rewrite Nat2Z.inj_succ, <- Z.add_1_l, inject_Z_plus. ring.
Qed.

Lemma Qlen_pos (l : vector) : l <> [] -> 0 < Qlen l.
Proof.
  destruct l; [congruence|]. intros _. unfold Qlen, Qlt. simpl. lia.
Qed.

(** The mean of a constant vector is its constant. *)
Lemma mean_constant (c : Q) (l : vector) :
  l <> [] -> Forall (fun q => q == c) l ->
  exists m, np.mean l = Fin m /\ m == c.
Proof.
  intros Hne Hall. destruct l as [|x l]; [congruence|].
  exists (Qsum (x :: l) / Qlen (x :: l)). split; [reflexivity|].
  rewrite (Qsum_constant Hall). field.
  pose proof (Qlen_pos Hne). lra.
Qed.

Lemma sum_of_squares_centered (c m : Q) (l : vector) :
  Forall (fun q => q == c) l -> m == c ->
  scipy.sum_of_squares (List.map (fun v => v - m) l) == 0.
Proof.
  intros Hall Hm. unfold scipy.sum_of_squares.
  rewrite (@Qsum_constant 0).
  - ring.
  - rewrite map_map. apply Forall_map.
    eapply Forall_impl; [|exact Hall]. intros q Hq. simpl.
    rewrite Hq, Hm. ring.
Qed.

Lemma Qsqrt_zero (q : Q) : q == 0 -> Qeq_bool (Qsqrt q) 0 = true.
Proof.
  intros Hq. apply Qeq_eq_bool.
  assert (Hnum : Qnum q = 0%Z)
    by (unfold Qeq in Hq; simpl in Hq; lia).
  unfold Qsqrt. rewrite Hnum. reflexivity.
Qed.

(** The correlation with a vector without variance is undefined. *)
Lemma pearsonr_constant (x y : vector) :
  constant x \/ constant y -> scipy.pearsonr x y = NaN.
Proof.
  intros H. unfold scipy.pearsonr.
  destruct x as [|x0 x]; [reflexivity|].
  destruct y as [|y0 y]; [reflexivity|].
  destruct (np.mean (x0 :: x)) as [mx|] eqn:Hmx; [|reflexivity].
  destruct (np.mean (y0 :: y)) as [my|] eqn:Hmy; [|reflexivity].
  rewrite Qsqrt_zero; [reflexivity|].
  destruct H as [[c Hc]|[c Hc]].
  - destruct (@mean_constant c (x0 :: x)) as (m & Hm & Hmc);
      [discriminate|exact Hc|].
    rewrite Hmx in Hm. inversion Hm; subst m.
    rewrite (sum_of_squares_centered Hc Hmc). ring.
  - destruct (@mean_constant c (y0 :: y)) as (m & Hm & Hmc);
      [discriminate|exact Hc|].
    rewrite Hmy in Hm. inversion Hm; subst m.
    rewrite (sum_of_squares_centered Hc Hmc). ring.
Qed.

(** Fewer than two points have no variance. *)
Lemma short_constant (l : vector) : (length l < 2)%nat -> constant l.
Proof.
  destruct l as [|x [|y l]]; simpl; intros H; [| |lia].
  - exists 0. constructor.
  - exists x. repeat constructor.
Qed.

(** The histogram refuses a vector that holds a [nan]. *)
Lemma histogram_nan (scores : list float64) (bins : Z) :
  In NaN scores -> np.histogram scores bins = Raise ValueError.
Proof.
  intros Hin. unfold np.histogram.
  destruct (bins <? 1)%Z; [reflexivity|].
  assert (Hf : np.finite scores = None).
  { induction scores as [|[q|] scores IH]; simpl in *; [tauto| |reflexivity].
    destruct Hin as [Hq|Hin]; [discriminate|]. now rewrite IH. }
  now rewrite Hf.
Qed.

End Degenerate.

(** ** Degenerate regions and correlations in [decision_function] *)

Lemma for_each_ok_all {S A B} (body : B -> A -> SE S B) (l : list A) :
  (forall acc x s, fst (body acc x s) = s) ->
  forall acc s s' r,
    SEM.for_each l body acc s = (s', Ok r) ->
    Forall (fun x => exists acc', is_ok (snd (body acc' x s)) = true) l.
Proof.
  intros Hstore. induction l as [|x l IH]; simpl; intros acc s s' r H;
    [constructor|].
  unfold SEM.bind in H. pose proof (Hstore acc x s) as Hs.
  destruct (body acc x s) as [s1 [acc1|e]] eqn:Hb; [|discriminate].
  simpl in Hs. subst s1. constructor.
  - exists acc. now rewrite Hb.
  - eapply IH. exact H.
Qed.

Lemma mapM_nth {A B} (f : A -> result B) (l : list A) (r : list B) :
  Res.mapM f l = Ok r ->
  forall d x, nth_error l d = Some x ->
    exists y, f x = Ok y /\ nth_error r d = Some y.
Proof.
  revert r. induction l as [|a l IH]; simpl; intros r H d x Hd.
  - destruct d; discriminate.
  - destruct (f a) as [b|e] eqn:Ha; [|discriminate]. simpl in H.
    unfold Res.map in H.
    destruct (Res.mapM f l) as [bs|e]; [|discriminate]. simpl in H.
    inversion H; subst. destruct d as [|d]; simpl in *.
    + inversion Hd; subst. now exists b.
    + now apply IH.
Qed.

Lemma mapM_all {A B} (f : A -> result B) (l : list A) (r : list B) (b : B) :
  Res.mapM f l = Ok r -> (forall x y, f x = Ok y -> y = b) ->
  r = repeat b (length l).
Proof.
  revert r. induction l as [|a l IH]; simpl; intros r H Hb.
  - now inversion H.
  - destruct (f a) as [y|e] eqn:Ha; [|discriminate]. simpl in H.
    unfold Res.map in H.
    destruct (Res.mapM f l) as [ys|e]; [|discriminate]. simpl in H.
    inversion H; subst. rewrite (Hb a y Ha). f_equal. now apply IH.
Qed.

Section Rows.

Context {E : Type} {D : Detector E} {B : Backend}.

(** The selector raises on a correlation vector that holds a [nan]. *)
Lemma selector_nan (self : LSCP E) (scores : list float64) :
  In NaN scores -> _get_competent_detectors self scores = Raise ValueError.
Proof.
  intros H. unfold _get_competent_detectors.
  now rewrite (histogram_nan scores (n_bins self) H).
Qed.

(** The competence of a detector is the correlation of its local scores
    with the local pseudo ground truth, as [pearsonr] returns it. *)
Lemma local_competence_entry (n : Z) (label : vector) (tsn : matrix)
    (ind_k : list nat) (corr : list float64) (d : nat) :
  local_competence n label tsn ind_k = Ok corr -> (d < Z.to_nat n)%nat ->
  exists truth local col,
    take label ind_k = Ok truth /\ take tsn ind_k = Ok local /\
    column local d = Ok col /\
    nth_error corr d = Some (scipy.pearsonr truth col).
Proof.
  unfold local_competence. intros H Hd.
  destruct (take label ind_k) as [truth|e]; [|discriminate].
  destruct (take tsn ind_k) as [local|e]; [|discriminate]. simpl in H.
  destruct (@mapM_nth _ _ _ _ _ H d d) as (y & Hy & Hnth).
  - unfold range. rewrite nth_error_seq.
    destruct (Nat.ltb_spec d (Z.to_nat n)); [reflexivity|lia].
  - exists truth, local. unfold Res.map, Res.bind in Hy.
    destruct (column local d) as [col|e]; [|discriminate].
    exists col. inversion Hy; subst. auto.
Qed.

(** On a region of fewer than two rows every competence is undefined. *)
Lemma local_competence_short (n : Z) (label : vector) (tsn : matrix)
    (ind_k : list nat) (corr : list float64) :
  (length ind_k < 2)%nat ->
  local_competence n label tsn ind_k = Ok corr ->
  corr = repeat NaN (Z.to_nat n).
Proof.
  unfold local_competence. intros Hlen H.
  destruct (take label ind_k) as [truth|e] eqn:Ht; [|discriminate].
  destruct (take tsn ind_k) as [local|e]; [|discriminate]. simpl in H.
  apply mapM_length in Ht.
  rewrite <- range_length. apply (mapM_all _ _ H).
  intros d y Hy. unfold Res.map, Res.bind in Hy.
  destruct (column local d) as [col|e]; [|discriminate].
  inversion Hy; subst. apply pearsonr_constant. left.
  apply short_constant. lia.
Qed.

Lemma row_score_ok (T : matrix) (i : nat) (ind_k : list nat) (w : world E) :
  is_ok (snd (row_score T i ind_k w)) = true ->
  exists label tsn corr,
    training_pseudo_label_ (attrs (self w)) = Some label /\
    train_scores_norm_ (attrs (self w)) = Some tsn /\
    local_competence (n_clf (self w)) label tsn ind_k = Ok corr /\
    is_ok (_get_competent_detectors (self w) corr) = true.
Proof.
  unfold row_score, SEM.bind, get_self, attr, SEM.bind, get_self, SEM.lift.
  simpl.
  destruct (training_pseudo_label_ (attrs (self w))) as [label|]; simpl;
    [|discriminate].
  destruct (train_scores_norm_ (attrs (self w))) as [tsn|]; simpl;
    [|discriminate].
  destruct (local_competence _ _ _ _) as [corr|e] eqn:Hc; simpl;
    [|discriminate].
  destruct (_get_competent_detectors _ _) as [candidates|e] eqn:Hs; simpl;
    [|discriminate].
  intros _. exists label, tsn, corr. rewrite Hs. auto.
Qed.

(** A call of [decision_function] that returns has scored every local
    region. *)
Lemma decision_function_rows (X : matrix) (w w' : world E)
    (scores : list float64) :
  decision_function X w = (w', Ok scores) ->
  exists regions,
    _get_local_region (standardizer X) (region_size_set w) = (w', Ok regions)
    /\ Forall (fun ind_k =>
                 exists T i, is_ok (snd (row_score T i ind_k w')) = true)
         regions.
Proof.
  unfold decision_function, SEM.bind at 1.
  unfold check_is_fitted, SEM.bind at 1. unfold get_self at 1. simpl.
  destruct (training_pseudo_label_ (attrs (self w))); [|discriminate].
  destruct (train_scores_norm_ (attrs (self w))); [|discriminate].
  destruct (X_train_norm_ (attrs (self w))); [|discriminate].
  destruct (n_features_ (attrs (self w))) as [n|] eqn:Hn; [|discriminate].
  simpl. unfold SEM.bind at 1. unfold SEM.lift at 1.
  destruct (sklearn.check_array X) as [X'|e] eqn:HX; [|discriminate].
  apply check_array_same in HX. subst X'.
  unfold SEM.bind at 1. unfold attr, SEM.bind at 1, get_self at 1.
  rewrite Hn. simpl.
  destruct (negb (n =? shape1 X)%Z); [discriminate|].
  unfold SEM.bind at 1. unfold update_self at 1, SEM.modify at 1.
  unfold SEM.bind at 1. unfold update_self at 1, SEM.modify at 1. simpl.
  unfold SEM.bind at 1.
  match goal with
  | |- context [_get_local_region (standardizer X) ?w0] =>
      change w0 with (region_size_set w)
  end.
  destruct (_get_local_region (standardizer X) (region_size_set w))
    as [w1 [regions|e]]; [|discriminate].
  unfold SEM.bind at 1.
  pose proof (predict_all_store (standardizer X) w1) as Hp.
  destruct (predict_all (standardizer X) w1) as [w2 [test_scores|e]];
    simpl in Hp; subst w2; [|discriminate].
  intros H.
  assert (Hstore : forall (acc : list float64) (x : nat * list nat)
                          (s : world E),
    fst ((score <- row_score (standardizer test_scores) (fst x) (snd x) ;;
          SEM.ret (acc ++ [score]))%se s) = s).
  { intros acc x s. unfold SEM.bind.
    pose proof (row_score_store (standardizer test_scores) (fst x) (snd x) s)
      as Hrow.
    destruct (row_score _ _ _ s) as [s' [score|e]]; simpl in *; now subst. }
  match type of H with
  | SEM.for_each ?l ?body ?acc0 ?s0 = _ =>
      pose proof (for_each_store (fun s' => s' = w1) body l
                    (fun a x s Hs => eq_trans (Hstore a x s) Hs) acc0 s0
                    eq_refl) as Hw
  end.
  rewrite H in Hw. simpl in Hw. subst w'.
  exists regions. split; [reflexivity|].
  apply for_each_ok_all in H; [|exact Hstore].
  apply Forall_forall. intros ind_k Hin.
  destruct (In_nth_error _ _ Hin) as [i Hi].
  assert (Hik : In (i, ind_k) (enumerate regions)).
  { unfold enumerate. apply nth_error_In with (n := i).
    pose proof (nth_error_Some regions i) as Hlt.
    rewrite Hi in Hlt.
    assert (i < length regions)%nat by (apply Hlt; discriminate).
    erewrite nth_error_nth' with (d := (O, []));
      [|rewrite length_combine, length_seq; lia].
    rewrite combine_nth by apply length_seq.
    rewrite seq_nth by lia. simpl.
    now rewrite (nth_error_nth _ _ _ Hi). }
  rewrite Forall_forall in H. destruct (H _ Hik) as [acc Hok].
  exists (standardizer test_scores), i. simpl in Hok. unfold SEM.bind in Hok.
  destruct (row_score (standardizer test_scores) i ind_k w1)
    as [s' [score|e]]; [reflexivity|discriminate].
Qed.

(** A local region on which the competence vector holds a [nan] makes
    the whole call raise. *)
Lemma nan_region_aborts (X : matrix) (w : world E) (bad : list nat -> Prop)
    (regions : list (list nat)) :
  (forall ind_k label tsn corr,
      bad ind_k ->
      training_pseudo_label_ (attrs (self w)) = Some label ->
      train_scores_norm_ (attrs (self w)) = Some tsn ->
      local_competence (n_clf (self w)) label tsn ind_k = Ok corr ->
      In NaN corr) ->
  snd (_get_local_region (standardizer X) (region_size_set w)) = Ok regions ->
  Exists bad regions ->
  is_ok (snd (decision_function X w)) = false.
Proof.
  intros Hbad Hregions Hex.
  destruct (decision_function X w) as [w' [scores|e]] eqn:Hrun;
    [|reflexivity].
  exfalso. apply decision_function_rows in Hrun.
  destruct Hrun as (regions' & Hrun & Hrows).
  pose proof (get_local_region_after (standardizer X) (region_size_set w))
    as (rs' & g' & new & Hw & _ & _).
  rewrite Hrun in Hregions, Hw. simpl in Hregions, Hw.
  inversion Hregions; subst regions'.
  apply Exists_exists in Hex. destruct Hex as (ind_k & Hin & Hk).
  rewrite Forall_forall in Hrows. destruct (Hrows _ Hin) as (T & i & Hok).
  apply row_score_ok in Hok.
  destruct Hok as (label & tsn & corr & Hl & Ht & Hc & Hsel).
  rewrite Hw in Hl, Ht, Hc. simpl in Hl, Ht, Hc.
  rewrite (selector_nan (self w') corr (Hbad _ _ _ _ Hk Hl Ht Hc)) in Hsel.
  discriminate.
Qed.

(** C2 (as amended). A local region that is empty or has fewer than two
    rows gets no fallback: its competence vector is [nan] for every
    detector, not zero; the competence selector raises [ValueError] on it,
    and so does the whole call of [decision_function]. *)
Theorem small_region_is_not_absorbed (X : matrix) (w : world E) :
  (1 <= n_clf (self w))%Z ->
  (forall label tsn ind_k corr,
      (length ind_k < 2)%nat ->
      local_competence (n_clf (self w)) label tsn ind_k = Ok corr ->
      corr = repeat NaN (Z.to_nat (n_clf (self w))) /\
      _get_competent_detectors (self w) corr = Raise ValueError) /\
  (forall regions,
      snd (_get_local_region (standardizer X) (region_size_set w))
      = Ok regions ->
      Exists (fun ind_k => (length ind_k < 2)%nat) regions ->
      is_ok (snd (decision_function X w)) = false).
Proof.
  intros Hclf.
  assert (Hnan : forall label tsn ind_k corr,
      (length ind_k < 2)%nat ->
      local_competence (n_clf (self w)) label tsn ind_k = Ok corr ->
      corr = repeat NaN (Z.to_nat (n_clf (self w))) /\ In NaN corr).
  { intros label tsn ind_k corr Hlen Hc.
    apply local_competence_short in Hc; [|exact Hlen]. split; [exact Hc|].
    subst corr. destruct (Z.to_nat (n_clf (self w))) eqn:Hn; [lia|].
    now left. }
  split.
  - intros label tsn ind_k corr Hlen Hc.
    destruct (Hnan _ _ _ _ Hlen Hc) as [Hcorr Hin].
    split; [exact Hcorr|now apply selector_nan].
  - intros regions Hregions Hex.
    eapply nan_region_aborts; [|exact Hregions|exact Hex].
    intros ind_k label tsn corr Hlen _ _ Hc.
    now destruct (Hnan _ _ _ _ Hlen Hc).
Qed.

(** C6 (as amended). When the local training scores of a detector, or
    the local pseudo ground truth, have no variance within the local region
    of a test row, the competence of that detector is [nan], not zero; the
    [nan] is handed to the histogram of the competence selector, which
    raises [ValueError], and so does the whole call of
    [decision_function]. *)
Theorem zero_variance_is_not_absorbed (X : matrix) (w : world E) :
  (forall label tsn ind_k corr d truth local col,
      local_competence (n_clf (self w)) label tsn ind_k = Ok corr ->
      (d < Z.to_nat (n_clf (self w)))%nat ->
      take label ind_k = Ok truth -> take tsn ind_k = Ok local ->
      column local d = Ok col ->
      constant truth \/ constant col ->
      nth_error corr d = Some NaN /\
      np.histogram corr (n_bins (self w)) = Raise ValueError /\
      _get_competent_detectors (self w) corr = Raise ValueError) /\
  (forall label tsn regions,
      training_pseudo_label_ (attrs (self w)) = Some label ->
      train_scores_norm_ (attrs (self w)) = Some tsn ->
      snd (_get_local_region (standardizer X) (region_size_set w))
      = Ok regions ->
      Exists (fun ind_k =>
                exists d truth local col,
                  (d < Z.to_nat (n_clf (self w)))%nat /\
                  take label ind_k = Ok truth /\
                  take tsn ind_k = Ok local /\
                  column local d = Ok col /\
                  (constant truth \/ constant col)) regions ->
      is_ok (snd (decision_function X w)) = false).
Proof.
  assert (Hnan : forall label tsn ind_k corr d truth local col,
      local_competence (n_clf (self w)) label tsn ind_k = Ok corr ->
      (d < Z.to_nat (n_clf (self w)))%nat ->
      take label ind_k = Ok truth -> take tsn ind_k = Ok local ->
      column local d = Ok col ->
      constant truth \/ constant col ->
      nth_error corr d = Some NaN).
  { intros label tsn ind_k corr d truth local col Hc Hd Ht Hl Hcol Hconst.
    destruct (local_competence_entry _ _ _ _ Hc Hd)
      as (truth' & local' & col' & Ht' & Hl' & Hcol' & Hnth).
    rewrite Ht in Ht'. inversion Ht'; subst truth'.
    rewrite Hl in Hl'. inversion Hl'; subst local'.
    rewrite Hcol in Hcol'. inversion Hcol'; subst col'.
    now rewrite (pearsonr_constant Hconst) in Hnth. }
  split.
  - intros label tsn ind_k corr d truth local col Hc Hd Ht Hl Hcol Hconst.
    pose proof (Hnan _ _ _ _ _ _ _ _ Hc Hd Ht Hl Hcol Hconst) as Hnth.
    apply nth_error_In in Hnth as Hin.
    split; [exact Hnth|]. split; [now apply histogram_nan|].
    now apply selector_nan.
  - intros label tsn regions Hlabel Htsn Hregions Hex.
    eapply nan_region_aborts; [|exact Hregions|exact Hex].
    intros ind_k label' tsn' corr (d & truth & local & col & Hd & Ht & Hl
                                  & Hcol & Hconst) Hlabel' Htsn' Hc.
    rewrite Hlabel in Hlabel'. inversion Hlabel'; subst label'.
    rewrite Htsn in Htsn'. inversion Htsn'; subst tsn'.
    eapply nth_error_In. eapply Hnan; eauto.
Qed.

End Rows.

(** ** Degenerate inputs, run *)

Lemma small_region_is_not_absorbed_witness :
  is_ok (snd (decision_function Fixture.X_probe Fixture.split_world)) = false.
Proof.
  apply (proj2 (@small_region_is_not_absorbed _ _ _ Fixture.X_probe
                  Fixture.split_world ltac:(vm_compute; discriminate))
           [[]; []]).
  - vm_compute. reflexivity.
  - constructor. simpl. lia.
Defined.

(** C2 as stated fails: the local regions of both test rows are empty,
    the competence vector of an empty region is [nan] throughout and not
    zero, and the call raises. *)
Lemma empty_region_aborts_the_batch :
  let w := Fixture.split_world in
  snd (_get_local_region (standardizer Fixture.X_probe) (region_size_set w))
  = Ok [[]; []] /\
  local_competence (n_clf (self w))
    (match training_pseudo_label_ (attrs (self w)) with
     | Some label => label
     | None => []
     end)
    (match train_scores_norm_ (attrs (self w)) with
     | Some tsn => tsn
     | None => []
     end) []
  = Ok [NaN; NaN; NaN] /\
  snd (decision_function Fixture.X_probe w) = Raise ValueError.
Proof. vm_compute. repeat split; reflexivity. Qed.

(** C6 as stated fails: the scores of the third detector are constant,
    its competence on the local region of the first test row is [nan] and
    not zero, and the call raises in the histogram. *)
Lemma constant_scores_reach_the_histogram :
  let w := Fixture.flat_world in
  let regions :=
    snd (_get_local_region (standardizer Fixture.X_probe)
           (region_size_set w)) in
  match regions, training_pseudo_label_ (attrs (self w)),
        train_scores_norm_ (attrs (self w)) with
  | Ok (ind_k :: _), Some label, Some tsn =>
      Res.map (List.map is_nan) (local_competence 3 label tsn ind_k)
      = Ok [false; false; true]
  | _, _, _ => False
  end /\
  snd (decision_function Fixture.X_probe w) = Raise ValueError.
Proof. vm_compute. split; reflexivity. Qed.

Lemma equal_competence_selects_all_witness :
  let w := Fixture.twin_world in
  let ind_k :=
    match snd (_get_local_region (standardizer Fixture.X_probe)
                 (region_size_set w)) with
    | Ok (ind_k :: _) => ind_k
    | _ => []
    end in
  _get_competent_detectors (self w) [Fin 1; Fin 1] = Ok [0; 1]%nat /\
  row_score [[1; 1]; [- (1); - (1)]] 0 ind_k w = (w, Ok (np.mean [1; 1])).
Proof.
  intros w ind_k.
  pose proof (@equal_competence_selects_all _ w 1
    (match training_pseudo_label_ (attrs (self w)) with
     | Some label => label
     | None => []
     end)
    (match train_scores_norm_ (attrs (self w)) with
     | Some tsn => tsn
     | None => []
     end)
    [[1; 1]; [- (1); - (1)]] ind_k
    [Fin (450359962737049600 # 450359962737049600);
     Fin (450359962737049600 # 450359962737049600)]
    0 [1; 1]) as H.
  assert (Hall : forall a, all_equal 1 [Fin a; Fin a] <-> a == 1).
  { intros a. split.
    - intros Ha. inversion Ha as [|? ? (q & Hq & Hq1) _]; subst.
      inversion Hq; subst. exact Hq1.
    - intros Ha. repeat constructor; exists a; split; auto. }
  destruct H as [Hsel Hrow].
  - vm_compute. reflexivity.
  - vm_compute. discriminate.
  - vm_compute. discriminate.
  - vm_compute. reflexivity.
  - vm_compute. reflexivity.
  - vm_compute. reflexivity.
  - apply Hall. reflexivity.
  - reflexivity.
  - reflexivity.
  - split; [|exact Hrow].
    apply (Hsel [Fin 1; Fin 1] 1); [reflexivity|]. apply Hall. reflexivity.
Defined.

(** * Further properties of the code *)

(** ** The constructor and the access to the detectors *)

Section More_constructor.

Context {E : Type} {D : Detector E}.

(** X1. An object that [__init__] returns holds the smaller of the
    configured [n_bins] and the number of detectors; the warning is issued
    exactly when [n_bins >= n_clf], hence also when both are equal and
    nothing is reduced. *)
Theorem init_n_bins_is_min (estimators : list E) (n_iter size : Z)
    (max_features : Q) (bins : Z) (rs : random_state_t) (ws : list string)
    (self : LSCP E) :
  snd (__init__ estimators n_iter size max_features bins rs ws) = Ok self ->
  n_bins self = Z.min bins (Z.of_nat (length estimators)) /\
  (n_bins self <= n_clf self)%Z /\
  (2 <= n_clf self)%Z /\
  ((Z.of_nat (length estimators) <= bins)%Z ->
   fst (__init__ estimators n_iter size max_features bins rs ws)
   = ws ++ [n_bins_warning]) /\
  ((bins < Z.of_nat (length estimators))%Z ->
   fst (__init__ estimators n_iter size max_features bins rs ws) = ws).
Proof.
  rewrite init_cases.
  destruct (Z.leb_spec (Z.of_nat (length estimators)) 1) as [H1|H1];
    [discriminate|]. simpl.
  destruct (Res.mapM check_estimator estimators); [|discriminate].
  intros H. inversion H; subst self.
  destruct (Z.geb_spec bins (Z.of_nat (length estimators))) as [Hb|Hb];
    simpl; repeat split; intros; try lia; reflexivity.
Qed.

(** X2. The object [__init__] returns answers [len] with its [n_clf];
    indexing it over [range(len(self))] gives the detectors in the order of
    [iter], the index [-1] gives the last detector, and the index
    [len(self)] raises [IndexError]. *)
Theorem init_len_getitem_iter (estimators : list E) (n_iter size : Z)
    (max_features : Q) (bins : Z) (rs : random_state_t) (ws : list string)
    (self : LSCP E) :
  snd (__init__ estimators n_iter size max_features bins rs ws) = Ok self ->
  __len__ self = n_clf self /\
  __iter__ self = estimators /\
  Res.mapM (fun i => __getitem__ self (Z.of_nat i)) (range (__len__ self))
  = Ok (__iter__ self) /\
  __getitem__ self (-1)
  = getitem estimators (length estimators - 1) /\
  is_ok (__getitem__ self (-1)) = true /\
  __getitem__ self (__len__ self) = Raise IndexError.
Proof.
  rewrite init_cases.
  destruct (Z.leb_spec (Z.of_nat (length estimators)) 1) as [H1|H1];
    [discriminate|]. simpl.
  destruct (Res.mapM check_estimator estimators); [|discriminate].
  intros H.
  assert (Hl : estimator_list self = estimators /\
               n_clf self = Z.of_nat (length estimators)).
  { inversion H; subst self.
    destruct (bins >=? Z.of_nat (length estimators))%Z; now split. }
  destruct Hl as [Hl Hn]. unfold __len__, __iter__, __getitem__.
  rewrite Hl, Hn. split; [reflexivity|]. split; [reflexivity|].
  assert (Hlast : list_getitem estimators (-1)
                  = getitem estimators (length estimators - 1)).
  { unfold list_getitem. change (-1 <? 0)%Z with true. cbv iota.
    destruct (Z.ltb_spec (-1 + Z.of_nat (length estimators)) 0); [lia|].
    f_equal. lia. }
  split; [|split; [exact Hlast|split]].
  - unfold range. rewrite Nat2Z.id.
    rewrite (mapM_range_nth estimators (fun e => e)).
    + now rewrite map_id.
    + intros j x Hj. unfold list_getitem, getitem.
      destruct (Z.ltb_spec (Z.of_nat j) 0); [lia|].
      destruct (Z.ltb_spec (Z.of_nat j) 0); [lia|].
      now rewrite Nat2Z.id, Hj.
  - rewrite Hlast. unfold getitem.
    destruct (nth_error estimators (length estimators - 1)) eqn:Hn';
      [reflexivity|].
    apply nth_error_None in Hn'. lia.
  - unfold list_getitem, getitem.
    destruct (Z.ltb_spec (Z.of_nat (length estimators)) 0); [lia|].
    destruct (Z.ltb_spec (Z.of_nat (length estimators)) 0); [lia|].
    rewrite Nat2Z.id.
    now rewrite (proj2 (nth_error_None estimators (length estimators))
                   (le_n _)).
Qed.

End More_constructor.

Lemma init_n_bins_is_min_witness :
  match snd (Fixture.construct [Fixture.by_first; Fixture.by_second] 20 30 2
               (RS_int 42)) with
  | Ok self => n_bins self = 2%Z
  | Raise _ => False
  end /\
  fst (Fixture.construct [Fixture.by_first; Fixture.by_second] 20 30 2
         (RS_int 42)) = [n_bins_warning].
Proof.
  pose proof (@init_n_bins_is_min _ _ [Fixture.by_first; Fixture.by_second]
                20 30 1 2 (RS_int 42) []
                (set_n_bins 2
                   (init_attributes [Fixture.by_first; Fixture.by_second]
                      20 30 1 2 (RS_int 42)))
                eq_refl) as (Hb & _ & _ & Hw & _).
  split; [exact Hb|]. apply Hw. simpl. lia.
Defined.

Lemma init_len_getitem_iter_witness :
  let self :=
    set_n_bins 3
      (init_attributes [Fixture.by_first; Fixture.by_second; Fixture.by_sum]
         20 30 1 10 (RS_int 42)) in
  __len__ self = 3%Z /\
  __getitem__ self (-1) = Ok Fixture.by_sum /\
  __getitem__ self 3 = Raise IndexError.
Proof.
  intros self.
  pose proof (@init_len_getitem_iter _ _
                [Fixture.by_first; Fixture.by_second; Fixture.by_sum]
                20 30 1 10 (RS_int 42) [] self eq_refl)
    as (Hlen & _ & _ & Hlast & _ & Hout).
  split; [exact Hlen|]. split; [exact Hlast|exact Hout].
Defined.

(** ** [fit] *)

Lemma mapM_Forall2 {A B} (f : A -> result B) (l : list A) (r : list B) :
  Res.mapM f l = Ok r -> Forall2 (fun x y => f x = Ok y) l r.
Proof.
  revert r. induction l as [|a l IH]; simpl; intros r H.
  - inversion H. constructor.
  - destruct (f a) as [b|e] eqn:Ha; [|discriminate]. simpl in H.
    unfold Res.map in H.
    destruct (Res.mapM f l) as [bs|e]; [|discriminate]. simpl in H.
    inversion H; subst. constructor; auto.
Qed.

Lemma Qmax_cases (x y : Q) : (Qmax x y = x \/ Qmax x y = y) /\
  x <= Qmax x y /\ y <= Qmax x y.
Proof.
  split; [|split; [apply Q.le_max_l|apply Q.le_max_r]].
  unfold Qmax, GenericMinMax.gmax. destruct (x ?= y); auto.
Qed.

Lemma fold_max_spec (l : vector) :
  forall x, (fold_left Qmax l x = x \/ In (fold_left Qmax l x) l) /\
            x <= fold_left Qmax l x /\
            Forall (fun q => q <= fold_left Qmax l x) l.
Proof.
  induction l as [|y l IH]; simpl; intros x.
  - split; [now left|]. split; [apply Qle_refl|constructor].
  - destruct (IH (Qmax x y)) as (Hin & Hle & Hall).
    destruct (Qmax_cases x y) as (Hc & Hx & Hy).
    split; [|split].
    + destruct Hin as [Hin|Hin]; [|now right; right].
      rewrite Hin. destruct Hc as [Hc|Hc]; rewrite Hc; auto.
    + eapply Qle_trans; eauto.
    + constructor; [eapply Qle_trans; eauto|exact Hall].
Qed.

(** [np.max] of a row is an entry of the row that no entry exceeds. *)
Lemma row_max_spec (row : vector) (m : Q) :
  row_max row = Ok m -> In m row /\ Forall (fun q => q <= m) row.
Proof.
  destruct row as [|x row]; simpl; [discriminate|].
  intros H. inversion H; subst.
  destruct (fold_max_spec row x) as (Hin & Hle & Hall).
  split; [destruct Hin as [->|Hin]; auto|]. constructor; assumption.
Qed.

Section Fit.

Context {E : Type} {D : Detector E} {B : Backend}.



End Fit.

Section Fit_outcome.

Context {E : Type} {D : Detector E} {B : Backend}.

(** What [fit] leaves in the attributes: when it returns, all of them,
    computed from [X]; when it raises, [training_pseudo_label_] as it
    was. *)
Lemma fit_run (X : matrix) (w w' : world E) (r : result unit) :
  fit X w = (w', r) ->
  (is_ok (sklearn.check_array X) = false -> w' = w /\ r = Raise ValueError) /\
  match r with
  | Ok _ =>
      is_ok (sklearn.check_array X) = true /\
      exists train_scores label,
        attrs (self w') =
        {| n_features_ := Some (shape1 X);
           X_train_norm_ := Some (standardizer X);
           train_scores_norm_ := Some (standardizer train_scores);
           training_pseudo_label_ := Some label;
           decision_scores_ := Some true;
           threshold_ := Some true;
           labels_ := Some true |} /\
        Res.mapM row_max (standardizer train_scores) = Ok label
  | Raise _ =>
      training_pseudo_label_ (attrs (self w'))
      = training_pseudo_label_ (attrs (self w))
  end.
Proof.
  unfold fit, SEM.bind at 1. unfold SEM.lift at 1.
  destruct (sklearn.check_array X) as [X'|e] eqn:HX.
  2:{ intros H. inversion H; subst. split; [|reflexivity].
      intros _. split; [reflexivity|].
      unfold sklearn.check_array in HX. destruct X as [|row X];
        [now inversion HX|].
      destruct (_ || _); [now inversion HX|discriminate]. }
  apply check_array_same in HX. subst X'.
  unfold SEM.bind at 1. unfold assign at 1, update_self at 1, SEM.modify at 1.
  unfold SEM.bind at 1. unfold assign at 1, update_self at 1, SEM.modify at 1.
  unfold SEM.bind at 1. unfold attr at 1, SEM.bind at 1, get_self at 1.
  cbn [fst snd self attrs set_attrs X_train_norm_ assign_X_train_norm_ SEM.ret].
  unfold SEM.bind at 1, get_self at 1. unfold SEM.bind at 1.
  match goal with
  | |- (let (s', r0) := SEM.for_each ?l ?body ?acc ?s in _) = _ -> _ =>
      pose proof (@for_each_store _ _ _
                    (fun s' : world E => attrs (self s') = attrs (self s))
                    body l) as Hloop;
      specialize (fun Hb => Hloop Hb acc s eq_refl);
      destruct (SEM.for_each l body acc s) as [w3 [train_scores|e]]
  end; simpl in Hloop.
  - assert (H3 : attrs (self w3) =
                 assign_X_train_norm_ (standardizer X)
                   (assign_n_features_ (shape1 X) (attrs (self w)))).
    { apply Hloop. intros acc x s Hs. unfold SEM.bind, SEM.lift.
      destruct (estimator_fit (snd x) (standardizer X)) as [est|e];
        [|exact Hs].
      simpl.
      destruct (predict est (standardizer X)) as [col|e]; simpl;
        [destruct (set_column acc (fst x) col)|]; exact Hs. }
    clear Hloop.
    unfold SEM.bind at 1.
    unfold assign at 1, update_self at 1, SEM.modify at 1.
    unfold SEM.bind at 1. unfold attr at 1, SEM.bind at 1, get_self at 1.
    cbn [fst snd self attrs set_attrs train_scores_norm_
         assign_train_scores_norm_ SEM.ret].
    unfold SEM.bind at 1, SEM.lift at 1.
    destruct (Res.mapM row_max (standardizer train_scores)) as [label|e]
      eqn:Hlabel.
    + unfold SEM.bind, assign, update_self, SEM.modify. simpl.
      intros H. inversion H; subst. simpl. split; [discriminate|].
      split; [reflexivity|]. exists train_scores, label.
      split; [|exact Hlabel]. rewrite H3. reflexivity.
    + intros H. inversion H; subst. simpl. split; [discriminate|].
      now rewrite H3.
  - intros H. inversion H; subst. split; [discriminate|].
    rewrite Hloop; [reflexivity|].
    intros acc x s Hs. unfold SEM.bind, SEM.lift.
    destruct (estimator_fit (snd x) (standardizer X)) as [est|e'];
      [|exact Hs].
    simpl.
    destruct (predict est (standardizer X)) as [col|e']; simpl;
      [destruct (set_column acc (fst x) col)|]; exact Hs.
Qed.

(** X4. When [fit] returns, the object is fitted: the feature count is
    that of [X], the stored training matrix is [standardizer(X)], and the
    pseudo ground truth has one entry for every row of the standardized
    training scores, which is an entry of that row that no entry of the
    row exceeds.  [check_is_fitted] then passes. *)
Theorem fit_makes_fitted (X : matrix) (w : world E) :
  is_ok (snd (fit X w)) = true ->
  let a := attrs (self (fst (fit X w))) in
  n_features_ a = Some (shape1 X) /\
  X_train_norm_ a = Some (standardizer X) /\
  (exists tsn label,
      train_scores_norm_ a = Some tsn /\
      training_pseudo_label_ a = Some label /\
      Forall2 (fun row m => In m row /\ Forall (fun q => q <= m) row)
        tsn label) /\
  check_is_fitted (fst (fit X w)) = (fst (fit X w), Ok tt).
Proof.
  intros Hok a. subst a.
  destruct (fit X w) as [w' [[]|e]] eqn:Hfit; [|discriminate]. simpl.
  apply fit_run in Hfit.
  destruct Hfit as (_ & _ & train_scores & label & Ha & Hlabel).
  unfold check_is_fitted, SEM.bind, get_self. simpl. rewrite Ha. simpl.
  repeat split.
  exists (standardizer train_scores), label. repeat split.
  apply mapM_Forall2 in Hlabel.
  eapply Forall2_impl; [|exact Hlabel].
  intros row m Hm. now apply row_max_spec.
Qed.

(** X5. When [fit] raises, [training_pseudo_label_] is as it was before
    the call: an object that was not fitted stays not fitted, and
    [decision_function] on it raises [NotFittedError] without touching it.
    A matrix that [check_array] rejects leaves the whole store as it
    was. *)
Theorem failed_fit_is_not_fitted (X X' : matrix) (w : world E) :
  training_pseudo_label_ (attrs (self w)) = None ->
  is_ok (snd (fit X w)) = false ->
  decision_function X' (fst (fit X w))
  = (fst (fit X w), Raise NotFittedError) /\
  (is_ok (sklearn.check_array X) = false ->
   fit X w = (w, Raise ValueError)).
Proof.
  intros Hnone Hfail.
  destruct (fit X w) as [w' [[]|e]] eqn:Hfit; [discriminate|]. simpl.
  apply fit_run in Hfit. destruct Hfit as (Hcheck & Hlabel).
  rewrite Hnone in Hlabel. split.
  - unfold decision_function, SEM.bind, check_is_fitted, SEM.bind, get_self.
    simpl. now rewrite Hlabel.
  - intros Hx. destruct (Hcheck Hx) as [-> He]. now inversion He.
Qed.

End Fit_outcome.

Lemma fit_makes_fitted_witness :
  let w := Fixture.start
             (init_attributes [Fixture.by_first; Fixture.by_second] 20 30 1
                10 (RS_int 42)) in
  n_features_ (attrs (self (fst (fit Fixture.X_train w)))) = Some 3%Z.
Proof.
  intros w.
  apply (@fit_makes_fitted _ _ _ Fixture.X_train w).
  vm_compute. reflexivity.
Defined.

Lemma failed_fit_is_not_fitted_witness :
  let w := Fixture.start
             (init_attributes [Fixture.by_first; Fixture.by_second] 20 30 1
                10 (RS_int 42)) in
  decision_function Fixture.X_test (fst (fit [] w))
  = (fst (fit [] w), Raise NotFittedError) /\
  fit [] w = (w, Raise ValueError).
Proof.
  intros w.
  destruct (@failed_fit_is_not_fitted _ _ _ [] Fixture.X_test w eq_refl
              eq_refl) as [H1 H2].
  split; [exact H1|]. apply H2. reflexivity.
Defined.

(** ** The competence selector on any finite scores *)

Section Selector_bins.

Lemma finite_Some (a : list float64) (qs : vector) :
  np.finite a = Some qs -> a = List.map Fin qs.
Proof.
  revert qs. induction a as [|[q|] a IH]; simpl; intros qs H.
  - now inversion H.
  - destruct (np.finite a) as [qs'|]; [|discriminate]. simpl in H.
    inversion H; subst. simpl. f_equal. now apply IH.
  - discriminate.
Qed.

Lemma Qmin_cases (x y : Q) : Qmin x y <= x /\ Qmin x y <= y.
Proof. split; [apply Q.le_min_l|apply Q.le_min_r]. Qed.

Lemma fold_min_spec (l : vector) :
  forall x, fold_left Qmin l x <= x /\
            Forall (fun q => fold_left Qmin l x <= q) l.
Proof.
  induction l as [|y l IH]; simpl; intros x.
  - split; [apply Qle_refl|constructor].
  - destruct (IH (Qmin x y)) as (Hle & Hall).
    destruct (Qmin_cases x y) as (Hx & Hy).
    split; [eapply Qle_trans; eauto|].
    constructor; [eapply Qle_trans; eauto|exact Hall].
Qed.

(** The range of the histogram is not empty and holds every value. *)
Lemma outer_edges_spec (qs : vector) :
  fst (np.outer_edges qs) < snd (np.outer_edges qs) /\
  Forall (fun q => fst (np.outer_edges qs) <= q <= snd (np.outer_edges qs)) qs.
Proof.
  destruct qs as [|x qs]; [split; [reflexivity|constructor]|].
  unfold np.outer_edges.
  destruct (fold_min_spec qs x) as (Hminx & Hmin).
  destruct (fold_max_spec qs x) as (_ & Hmaxx & Hmax).
  set (lo := fold_left Qmin qs x) in *.
  set (hi := fold_left Qmax qs x) in *.
  assert (Hall : Forall (fun q => lo <= q <= hi) (x :: qs)).
  { constructor; [split; assumption|].
    rewrite Forall_forall in *. intros q Hq. split; auto. }
  destruct (Qeq_bool lo hi) eqn:Heq; simpl.
  - apply Qeq_bool_eq in Heq. split; [lra|].
    eapply Forall_impl; [|exact Hall]. intros q Hq. simpl in Hq. lra.
  - apply Qeq_bool_neq in Heq. split; [|exact Hall].
    assert (lo <= hi) by (eapply Qle_trans; eauto).
    destruct (Qlt_le_dec lo hi) as [Hlt|Hge]; [exact Hlt|].
    exfalso. apply Heq. apply Qle_antisym; assumption.
Qed.

(** A value of the range falls into a bin of the histogram, between the
    edges of that bin. *)
Lemma bin_index_spec (lo hi : Q) (bins : Z) (x : Q) :
  (1 <= bins)%Z -> lo < hi -> lo <= x <= hi ->
  let j := np.bin_index lo hi bins x in
  (Z.of_nat j < bins)%Z /\
  np.bin_edge lo hi bins j <= x <= np.bin_edge lo hi bins (j + 1).
Proof.
  intros Hb Hlt Hx j. subst j. unfold np.bin_index, np.bin_edge.
  set (u := (hi - lo) / inject_Z bins).
  set (t := (x - lo) * (inject_Z bins / (hi - lo))).
  assert (Hnb : 0 < inject_Z bins) by (unfold Qlt; simpl; lia).
  assert (Hu : 0 < u) by (apply Qlt_shift_div_l; lra).
  assert (Hxt : x == lo + t * u) by (unfold t, u; field; split; lra).
  assert (Hhi : hi == lo + inject_Z bins * u) by (unfold u; field; lra).
  assert (Ht0 : 0 <= t).
  { destruct (Qlt_le_dec t 0) as [Hneg|]; [|assumption].
    assert (t * u < 0) by nra. lra. }
  assert (Htb : t <= inject_Z bins).
  { destruct (Qlt_le_dec (inject_Z bins) t) as [Hbig|]; [|assumption].
    assert (inject_Z bins * u < t * u) by nra. lra. }
  pose proof (Qfloor_le t) as Hfl. pose proof (Qlt_floor t) as Hfu.
  assert (Hi0 : (0 <= Qfloor t)%Z)
    by (change 0%Z with (Qfloor 0); now apply Qfloor_resp_le).
  assert (Hib : (Qfloor t <= bins)%Z)
    by (rewrite <- (Qfloor_Z bins); now apply Qfloor_resp_le).
  rewrite Nat2Z.inj_add. simpl (Z.of_nat 1).
  destruct (Z.eqb_spec (Qfloor t) bins) as [Heq|Hne].
  - rewrite Z2Nat.id by lia. split; [lia|].
    rewrite Heq in Hfl |- *.
    replace (bins - 1 + 1)%Z with bins by lia.
    unfold Zminus. rewrite inject_Z_plus.
    change (inject_Z (- (1))) with (- (1)).
    clearbody u t.
    pose proof (Qmult_le_compat_r _ _ u Hfl (Qlt_le_weak _ _ Hu)).
    pose proof (Qmult_le_compat_r _ _ u Htb (Qlt_le_weak _ _ Hu)).
    split; [|lra].
    setoid_replace ((inject_Z bins + - (1)) * u)
      with (inject_Z bins * u - u) by ring.
    lra.
  - rewrite Z2Nat.id by lia. split; [lia|].
    rewrite inject_Z_plus in *. change (inject_Z 1) with 1 in *.
    generalize dependent (Qfloor t). intros i Hfl Hfu _ _ _.
    clearbody u t.
    pose proof (Qmult_le_compat_r _ _ u Hfl (Qlt_le_weak _ _ Hu)).
    pose proof (Qmult_le_compat_r _ _ u (Qlt_le_weak _ _ Hfu)
                  (Qlt_le_weak _ _ Hu)) as Hup.
    split; [lra|].
    setoid_replace ((inject_Z i + 1) * u)
      with (inject_Z i * u + u) in Hup by ring.
    setoid_replace ((inject_Z i + 1) * u)
      with (inject_Z i * u + u) by ring.
    lra.
Qed.

Lemma where_bound (mask : list bool) :
  forall i d, In d (np.where_ mask i) -> (i <= d < i + length mask)%nat.
Proof.
  induction mask as [|b mask IH]; simpl; intros i d H; [tauto|].
  destruct b; [destruct H as [<-|H]; [lia|]|];
    apply IH in H; lia.
Qed.

Lemma where_In (mask : list bool) :
  forall i p, nth_error mask p = Some true -> In (i + p)%nat (np.where_ mask i).
Proof.
  induction mask as [|b mask IH]; intros i [|p] H; simpl in *;
    try discriminate.
  - inversion H; subst. left. lia.
  - replace (i + S p)%nat with (S i + p)%nat by lia.
    destruct b; [right|]; now apply IH.
Qed.

End Selector_bins.

Section Selector_outcome.

Context {E : Type}.

Lemma list_max_attained (l : list nat) :
  l <> [] -> exists j, nth_error l j = Some (list_max l).
Proof.
  induction l as [|x l IH]; [congruence|]. intros _.
  destruct l as [|y l].
  - exists O. simpl. f_equal. lia.
  - destruct IH as (j & Hj); [congruence|].
    change (list_max (x :: y :: l)) with (Nat.max x (list_max (y :: l))).
    destruct (Nat.max_spec x (list_max (y :: l))) as [[_ Hm]|[_ Hm]];
      rewrite Hm.
    + now exists (S j).
    + now exists O.
Qed.

Lemma nth_le_list_max (l : list nat) (k : nat) :
  (nth k l O <= list_max l)%nat.
Proof.
  pose proof (proj1 (list_max_le l (list_max l)) (Nat.le_refl _)) as Hall.
  destruct (nth_in_or_default k l O) as [Hin|Hdef]; [|rewrite Hdef; lia].
  rewrite Forall_forall in Hall. now apply Hall.
Qed.

Lemma getitem_map_range {A} (f : nat -> A) (n : Z) (j : nat) :
  (j < Z.to_nat n)%nat -> getitem (List.map f (range n)) j = Ok (f j).
Proof.
  intros Hj. unfold getitem, range.
  rewrite nth_error_map, nth_error_nth' with (d := O)
    by (rewrite length_seq; exact Hj).
  now rewrite seq_nth.
Qed.

(** The loop of lines 226 to 231 over bins that exist. *)
Lemma candidates_concat (scores : list float64) (lo hi : Q) (bins : Z)
    (max_bins : list nat) :
  Forall (fun j => (j < Z.to_nat bins)%nat) max_bins ->
  (0 <= bins)%Z ->
  forall acc,
  fold_left (fun candidates max_bin =>
    Res.bind candidates (fun candidates =>
    Res.bind (getitem (List.map (np.bin_edge lo hi bins) (range (bins + 1)))
                max_bin) (fun l =>
    Res.bind (getitem (List.map (np.bin_edge lo hi bins) (range (bins + 1)))
                (max_bin + 1)) (fun h =>
    Ok (candidates ++ between scores l h)))))
    max_bins (Ok acc) =
  Ok (acc ++ concat (List.map (fun j =>
        between scores (np.bin_edge lo hi bins j)
          (np.bin_edge lo hi bins (j + 1))) max_bins)).
Proof.
  intros Hall Hb. induction Hall as [|j max_bins Hj _ IH]; intros acc.
  - simpl. now rewrite app_nil_r.
  - cbn [fold_left Res.bind].
    rewrite !getitem_map_range by lia. cbn [Res.bind].
    rewrite IH. cbn [List.map concat]. now rewrite <- app_assoc.
Qed.

(** X6.  Whatever the number [n_selected] of bins asked for, when the
    selector returns on scores that are not empty, every candidate is the
    position of a score, and there is at least one candidate: a most
    populated bin of the histogram holds a score, this bin is among the
    selected ones, and the score lies between its edges. *)
Theorem selected_detectors_exist (self : LSCP E) (scores : list float64)
    (candidates : list nat) :
  scores <> [] ->
  _get_competent_detectors self scores = Ok candidates ->
  candidates <> [] /\
  Forall (fun d => (d < length scores)%nat) candidates.
Proof.
  intros Hne. unfold _get_competent_detectors, np.histogram.
  destruct (Z.ltb_spec (n_bins self) 1) as [|Hb]; [discriminate|].
  destruct (np.finite scores) as [qs|] eqn:Hfin; [|discriminate].
  apply finite_Some in Hfin. subst scores.
  destruct (outer_edges_spec qs) as (Hlt & Hin).
  destruct (np.outer_edges qs) as (lo, hi). cbn [fst snd] in Hlt, Hin.
  cbn [Res.bind].
  set (idx := List.map (np.bin_index lo hi (n_bins self)) qs).
  set (hist := List.map (count_occ Nat.eq_dec idx) (range (n_bins self))).
  unfold pyod_utils.argmaxn.
  destruct ((n_selected self <? 1) || (Z.of_nat (length hist) <? n_selected self))%Z;
    [discriminate|].
  cbn [Res.bind].
  set (thr := nth _ (pyod_utils.sort hist) O).
  set (max_bins := np.where_ _ 0).
  assert (Hlen : length hist = Z.to_nat (n_bins self))
    by (unfold hist, range; now rewrite length_map, length_seq).
  assert (Hbins : Forall (fun j => (j < Z.to_nat (n_bins self))%nat) max_bins).
  { rewrite Forall_forall. intros j Hj. apply where_bound in Hj.
    rewrite length_map, Hlen in Hj. lia. }
  rewrite (candidates_concat _ lo hi Hbins) by lia.
  intros Hc. inversion Hc as [Hcand]; clear Hc. cbn [app].
  split.
  - (* a most populated bin, and a score in it *)
    assert (Hhist : hist <> []).
    { intros Hnil. rewrite Hnil in Hlen. simpl in Hlen. lia. }
    destruct (list_max_attained Hhist) as (jm & Hjm).
    assert (Hjb : (jm < Z.to_nat (n_bins self))%nat).
    { rewrite <- Hlen. apply nth_error_Some. congruence. }
    assert (Hthr : (thr <= list_max hist)%nat).
    { unfold thr. rewrite <- sort_max. apply nth_le_list_max. }
    assert (Hjm_in : In jm max_bins).
    { apply (where_In _ 0 jm). rewrite nth_error_map, Hjm. simpl.
      f_equal. now apply Nat.leb_le. }
    assert (Hpos : (1 <= list_max hist)%nat).
    { destruct qs as [|x0 qs0]; [now elim Hne|].
      set (j0 := np.bin_index lo hi (n_bins self) x0).
      assert (Hx0 : lo <= x0 <= hi) by (inversion Hin; assumption).
      destruct (bin_index_spec Hb Hlt Hx0) as (Hj0 & _). fold j0 in Hj0.
      assert (Hc0 : (1 <= count_occ Nat.eq_dec idx j0)%nat).
      { apply (count_occ_In Nat.eq_dec). unfold idx. left. reflexivity. }
      assert (Hn0 : nth j0 hist O = count_occ Nat.eq_dec idx j0).
      { unfold hist, range.
        rewrite nth_indep with (d' := count_occ Nat.eq_dec idx O)
          by (rewrite length_map, length_seq; lia).
        rewrite map_nth, seq_nth by lia. reflexivity. }
      pose proof (nth_le_list_max hist j0). lia. }
    assert (Hcm : nth_error hist jm = Some (count_occ Nat.eq_dec idx jm)).
    { unfold hist, range.
      rewrite nth_error_map, nth_error_nth' with (d := O)
        by (rewrite length_seq; exact Hjb).
      now rewrite seq_nth. }
    rewrite Hjm in Hcm. inversion Hcm as [Hcount]; clear Hcm.
    assert (Hin_idx : In jm idx).
    { apply (count_occ_In Nat.eq_dec). lia. }
    unfold idx in Hin_idx. apply in_map_iff in Hin_idx.
    destruct Hin_idx as (x & Hxj & Hx).
    destruct (In_nth_error _ _ Hx) as (p & Hp).
    assert (Hxr : lo <= x <= hi)
      by (rewrite Forall_forall in Hin; now apply Hin).
    destruct (bin_index_spec Hb Hlt Hxr) as (_ & Hlo & Hhi).
    rewrite Hxj in Hlo, Hhi.
    assert (Hsel : In p (between (List.map Fin qs)
                           (np.bin_edge lo hi (n_bins self) jm)
                           (np.bin_edge lo hi (n_bins self) (jm + 1)))).
    { apply (where_In _ 0 p). rewrite !nth_error_map, Hp. simpl.
      f_equal. apply andb_true_iff. split; now apply Qle_bool_iff. }
    intros Hnil.
    assert (Hall : In p (concat (List.map (fun j =>
              between (List.map Fin qs) (np.bin_edge lo hi (n_bins self) j)
                (np.bin_edge lo hi (n_bins self) (j + 1))) max_bins))).
    { apply in_concat. eexists. split; [|exact Hsel].
      apply in_map_iff. exists jm. split; [reflexivity|exact Hjm_in]. }
    rewrite Hnil in Hall. exact Hall.
  - rewrite Forall_forall. intros d Hd.
    apply in_concat in Hd. destruct Hd as (sel & Hsel & Hd).
    apply in_map_iff in Hsel. destruct Hsel as (j & <- & _).
    apply where_bound in Hd. rewrite length_map in Hd. lia.
Qed.

End Selector_outcome.

(** ** The scores [decision_function] returns *)

Lemma for_each_collect {S A B} (f : A -> SE S B) (l : list A) :
  (forall x s, fst (f x s) = s) ->
  forall acc s s' r,
    SEM.for_each l (fun acc x => (y <- f x ;; SEM.ret (acc ++ [y]))%se) acc s
    = (s', Ok r) ->
    s' = s /\
    exists ys, r = acc ++ ys /\ Forall2 (fun x y => f x s = (s, Ok y)) l ys.
Proof.
  intros Hstore. induction l as [|x l IH]; simpl; intros acc s s' r H.
  - inversion H; subst. split; [reflexivity|]. exists [].
    rewrite app_nil_r. split; [reflexivity|constructor].
  - unfold SEM.bind at 1 in H. unfold SEM.bind at 1 in H.
    pose proof (Hstore x s) as Hs.
    destruct (f x s) as [s1 [y|e]] eqn:Hx; simpl in Hs; subst s1;
      [|discriminate].
    unfold SEM.ret at 1 in H.
    destruct (IH _ _ _ _ H) as (-> & ys & -> & Hall).
    split; [reflexivity|]. exists (y :: ys). rewrite <- app_assoc.
    split; [reflexivity|]. constructor; assumption.
Qed.

Section Scores.

Context {E : Type} {D : Detector E} {B : Backend}.

(** A call that returns has found one region per test row, has let every
    detector predict, and has scored the regions one by one in the store
    the region finder left. *)
Lemma decision_function_scores (X : matrix) (w w' : world E)
    (scores : list float64) :
  decision_function X w = (w', Ok scores) ->
  exists regions test_scores,
    _get_local_region (standardizer X) (region_size_set w) = (w', Ok regions)
    /\ predict_all (standardizer X) w' = (w', Ok test_scores)
    /\ Forall2 (fun ik score =>
         row_score (standardizer test_scores) (fst ik) (snd ik) w'
         = (w', Ok score)) (enumerate regions) scores.
Proof.
  unfold decision_function, SEM.bind at 1.
  unfold check_is_fitted, SEM.bind at 1. unfold get_self at 1. simpl.
  destruct (training_pseudo_label_ (attrs (self w))); [|discriminate].
  destruct (train_scores_norm_ (attrs (self w))); [|discriminate].
  destruct (X_train_norm_ (attrs (self w))); [|discriminate].
  destruct (n_features_ (attrs (self w))) as [n|] eqn:Hn; [|discriminate].
  simpl. unfold SEM.bind at 1. unfold SEM.lift at 1.
  destruct (sklearn.check_array X) as [X'|e] eqn:HX; [|discriminate].
  apply check_array_same in HX. subst X'.
  unfold SEM.bind at 1. unfold attr, SEM.bind at 1, get_self at 1.
  rewrite Hn. simpl.
  destruct (negb (n =? shape1 X)%Z); [discriminate|].
  unfold SEM.bind at 1. unfold update_self at 1, SEM.modify at 1.
  unfold SEM.bind at 1. unfold update_self at 1, SEM.modify at 1. simpl.
  unfold SEM.bind at 1.
  match goal with
  | |- context [_get_local_region (standardizer X) ?w0] =>
      change w0 with (region_size_set w)
  end.
  destruct (_get_local_region (standardizer X) (region_size_set w))
    as [w1 [regions|e]]; [|discriminate].
  unfold SEM.bind at 1.
  pose proof (predict_all_store (standardizer X) w1) as Hp.
  destruct (predict_all (standardizer X) w1) as [w2 [test_scores|e]] eqn:Hpred;
    simpl in Hp; subst w2; [|discriminate].
  intros H.
  apply (for_each_collect
           (fun ik => row_score (standardizer test_scores) (fst ik) (snd ik)))
    in H; [|intros x s; apply row_score_store].
  destruct H as (-> & ys & -> & Hall).
  exists regions, test_scores. rewrite Hpred. auto.
Qed.

Lemma get_local_region_length (X : matrix) (w w' : world E)
    (regions : list (list nat)) :
  _get_local_region X w = (w', Ok regions) ->
  length regions = Z.to_nat (shape0 X).
Proof.
  unfold _get_local_region, SEM.bind.
  destruct (region_grid X w) as [w1 [grid|e]]; [|discriminate].
  unfold get_self, SEM.lift. simpl. intros H. inversion H as [[Hw Hr]].
  apply mapM_length in Hr. now rewrite range_length in Hr.
Qed.

Lemma enumerate_length {A} (l : list A) : length (enumerate l) = length l.
Proof. unfold enumerate. rewrite length_combine, length_seq. lia. Qed.

(** A row score that is returned is the mean of the test scores of the
    selected detectors, of which there is at least one. *)
Lemma row_score_mean (T : matrix) (i : nat) (ind_k : list nat) (w : world E)
    (score : float64) :
  (0 < n_clf (self w))%Z ->
  row_score T i ind_k w = (w, Ok score) ->
  exists row candidates selected,
    nth_error T i = Some row /\
    candidates <> [] /\
    Forall (fun d => (Z.of_nat d < n_clf (self w))%Z) candidates /\
    take row candidates = Ok selected /\
    score = np.mean selected.
Proof.
  intros Hn.
  unfold row_score, SEM.bind, get_self, attr, SEM.bind, get_self, SEM.lift.
  simpl.
  destruct (training_pseudo_label_ (attrs (self w))) as [label|]; simpl;
    [|discriminate].
  destruct (train_scores_norm_ (attrs (self w))) as [tsn|]; simpl;
    [|discriminate].
  destruct (local_competence _ _ _ _) as [corr|e] eqn:Hc; simpl;
    [|discriminate].
  destruct (_get_competent_detectors _ _) as [candidates|e] eqn:Hs; simpl;
    [|discriminate].
  unfold getitem.
  destruct (nth_error T i) as [row|] eqn:Hrow; simpl; [|discriminate].
  destruct (take row candidates) as [selected|e] eqn:Hsel; simpl;
    [|discriminate].
  intros H. inversion H; subst score.
  apply local_competence_length in Hc.
  assert (Hcorr : corr <> []).
  { intros ->. simpl in Hc. lia. }
  destruct (selected_detectors_exist _ Hcorr Hs) as (Hne & Hall).
  exists row, candidates, selected. repeat split; auto.
  eapply Forall_impl; [|exact Hall]. intros d Hd. simpl in Hd. lia.
Qed.

(** X7.  When the ensemble has a detector and [decision_function] returns,
    it returns one score per row of the test batch, and the score of row
    [i] is the mean of row [i] of the standardized test scores over a
    selection of detectors that is not empty: no score is the [nan] of an
    empty mean. *)
Theorem decision_function_scores_are_means (X : matrix) (w w' : world E)
    (scores : list float64) :
  (0 < n_clf (self w))%Z ->
  decision_function X w = (w', Ok scores) ->
  length scores = Z.to_nat (shape0 (standardizer X)) /\
  exists test_scores,
    predict_all (standardizer X) w' = (w', Ok test_scores) /\
    forall i score, nth_error scores i = Some score ->
      exists row candidates selected,
        nth_error (standardizer test_scores) i = Some row /\
        candidates <> [] /\
        Forall (fun d => (Z.of_nat d < n_clf (self w))%Z) candidates /\
        take row candidates = Ok selected /\
        score = np.mean selected /\
        is_nan score = false.
Proof.
  intros Hn H. apply decision_function_scores in H.
  destruct H as (regions & test_scores & Hreg & Hpred & Hall).
  pose proof (get_local_region_after (standardizer X) (region_size_set w))
    as Hafter.
  rewrite Hreg in Hafter. cbn [fst] in Hafter.
  destruct Hafter as (rs' & np' & new & Hw' & _).
  assert (Hclf : n_clf (self w') = n_clf (self w))
    by (rewrite Hw'; reflexivity).
  split.
  - rewrite <- (Forall2_length Hall), enumerate_length.
    eapply get_local_region_length; eauto.
  - exists test_scores. split; [exact Hpred|]. intros i score Hi.
    assert (Hlt : (i < length (enumerate regions))%nat).
    { rewrite (Forall2_length Hall). apply nth_error_Some. congruence. }
    destruct (nth_error (enumerate regions) i) as [ik|] eqn:Hik;
      [|apply nth_error_None in Hik; lia].
    assert (Hfst : fst ik = i).
    { unfold enumerate in Hik.
      rewrite enumerate_length in Hlt.
      rewrite nth_error_nth' with (d := (O, [])) in Hik
        by (rewrite length_combine, length_seq; lia).
      inversion Hik as [Heq].
      rewrite combine_nth by apply length_seq.
      rewrite seq_nth by lia. reflexivity. }
    assert (Hrow : row_score (standardizer test_scores) (fst ik) (snd ik) w'
                   = (w', Ok score)).
    { clear - Hall Hik Hi. revert i Hik Hi.
      induction Hall as [|x y l l' Hxy _ IH]; intros [|i] Hik Hi;
        simpl in *; try discriminate.
      - inversion Hik; inversion Hi; subst. exact Hxy.
      - eapply IH; eauto. }
    rewrite Hfst in Hrow. rewrite <- Hclf in Hn.
    destruct (row_score_mean _ _ _ Hn Hrow)
      as (row & candidates & selected & H1 & H2 & H3 & H4 & H5).
    exists row, candidates, selected. rewrite <- Hclf.
    repeat split; auto.
    subst score. apply mapM_length in H4.
    destruct selected; [|reflexivity].
    destruct candidates; [congruence|discriminate].
Qed.

End Scores.

Lemma selected_detectors_exist_witness :
  let self := self Fixture.twin_world in
  let scores := [Fin 0; Fin (1 # 2); Fin 1] in
  scores <> [] /\
  _get_competent_detectors self scores = Ok [1; 2]%nat /\
  [1; 2]%nat <> [] /\
  Forall (fun d => (d < length scores)%nat) [1; 2]%nat.
Proof.
  intros self0 scores.
  assert (Hne : scores <> []) by discriminate.
  assert (Hrun : _get_competent_detectors self0 scores = Ok [1; 2]%nat)
    by (vm_compute; reflexivity).
  split; [exact Hne|]. split; [exact Hrun|].
  exact (selected_detectors_exist self0 Hne Hrun).
Defined.

Lemma decision_function_scores_are_means_witness :
  let w := Fixture.large_world 10 (RS_int 42) in
  let out := decision_function Fixture.X_probe w in
  (0 < n_clf (self w))%Z /\
  is_ok (snd out) = true /\
  forall scores, snd out = Ok scores -> length scores = 2%nat.
Proof.
  intros w out.
  assert (Hn : (0 < n_clf (self w))%Z) by (vm_compute; reflexivity).
  split; [exact Hn|]. split; [vm_compute; reflexivity|].
  intros scores Hs.
  assert (Hrun : decision_function Fixture.X_probe w = (fst out, Ok scores))
    by (rewrite <- Hs; subst out; now destruct (decision_function _ w)).
  exact (proj1 (@decision_function_scores_are_means _ _ _ _ _ _ _ Hn Hrun)).
Defined.

(** ** Calls that [decision_function] rejects or cannot finish *)

Section Rejected.

Context {E : Type} {D : Detector E} {B : Backend}.

(** X8.  On a fitted object, a batch that [check_array] refuses, or whose
    rows do not have the number of features [fit] has seen, makes
    [decision_function] raise [ValueError] before anything is assigned:
    the object, [local_region_size] included, and the generators are as
    they were, and no neighbour has been looked up. *)
Theorem wrong_width_is_rejected (X : matrix) (w : world E) :
  check_is_fitted w = (w, Ok tt) ->
  (is_ok (sklearn.check_array X) = false \/
   n_features_ (attrs (self w)) <> Some (shape1 X)) ->
  decision_function X w = (w, Raise ValueError).
Proof.
  intros Hfit Hbad.
  unfold check_is_fitted, SEM.bind, get_self in Hfit. simpl in Hfit.
  unfold decision_function, SEM.bind at 1.
  unfold check_is_fitted, SEM.bind at 1. unfold get_self at 1. simpl.
  destruct (training_pseudo_label_ (attrs (self w))); [|discriminate].
  destruct (train_scores_norm_ (attrs (self w))); [|discriminate].
  destruct (X_train_norm_ (attrs (self w))); [|discriminate].
  destruct (n_features_ (attrs (self w))) as [n|] eqn:Hn; [|discriminate].
  simpl. unfold SEM.bind at 1. unfold SEM.lift at 1.
  destruct (sklearn.check_array X) as [X'|e] eqn:HX.
  - apply check_array_same in HX. subst X'.
    unfold SEM.bind at 1. unfold attr, SEM.bind at 1, get_self at 1.
    rewrite Hn. simpl.
    destruct (Z.eqb_spec n (shape1 X)) as [->|Hne]; [|reflexivity].
    destruct Hbad as [Hbad|Hbad]; [discriminate|now elim Hbad].
  - f_equal. unfold sklearn.check_array in HX.
    destruct X as [|row X]; [now inversion HX|].
    destruct (_ || _); [now inversion HX|discriminate].
Qed.

(** The k-d tree of scikit-learn refuses to look up more neighbours than
    it holds points. *)
Hypothesis KDTree_needs_k_points :
  forall train test k,
    (shape0 train < k)%Z -> is_ok (KDTree_query train test k) = false.

Lemma region_query_small (X T : matrix) (w : world E) :
  X_train_norm_ (attrs (self w)) = Some T ->
  (shape0 T < local_region_size (self w))%Z ->
  is_ok (snd (region_query X w)) = false.
Proof.
  intros HT Hk.
  unfold region_query, SEM.bind, get_self, attr, SEM.bind, get_self. simpl.
  rewrite HT. simpl. unfold with_generators.
  destruct (generate_bagging_indices _ _ _ _ _) as [[rs' g'] [features|e]];
    simpl; [|reflexivity].
  unfold SEM.lift.
  destruct (take_cols T features) as [train|e] eqn:Htrain; simpl;
    [|reflexivity].
  destruct (take_cols X features) as [test|e]; simpl; [|reflexivity].
  unfold record_query, SEM.modify. simpl.
  apply mapM_length in Htrain.
  pose proof (KDTree_needs_k_points train test (k := local_region_size (self w)))
    as Hq.
  destruct (KDTree_query train test (local_region_size (self w)));
    [|reflexivity].
  apply Hq. unfold shape0 in *. rewrite Htrain. exact Hk.
Qed.

Lemma get_local_region_small (X T : matrix) (w : world E) :
  X_train_norm_ (attrs (self w)) = Some T ->
  (shape0 T < local_region_size (self w))%Z ->
  (1 <= local_region_iterations (self w))%Z ->
  is_ok (snd (_get_local_region X w)) = false.
Proof.
  intros HT Hk Hit.
  pose proof (region_query_small X w HT Hk) as Hq.
  unfold _get_local_region, SEM.bind at 1.
  unfold region_grid, SEM.bind at 1, get_self at 1. cbn [fst snd].
  unfold range.
  destruct (Z.to_nat (local_region_iterations (self w))) as [|n] eqn:Hn;
    [lia|].
  cbn [seq SEM.for_each]. unfold SEM.bind at 1.
  unfold region_pass at 1, SEM.bind at 1.
  destruct (region_query X w) as [w1 [ind_arr|e]]; [discriminate|].
  reflexivity.
Qed.

(** X9.  With such a tree, [decision_function] never returns on an object
    whose training set has fewer rows than [local_region_max]: the region
    size it asks the tree for is at least [local_region_max], whatever
    [local_region_size] was given, and the first pass of the region finder
    raises at the latest. *)
Theorem small_training_set_is_never_scored (X T : matrix) (w : world E) :
  X_train_norm_ (attrs (self w)) = Some T ->
  (shape0 T < local_region_max (self w))%Z ->
  (1 <= local_region_iterations (self w))%Z ->
  is_ok (snd (decision_function X w)) = false.
Proof.
  intros HT Hk Hit.
  destruct (decision_function X w) as [w' [scores|e]] eqn:Hrun;
    [|reflexivity].
  apply decision_function_rows in Hrun. destruct Hrun as (regions & Hreg & _).
  assert (Hsmall : is_ok (snd (_get_local_region (standardizer X)
                                 (region_size_set w))) = false).
  { apply get_local_region_small with (T := T).
    - exact HT.
    - simpl. lia.
    - exact Hit. }
  rewrite Hreg in Hsmall. discriminate.
Qed.

End Rejected.

Lemma wrong_width_is_rejected_witness :
  let w := Fixture.large_world 30 (RS_int 42) in
  check_is_fitted w = (w, Ok tt) /\
  n_features_ (attrs (self w)) <> Some (shape1 [[1; 2]]) /\
  decision_function [[1; 2]] w = (w, Raise ValueError).
Proof.
  intros w.
  assert (Hfit : check_is_fitted w = (w, Ok tt)) by (vm_compute; reflexivity).
  assert (Hw : n_features_ (attrs (self w)) <> Some (shape1 [[1; 2]]))
    by (vm_compute; discriminate).
  split; [exact Hfit|]. split; [exact Hw|].
  exact (wrong_width_is_rejected [[1; 2]] Hfit (or_intror Hw)).
Defined.

Lemma small_training_set_is_never_scored_witness :
  let w := Fixture.fitted_world 20 30 (RS_int 42) in
  X_train_norm_ (attrs (self w)) = Some (standardizer Fixture.X_train) /\
  (shape0 (standardizer Fixture.X_train) < local_region_max (self w))%Z /\
  (1 <= local_region_iterations (self w))%Z /\
  is_ok (snd (decision_function Fixture.X_test w)) = false.
Proof.
  intros w.
  assert (HT : X_train_norm_ (attrs (self w))
               = Some (standardizer Fixture.X_train))
    by (vm_compute; reflexivity).
  assert (Hk : (shape0 (standardizer Fixture.X_train)
                < local_region_max (self w))%Z)
    by (vm_compute; reflexivity).
  assert (Hit : (1 <= local_region_iterations (self w))%Z)
    by (vm_compute; discriminate).
  assert (Htree : forall train test k,
            (shape0 train < k)%Z ->
            is_ok (KDTree_query train test k) = false).
  { intros train test k Hlt. simpl. unfold Reference.brute_force_query.
    destruct (Z.ltb_spec (shape0 train) k) as [_|Hge]; [|lia].
    now rewrite !orb_true_r. }
  split; [exact HT|]. split; [exact Hk|]. split; [exact Hit|].
  exact (small_training_set_is_never_scored Htree Fixture.X_test w HT Hk Hit).
Defined.

(** ** The consensus of the passes *)

Section Consensus.

Lemma counter_add_keys_iff (x y : nat) (c : list (nat * nat)) :
  In y (List.map fst (counter_add x c)) <-> y = x \/ In y (List.map fst c).
Proof.
  induction c as [|[z n] c IH]; simpl; [intuition|].
  destruct (Nat.eqb_spec x z) as [->|Hne]; simpl; [intuition|].
  rewrite IH. intuition.
Qed.

Lemma counter_add_nodup (x : nat) (c : list (nat * nat)) :
  NoDup (List.map fst c) -> NoDup (List.map fst (counter_add x c)).
Proof.
  induction c as [|[z n] c IH]; simpl; intros Hnd.
  - constructor; [tauto|constructor].
  - inversion Hnd as [|? ? Hz Hnd']; subst.
    destruct (Nat.eqb_spec x z) as [->|Hne]; simpl.
    + constructor; assumption.
    + constructor; [|now apply IH].
      rewrite counter_add_keys_iff. intros [->|Hin]; [congruence|tauto].
Qed.

Lemma Counter_keys (l : list nat) :
  forall c, NoDup (List.map fst c) ->
    NoDup (List.map fst (fold_left (fun c x => counter_add x c) l c)) /\
    forall y, In y (List.map fst (fold_left (fun c x => counter_add x c) l c))
              <-> In y l \/ In y (List.map fst c).
Proof.
  induction l as [|x l IH]; simpl; intros c Hnd.
  - split; [exact Hnd|]. intuition.
  - destruct (IH (counter_add x c) (counter_add_nodup x c Hnd)) as (H1 & H2).
    split; [exact H1|]. intros y. rewrite H2, counter_add_keys_iff.
    intuition.
Qed.

Lemma filter_keys_nodup (f : nat * nat -> bool) (c : list (nat * nat)) :
  NoDup (List.map fst c) -> NoDup (List.map fst (filter f c)).
Proof.
  induction c as [|p c IH]; simpl; intros Hnd; [constructor|].
  inversion Hnd as [|? ? Hp Hnd']; subst.
  destruct (f p); simpl; [|now apply IH].
  constructor; [|now apply IH].
  intros Hin. apply Hp. apply in_map_iff in Hin.
  destruct Hin as (q & Hq & Hin). apply filter_In in Hin.
  rewrite <- Hq. apply in_map. tauto.
Qed.

(** The consensus of a list of neighbours holds no index twice, and holds
    exactly the indices of the list that occur more than [threshold]
    times in it. *)
Lemma consensus_spec (threshold : Z) (g : list nat) :
  NoDup (consensus threshold g) /\
  forall x, In x (consensus threshold g) <->
            In x g /\ (threshold < Z.of_nat (count_occ Nat.eq_dec g x))%Z.
Proof.
  destruct (Counter_keys g [] (NoDup_nil _)) as (Hnd & Hkeys).
  fold (Counter g) in Hnd, Hkeys. unfold consensus. split.
  - now apply filter_keys_nodup.
  - intros x. rewrite in_map_iff. split.
    + intros ([y n] & Hy & Hin). simpl in Hy. subst y.
      apply filter_In in Hin. destruct Hin as (Hin & Hn). simpl in Hn.
      pose proof (@In_Counter_get _ _ _ Hnd Hin) as Hget.
      rewrite Counter_get_count in Hget. rewrite Hget. split.
      * apply (in_map fst) in Hin. apply Hkeys in Hin. simpl in Hin. tauto.
      * now apply Z.ltb_lt.
    + intros (Hin & Hn).
      assert (Hk : In x (List.map fst (Counter g))) by (apply Hkeys; tauto).
      apply in_map_iff in Hk. destruct Hk as ([y n] & Hy & Hk).
      simpl in Hy. subst y. exists (x, n). split; [reflexivity|].
      apply filter_In. split; [exact Hk|]. simpl.
      pose proof (@In_Counter_get _ _ _ Hnd Hk) as Hget.
      rewrite Counter_get_count in Hget. rewrite <- Hget. now apply Z.ltb_lt.
Qed.

Context {E : Type} {D : Detector E} {B : Backend}.

(** X10.  When the region finder returns, it returns one region per test
    row; the region of row [j] holds no training row twice, and holds
    exactly the training rows that the passes have returned for row [j]
    more than [local_region_threshold] times in all. *)
Theorem local_region_is_consensus (X : matrix) (w w' : world E)
    (regions : list (list nat)) :
  _get_local_region X w = (w', Ok regions) ->
  length regions = Z.to_nat (shape0 X) /\
  exists grid,
    region_grid X w = (w', Ok grid) /\
    forall j region, nth_error regions j = Some region ->
      exists g,
        nth_error grid j = Some g /\
        NoDup region /\
        forall x, In x region <->
          In x g /\
          (local_region_threshold (self w)
           < Z.of_nat (count_occ Nat.eq_dec g x))%Z.
Proof.
  intros H. split; [eapply get_local_region_length; eauto|].
  revert H. unfold _get_local_region, SEM.bind.
  pose proof (region_grid_after X w) as Hafter.
  destruct (region_grid X w) as [w1 [grid|e]]; [|discriminate].
  cbn [fst] in Hafter.
  assert (Hth : local_region_threshold (self w1)
                = local_region_threshold (self w)).
  { destruct Hafter as (rs' & g' & new & Hw1 & _). rewrite Hw1. reflexivity. }
  clear Hafter. unfold get_self, SEM.lift. cbn [fst snd]. intros H.
  inversion H as [[Hw Hr]]. subst w1. clear H.
  exists grid. split; [reflexivity|]. intros j region Hj.
  assert (Hlt : (j < Z.to_nat (shape0 X))%nat).
  { apply mapM_length in Hr. rewrite range_length in Hr. rewrite <- Hr.
    apply nth_error_Some. congruence. }
  assert (Hjr : nth_error (range (shape0 X)) j = Some j).
  { unfold range. rewrite nth_error_nth' with (d := O)
      by (rewrite length_seq; exact Hlt).
    now rewrite seq_nth. }
  destruct (mapM_nth _ _ Hr _ Hjr) as (region' & Hf & Hn).
  rewrite Hj in Hn. inversion Hn; subst region'. clear Hn.
  unfold getitem in Hf. destruct (nth_error grid j) as [g|]; [|discriminate].
  simpl in Hf. inversion Hf as [Hreg]. exists g. split; [reflexivity|].
  rewrite Hth. apply consensus_spec.
Qed.

End Consensus.

Lemma local_region_is_consensus_witness :
  let w := Fixture.large_world 10 (RS_int 42) in
  let out := _get_local_region Fixture.X_probe w in
  is_ok (snd out) = true /\
  forall regions, snd out = Ok regions -> length regions = 2%nat.
Proof.
  intros w out. split; [vm_compute; reflexivity|].
  intros regions Hs.
  assert (Hrun : _get_local_region Fixture.X_probe w = (fst out, Ok regions))
    by (rewrite <- Hs; subst out; now destruct (_get_local_region _ w)).
  exact (proj1 (@local_region_is_consensus _ _ _ _ _ _ Hrun)).
Defined.

(** ** The sampler with replacement *)

Section Bootstrap.

Lemma next_raw_skipn (rs : sklearn.RandomState_t) :
  snd (sklearn.next_raw rs) = skipn 1 rs.
Proof. now destruct rs. Qed.

Lemma skipn_S {A} (n : nat) (l : list A) :
  skipn (S n) l = skipn n (skipn 1 l).
Proof. destruct l; simpl; [now rewrite skipn_nil|reflexivity]. Qed.

Lemma randint_n_spec (low high : Z) (size : nat) :
  (low < high)%Z ->
  forall rs, exists l,
    sklearn.randint_n low high size rs = (skipn size rs, Ok l) /\
    length l = size /\ Forall (fun x => (low <= x < high)%Z) l.
Proof.
  intros Hlt. induction size as [|size IH]; intros rs.
  - exists []. simpl. repeat split. constructor.
  - cbn [sklearn.randint_n]. unfold SEM.bind at 1. unfold sklearn.randint.
    destruct (Z.leb_spec high low); [lia|].
    pose proof (next_raw_skipn rs) as Hrs.
    destruct (sklearn.next_raw rs) as [r rs1]. cbn [snd] in Hrs. subst rs1.
    unfold SEM.bind at 1.
    destruct (IH (skipn 1 rs)) as (l & Hl & Hlen & Hall). rewrite Hl.
    exists ((low + r mod (high - low))%Z :: l).
    rewrite (skipn_S size rs). unfold SEM.ret. split; [reflexivity|].
    split; [simpl; now rewrite Hlen|].
    constructor; [|exact Hall].
    pose proof (Z.mod_pos_bound r (high - low)). lia.
Qed.

(** X11.  With [bootstrap] set, [_generate_indices] draws with
    replacement: on a population that is not empty and for a number of
    samples that is not negative it returns that many indices, each of
    the population, and takes as many draws from the generator; otherwise
    it raises [ValueError] and takes no draw. *)
Theorem generate_indices_with_replacement (n_population n_samples : Z)
    (rs : sklearn.RandomState_t) :
  ((0 < n_population)%Z -> (0 <= n_samples)%Z ->
   exists indices,
     _generate_indices true n_population n_samples rs
     = (skipn (Z.to_nat n_samples) rs, Ok indices) /\
     Z.of_nat (length indices) = n_samples /\
     Forall (fun i => (Z.of_nat i < n_population)%Z) indices) /\
  ((n_population <= 0)%Z \/ (n_samples < 0)%Z ->
   _generate_indices true n_population n_samples rs = (rs, Raise ValueError)).
Proof.
  unfold _generate_indices, SEM.bind, sklearn.randint_size. split.
  - intros Hp Hs.
    destruct (Z.leb_spec n_population 0); [lia|].
    destruct (Z.ltb_spec n_samples 0); [lia|]. cbn [orb].
    destruct (randint_n_spec (Z.to_nat n_samples) Hp rs)
      as (l & Hl & Hlen & Hall).
    rewrite Hl. exists (List.map Z.to_nat l). split; [reflexivity|].
    split; [rewrite length_map; lia|].
    apply Forall_map. eapply Forall_impl; [|exact Hall].
    intros x Hx. simpl in Hx. lia.
  - intros Hbad.
    destruct (Z.leb_spec n_population 0); [reflexivity|].
    destruct (Z.ltb_spec n_samples 0); [reflexivity|]. lia.
Qed.

Context {B : Backend}.

(** X12.  [generate_bagging_indices], with or without replacement: when
    the interval of sizes is empty it raises [ValueError] and leaves both
    generators as they were; when it returns, the number of features lies
    in [[min_features, max_features)] and every feature is one of the
    [n_features]; without replacement no feature is drawn twice. *)
Theorem bagging_indices_outcome (bootstrap_features : bool)
    (n_features min_features max_features : Z) (st : rng_store) :
  ((max_features <= min_features)%Z ->
   generate_bagging_indices bootstrap_features n_features min_features
     max_features st = (st, Raise ValueError)) /\
  (forall features,
     snd (generate_bagging_indices bootstrap_features n_features min_features
            max_features st) = Ok features ->
     (min_features <= Z.of_nat (length features) < max_features)%Z /\
     Forall (fun f => (Z.of_nat f < n_features)%Z) features /\
     (bootstrap_features = false -> NoDup features)).
Proof.
  split.
  - intros Hle. unfold generate_bagging_indices, check_random_state.
    assert (Hm : forall rs,
      (random_n_features <- sklearn.randint min_features max_features ;;
       _generate_indices bootstrap_features n_features random_n_features)%se rs
      = (rs, Raise ValueError)).
    { intros rs. unfold SEM.bind, sklearn.randint.
      destruct (Z.leb_spec max_features min_features); [reflexivity|lia]. }
    destruct st as [[|seed|rs] g].
    + now rewrite Hm.
    + unfold sklearn.RandomState.
      destruct (_ && _); [now rewrite Hm|reflexivity].
    + now rewrite Hm.
  - intros features H. destruct bootstrap_features.
    + unfold generate_bagging_indices in H.
      apply check_random_state_run in H. destruct H as [rs H].
      unfold SEM.bind in H.
      destruct (sklearn.randint min_features max_features rs)
        as [rs1 [k|e]] eqn:Hk; [|discriminate].
      apply randint_range in Hk.
      destruct (Z_le_gt_dec n_features 0) as [Hn|Hn].
      * rewrite (proj2 (generate_indices_with_replacement n_features k rs1))
          in H by lia. discriminate.
      * destruct (Z_lt_le_dec k 0) as [Hk0|Hk0].
        { rewrite (proj2 (generate_indices_with_replacement n_features k rs1))
            in H by lia. discriminate. }
        destruct (proj1 (generate_indices_with_replacement n_features k rs1)
                    ltac:(lia) Hk0) as (l & Hl & Hlen & Hall).
        rewrite Hl in H. simpl in H. inversion H; subst l.
        split; [lia|]. split; [exact Hall|discriminate].
    + apply generate_bagging_indices_spec in H.
      destruct H as (H1 & H2 & H3). auto.
Qed.

End Bootstrap.

Lemma generate_indices_with_replacement_witness :
  (0 < 3)%Z /\ (0 <= 4)%Z /\
  _generate_indices true 3 4 [7; 2; 9; 4; 5]%Z = ([5%Z], Ok [1; 2; 0; 1]%nat) /\
  _generate_indices true 0 4 [7; 2; 9; 4; 5]%Z
  = ([7; 2; 9; 4; 5]%Z, Raise ValueError).
Proof.
  pose proof (generate_indices_with_replacement 3 4 [7; 2; 9; 4; 5]%Z) as H3.
  pose proof (generate_indices_with_replacement 0 4 [7; 2; 9; 4; 5]%Z) as H0.
  split; [lia|]. split; [lia|]. split.
  - destruct (proj1 H3 ltac:(lia) ltac:(lia)) as (l & Hl & _).
    rewrite Hl. vm_compute in Hl. inversion Hl. reflexivity.
  - apply (proj2 H0). left. lia.
Defined.

Lemma bagging_indices_outcome_witness :
  (3 <= 3)%Z /\
  generate_bagging_indices true 3 3 3 (RS_None, [4; 1]%Z)
  = ((RS_None, [4; 1]%Z), Raise ValueError) /\
  snd (generate_bagging_indices true 3 1 3 (RS_None, [5; 1; 5]%Z))
  = Ok [1; 2]%nat /\
  (1 <= Z.of_nat (length [1; 2]%nat) < 3)%Z.
Proof.
  assert (Hrun : snd (generate_bagging_indices (B := Reference.backend) true
                        3 1 3 (RS_None, [5; 1; 5]%Z)) = Ok [1; 2]%nat)
    by (vm_compute; reflexivity).
  split; [lia|]. split.
  - apply (proj1 (bagging_indices_outcome (B := Reference.backend) true 3 3 3
                    (RS_None, [4; 1]%Z))). lia.
  - split; [exact Hrun|].
    exact (proj1 (proj2 (bagging_indices_outcome true 3 1 3
                           (RS_None, [5; 1; 5]%Z)) _ Hrun)).
Defined.

(** ** Scoring under an integer seed *)

Section Repeatable.

Context {E : Type} {D : Detector E} {B : Backend}.

(** The store that holds the object and nothing else. *)
Abbreviation bare w := {| self := self w; np_random := []; queries := [] |}.

(** Lines 153 to 181 of [decision_function]. *)
Abbreviation scoring X :=
  (ind_arr <- _get_local_region (standardizer X) ;;
   test_scores <- predict_all (standardizer X) ;;
   SEM.for_each (enumerate ind_arr)
     (fun pred_scores_ens ik =>
        score <- row_score (standardizer test_scores) (fst ik) (snd ik) ;;
        SEM.ret (pred_scores_ens ++ [score]))
     [])%se.

Lemma decision_function_eq (X : matrix) (w : world E) :
  decision_function X w =
  match training_pseudo_label_ (attrs (self w)),
        train_scores_norm_ (attrs (self w)),
        X_train_norm_ (attrs (self w)),
        n_features_ (attrs (self w)) with
  | Some _, Some _, Some _, Some n =>
      match sklearn.check_array X with
      | Ok X' =>
          if negb (n =? shape1 X')%Z then (w, Raise ValueError)
          else scoring X' (region_size_set w)
      | Raise e => (w, Raise e)
      end
  | _, _, _, _ => (w, Raise NotFittedError)
  end.
Proof.
  unfold decision_function, SEM.bind at 1.
  unfold check_is_fitted, SEM.bind at 1. unfold get_self at 1. simpl.
  destruct (training_pseudo_label_ (attrs (self w))); [|reflexivity].
  destruct (train_scores_norm_ (attrs (self w))); [|reflexivity].
  destruct (X_train_norm_ (attrs (self w))); [|reflexivity].
  destruct (n_features_ (attrs (self w))) as [n|] eqn:Hn; [|reflexivity].
  simpl. unfold SEM.bind at 1. unfold SEM.lift at 1.
  destruct (sklearn.check_array X) as [X'|e]; [|reflexivity].
  unfold SEM.bind at 1. unfold attr, SEM.bind at 1, get_self at 1.
  rewrite Hn. simpl.
  destruct (negb (n =? shape1 X')%Z); [reflexivity|].
  unfold SEM.bind at 1. unfold update_self at 1, SEM.modify at 1.
  unfold SEM.bind at 1. unfold update_self at 1, SEM.modify at 1. simpl.
  reflexivity.
Qed.

(** Code that reads the object and nothing else of the store. *)
Lemma for_each_self {A R} (body : R -> A -> SE (world E) R) (l : list A) :
  (forall acc x w, body acc x w = (w, snd (body acc x (bare w)))) ->
  forall acc w,
    SEM.for_each l body acc w = (w, snd (SEM.for_each l body acc (bare w))).
Proof.
  intros Hbody. induction l as [|x l IH]; simpl; intros acc w; [reflexivity|].
  unfold SEM.bind. rewrite (Hbody acc x w).
  pose proof (Hbody acc x (bare w)) as Hb. cbn [self] in Hb.
  destruct (body acc x (bare w)) as [s1 r1]. cbn [snd] in *.
  assert (Hs : s1 = bare w) by congruence. subst s1. clear Hb.
  destruct r1 as [acc'|e]; [|reflexivity].
  rewrite (IH acc' w), (IH acc' (bare w)). reflexivity.
Qed.

Lemma predict_all_self (X : matrix) (w : world E) :
  predict_all X w = (w, snd (predict_all X (bare w))).
Proof.
  unfold predict_all, SEM.bind, get_self. cbn [self fst snd].
  rewrite for_each_self at 1.
  - cbn [self]. now destruct (snd _).
  - intros acc x s. unfold SEM.bind, SEM.lift.
    destruct (predict (snd x) X); reflexivity.
Qed.

Lemma row_score_self (T : matrix) (i : nat) (ind_k : list nat)
    (w : world E) :
  row_score T i ind_k w = (w, snd (row_score T i ind_k (bare w))).
Proof.
  unfold row_score, SEM.bind, get_self, attr, SEM.bind, get_self, SEM.lift.
  simpl.
  destruct (training_pseudo_label_ (attrs (self w))); simpl; [|reflexivity].
  destruct (train_scores_norm_ (attrs (self w))); simpl; [|reflexivity].
  destruct (local_competence _ _ _ _); simpl; [|reflexivity].
  destruct (_get_competent_detectors _ _); simpl; [|reflexivity].
  destruct (getitem _ _); simpl; [|reflexivity].
  destruct (take _ _); reflexivity.
Qed.

(** Under a seed the passes do in every store what they do in any other:
    the object and the generators stay, and the same queries are
    recorded. *)
Lemma seeded_grid (X : matrix) (self0 : LSCP E) (seed : Z) :
  random_state self0 = RS_int seed ->
  forall (turns : list nat) (grid : list (list nat)),
  exists new r, forall g q,
    SEM.for_each turns (region_pass X) grid
      {| self := self0; np_random := g; queries := q |}
    = ({| self := self0; np_random := g; queries := q ++ new |}, r).
Proof.
  intros Hseed. induction turns as [|t turns IH]; intros grid.
  - exists [], (Ok grid). intros g q. simpl. now rewrite app_nil_r.
  - destruct (pass_outcome self0 X) as [evs [ind_arr|e]] eqn:Hout.
    + destruct (extend_grid (shape0 X) grid ind_arr) as [grid'|e] eqn:Hext.
      * destruct (IH grid') as (new & r & Hrun).
        exists (evs ++ new), r. intros g q. cbn [SEM.for_each].
        unfold SEM.bind at 1. unfold region_pass at 1. unfold SEM.bind at 1.
        rewrite (region_query_seeded X self0 g q Hseed), Hout.
        cbn [fst snd]. unfold SEM.lift. rewrite Hext, Hrun.
        now rewrite app_assoc.
      * exists evs, (Raise e). intros g q. cbn [SEM.for_each].
        unfold SEM.bind at 1. unfold region_pass at 1. unfold SEM.bind at 1.
        rewrite (region_query_seeded X self0 g q Hseed), Hout.
        cbn [fst snd]. unfold SEM.lift. now rewrite Hext.
    + exists evs, (Raise e). intros g q. cbn [SEM.for_each].
      unfold SEM.bind at 1. unfold region_pass at 1. unfold SEM.bind at 1.
      rewrite (region_query_seeded X self0 g q Hseed), Hout. reflexivity.
Qed.

Lemma seeded_scoring (X : matrix) (self0 : LSCP E) (seed : Z) :
  random_state self0 = RS_int seed ->
  exists new r, forall g q,
    scoring X {| self := self0; np_random := g; queries := q |}
    = ({| self := self0; np_random := g; queries := q ++ new |}, r).
Proof.
  intros Hseed.
  destruct (seeded_grid (standardizer X) self0 Hseed
              (range (local_region_iterations self0))
              (repeat [] (Z.to_nat (shape0 (standardizer X)))))
    as (new & r & Hgrid).
  assert (Hregion : exists r1, forall g q,
    _get_local_region (standardizer X)
      {| self := self0; np_random := g; queries := q |}
    = ({| self := self0; np_random := g; queries := q ++ new |}, r1)).
  { destruct r as [grid|e].
    - eexists. intros g q.
      unfold _get_local_region, SEM.bind, region_grid, SEM.bind, get_self.
      cbn [fst snd self]. rewrite Hgrid. cbn [self]. unfold SEM.lift.
      reflexivity.
    - exists (Raise e). intros g q.
      unfold _get_local_region, SEM.bind, region_grid, SEM.bind, get_self.
      cbn [fst snd self]. now rewrite Hgrid. }
  destruct Hregion as ([regions|e] & Hregion).
  - exists new,
      (match snd (predict_all (standardizer X)
                    {| self := self0; np_random := []; queries := [] |}) with
       | Ok test_scores =>
           snd (SEM.for_each (enumerate regions)
                  (fun pred_scores_ens ik =>
                     score <- row_score (standardizer test_scores)
                                (fst ik) (snd ik) ;;
                     SEM.ret (pred_scores_ens ++ [score]))%se
                  [] {| self := self0; np_random := []; queries := [] |})
       | Raise e => Raise e
       end).
    intros g q. unfold SEM.bind at 1. rewrite Hregion.
    unfold SEM.bind at 1. rewrite predict_all_self. cbn [self].
    destruct (snd (predict_all (standardizer X) _)) as [test_scores|e];
      [|reflexivity].
    rewrite for_each_self.
    + cbn [self]. reflexivity.
    + intros acc x s. unfold SEM.bind. rewrite row_score_self.
      now destruct (row_score _ _ _ (bare s)) as [s1 [a|e]].
  - exists new, (Raise e). intros g q. unfold SEM.bind at 1.
    now rewrite Hregion.
Qed.

Lemma region_size_set_twice (w : world E) :
  self (region_size_set (region_size_set w)) = self (region_size_set w).
Proof.
  unfold region_size_set. cbn [self local_region_size local_region_min
    local_region_max set_local_region_size].
  unfold set_local_region_size. cbn. f_equal. lia.
Qed.

(** X13.  With an integer seed, scoring is repeatable: [decision_function]
    leaves numpy's global generator as it was, its outcome is the same
    whatever the state of that generator, and a second call on the same
    batch has the outcome of the first, scores or exception. *)
Theorem seeded_scoring_is_repeatable (X : matrix) (w : world E) (seed : Z) :
  random_state (self w) = RS_int seed ->
  let out := decision_function X w in
  np_random (fst out) = np_random w /\
  (forall g q,
     snd (decision_function X
            {| self := self w; np_random := g; queries := q |}) = snd out) /\
  snd (decision_function X (fst out)) = snd out.
Proof.
  intros Hseed out. subst out.
  assert (Hseed' : random_state (self (region_size_set w)) = RS_int seed)
    by exact Hseed.
  destruct (seeded_scoring X (self (region_size_set w)) Hseed')
    as (new & r & Hrun).
  assert (Hany : forall w2,
            self w2 = self w \/ self w2 = self (region_size_set w) ->
            attrs (self w2) = attrs (self w) /\
            forall X', scoring X' (region_size_set w2)
                       = scoring X'
                           {| self := self (region_size_set w);
                              np_random := np_random w2;
                              queries := queries w2 |}).
  { intros w2 [H2|H2].
    - split; [now rewrite H2|]. intros X'. unfold region_size_set at 1.
      now rewrite H2.
    - split; [now rewrite H2|]. intros X'. f_equal.
      destruct w2 as [s2 g2 q2]. cbn [self np_random queries] in *. subst s2.
      unfold region_size_set at 1. cbn [self np_random queries]. f_equal.
      exact (region_size_set_twice w). }
  rewrite (decision_function_eq X w).
  assert (Hcall : forall w2,
            self w2 = self w \/ self w2 = self (region_size_set w) ->
            decision_function X w2 =
            match training_pseudo_label_ (attrs (self w)),
                  train_scores_norm_ (attrs (self w)),
                  X_train_norm_ (attrs (self w)),
                  n_features_ (attrs (self w)) with
            | Some _, Some _, Some _, Some n =>
                match sklearn.check_array X with
                | Ok X' =>
                    if negb (n =? shape1 X')%Z then (w2, Raise ValueError)
                    else scoring X'
                           {| self := self (region_size_set w);
                              np_random := np_random w2;
                              queries := queries w2 |}
                | Raise e => (w2, Raise e)
                end
            | _, _, _, _ => (w2, Raise NotFittedError)
            end).
  { intros w2 H2. destruct (Hany w2 H2) as (Hattrs & Hscore).
    rewrite (decision_function_eq X w2), Hattrs.
    destruct (training_pseudo_label_ (attrs (self w))); [|reflexivity].
    destruct (train_scores_norm_ (attrs (self w))); [|reflexivity].
    destruct (X_train_norm_ (attrs (self w))); [|reflexivity].
    destruct (n_features_ (attrs (self w))) as [n|]; [|reflexivity].
    destruct (sklearn.check_array X) as [X'|e]; [|reflexivity].
    destruct (negb (n =? shape1 X')%Z); [reflexivity|]. apply Hscore. }
  assert (Hfirst := Hcall w (or_introl eq_refl)).
  rewrite (decision_function_eq X w) in Hfirst.
  clear Hany Hseed'. remember (self (region_size_set w)) as s0 eqn:Hs0.
  destruct (training_pseudo_label_ (attrs (self w))) eqn:H1.
  2:{ repeat split; [intros g q|]; rewrite Hcall by (now left);
      reflexivity. }
  destruct (train_scores_norm_ (attrs (self w))) eqn:H2.
  2:{ repeat split; [intros g q|]; rewrite Hcall by (now left);
      reflexivity. }
  destruct (X_train_norm_ (attrs (self w))) eqn:H3.
  2:{ repeat split; [intros g q|]; rewrite Hcall by (now left);
      reflexivity. }
  destruct (n_features_ (attrs (self w))) as [n|] eqn:H4.
  2:{ repeat split; [intros g q|]; rewrite Hcall by (now left);
      reflexivity. }
  destruct (sklearn.check_array X) as [X'|e] eqn:H5.
  2:{ repeat split; [intros g q|]; rewrite Hcall by (now left);
      reflexivity. }
  apply check_array_same in H5. subst X'.
  destruct (negb (n =? shape1 X)%Z) eqn:H6.
  { repeat split; [intros g q|]; rewrite Hcall by (now left);
      reflexivity. }
  rewrite Hfirst, Hrun. cbn [fst snd np_random].
  split; [reflexivity|]. split.
  - intros g q. rewrite Hcall by (now left). cbn [np_random queries].
    now rewrite Hrun.
  - rewrite Hcall by (now right). cbn [np_random queries].
    now rewrite Hrun.
Qed.

End Repeatable.

Lemma seeded_scoring_is_repeatable_witness :
  let w := Fixture.large_world 10 (RS_int 42) in
  let out := decision_function Fixture.X_probe w in
  random_state (self w) = RS_int 42 /\
  is_ok (snd out) = true /\
  snd (decision_function Fixture.X_probe (fst out)) = snd out.
Proof.
  intros w out.
  assert (Hseed : random_state (self w) = RS_int 42)
    by (vm_compute; reflexivity).
  split; [exact Hseed|]. split; [vm_compute; reflexivity|].
  exact (proj2 (proj2 (seeded_scoring_is_repeatable Fixture.X_probe w Hseed))).
Defined.

(** ** The detectors [fit] trains *)

Lemma for_each_indexed {S A R} (P : nat -> S -> Prop)
    (body : R -> A -> SE S R) (l : list A) :
  (forall k acc x s s' r,
      nth_error l k = Some x -> P k s -> body acc x s = (s', Ok r) ->
      P (Datatypes.S k) s') ->
  forall acc s s' r,
    P O s -> SEM.for_each l body acc s = (s', Ok r) -> P (length l) s'.
Proof.
  intros Hstep.
  assert (Hgen : forall l2 l1, l = l1 ++ l2 ->
            forall acc s s' r,
              P (length l1) s -> SEM.for_each l2 body acc s = (s', Ok r) ->
              P (length l) s').
  { induction l2 as [|x l2 IH]; intros l1 Hl acc s s' r HP H.
    - simpl in H. inversion H; subst. rewrite app_nil_r. exact HP.
    - simpl in H. unfold SEM.bind in H.
      destruct (body acc x s) as [s1 [acc1|e]] eqn:Hb; [|discriminate].
      apply (IH (l1 ++ [x])) with (acc := acc1) (s := s1) (r := r);
        [rewrite <- app_assoc; exact Hl| |exact H].
      rewrite length_app. simpl. rewrite Nat.add_1_r.
      eapply Hstep; [|exact HP|exact Hb].
      rewrite Hl, nth_error_app2 by lia. now rewrite Nat.sub_diag. }
  intros acc s s' r HP H. exact (Hgen l [] eq_refl acc s s' r HP H).
Qed.

Lemma enumerate_nth {A} (l : list A) (k i : nat) (x : A) :
  nth_error (enumerate l) k = Some (i, x) -> i = k /\ nth_error l k = Some x.
Proof.
  unfold enumerate.
  assert (Hgen : forall a, nth_error (combine (seq a (length l)) l) k
                           = Some (i, x) ->
                           i = (a + k)%nat /\ nth_error l k = Some x).
  { revert k. induction l as [|y l IH]; intros [|k] a H; simpl in *;
      try discriminate.
    - inversion H; subst. split; [lia|reflexivity].
    - apply IH in H. destruct H as [-> H]. split; [lia|exact H]. }
  intros H. apply Hgen in H. exact H.
Qed.

Lemma replace_nth_app {A} (done rest : list A) (x y : A) :
  replace_nth (done ++ x :: rest) (length done) y = done ++ y :: rest.
Proof. induction done as [|z done IH]; simpl; [reflexivity|now rewrite IH]. Qed.

Lemma skipn_nth_error {A} (l : list A) (k : nat) (x : A) :
  nth_error l k = Some x ->
  skipn k l = x :: skipn (S k) l /\ firstn (S k) l = firstn k l ++ [x].
Proof.
  revert k. induction l as [|y l IH]; intros [|k] H; simpl in *;
    try discriminate.
  - inversion H; subst. split; reflexivity.
  - destruct (IH k H) as [H1 H2]. split; [exact H1|].
    f_equal. exact H2.
Qed.

Section Fitted_detectors.

Context {E : Type} {D : Detector E} {B : Backend}.

(** X14.  When [fit] returns, it has replaced every detector of the list,
    in place and in order, by the detector that its own [fit] on the
    standardized training matrix returns, and each of those has scored
    that matrix. *)
Theorem fit_fits_every_detector (X : matrix) (w w' : world E) :
  fit X w = (w', Ok tt) ->
  Forall2 (fun e e' =>
             estimator_fit e (standardizer X) = Ok e' /\
             is_ok (predict e' (standardizer X)) = true)
    (estimator_list (self w)) (estimator_list (self w')).
Proof.
  unfold fit, SEM.bind at 1. unfold SEM.lift at 1.
  destruct (sklearn.check_array X) as [X'|e] eqn:HX; [|discriminate].
  apply check_array_same in HX. subst X'.
  unfold SEM.bind at 1. unfold assign at 1, update_self at 1, SEM.modify at 1.
  unfold SEM.bind at 1. unfold assign at 1, update_self at 1, SEM.modify at 1.
  unfold SEM.bind at 1. unfold attr at 1, SEM.bind at 1, get_self at 1.
  cbn [fst snd self attrs set_attrs X_train_norm_ assign_X_train_norm_ SEM.ret].
  unfold SEM.bind at 1, get_self at 1. unfold SEM.bind at 1.
  cbn [fst snd self estimator_list set_attrs].
  set (ests := estimator_list (self w)).
  set (Q := fun e e' : E =>
              estimator_fit e (standardizer X) = Ok e' /\
              is_ok (predict e' (standardizer X)) = true).
  set (P := fun (k : nat) (s : world E) =>
              exists done,
                length done = k /\
                estimator_list (self s) = done ++ skipn k ests /\
                Forall2 Q (firstn k ests) done).
  match goal with
  | |- (let (s', r0) := SEM.for_each ?l ?body ?acc ?s in _) = _ -> _ =>
      pose proof (@for_each_indexed _ _ _ P body l) as Hloop;
      specialize (fun Hb => Hloop Hb acc s);
      destruct (SEM.for_each l body acc s) as [w3 [train_scores|e]];
        [|discriminate]
  end.
  assert (HP : P (length (enumerate ests)) w3).
  { apply Hloop with (r := train_scores); [| |reflexivity].
    - intros k acc [i e] s s' r Hk (done & Hlen & Hlist & Hall).
      apply enumerate_nth in Hk. destruct Hk as [-> Hk]. cbn [fst snd].
      destruct (skipn_nth_error _ _ Hk) as [Hskip Hfirst].
      unfold SEM.bind, SEM.lift.
      destruct (estimator_fit e (standardizer X)) as [e'|err] eqn:He;
        [|discriminate].
      unfold update_self, SEM.modify.
      destruct (predict e' (standardizer X)) as [col|err] eqn:Hcol;
        [|discriminate].
      cbn [fst snd]. intros Hrun. inversion Hrun as [[Hs Hr]]. clear Hrun Hr.
      exists (done ++ [e']). split; [rewrite length_app; simpl; lia|].
      cbn [self estimator_list set_estimator_list].
      rewrite Hlist, Hskip, <- Hlen, replace_nth_app, <- app_assoc.
      split; [reflexivity|].
      rewrite Hlen, Hfirst. apply Forall2_app; [exact Hall|].
      constructor; [|constructor]. split; [exact He|now rewrite Hcol].
    - exists []. repeat split. constructor. }
  clear Hloop. destruct HP as (done & Hlen & Hlist & Hall).
  rewrite enumerate_length in Hlen, Hlist, Hall.
  rewrite skipn_all, app_nil_r in Hlist. rewrite firstn_all in Hall.
  unfold SEM.bind at 1.
  unfold assign at 1, update_self at 1, SEM.modify at 1.
  unfold SEM.bind at 1. unfold attr at 1, SEM.bind at 1, get_self at 1.
  cbn [fst snd self attrs set_attrs train_scores_norm_
       assign_train_scores_norm_ SEM.ret].
  unfold SEM.bind at 1, SEM.lift at 1.
  destruct (Res.mapM row_max (standardizer train_scores)) as [label|e];
    [|discriminate].
  unfold SEM.bind, assign, update_self, SEM.modify. simpl.
  intros H. inversion H; subst w'. simpl. rewrite Hlist. exact Hall.
Qed.

End Fitted_detectors.

(** ** Histogram bins *)

Section No_bins.

Context {E : Type} {D : Detector E} {B : Backend}.

(** X15.  A number of histogram bins below one passes the constructor,
    but on an object that holds it no batch with a row is ever scored: the
    competence selector raises in the histogram for the first region. *)
Theorem no_bins_never_scores (X : matrix) (w : world E) :
  (n_bins (self w) < 1)%Z ->
  (0 < shape0 (standardizer X))%Z ->
  is_ok (snd (decision_function X w)) = false.
Proof.
  intros Hbins Hrows.
  destruct (decision_function X w) as [w' [scores|e]] eqn:Hrun;
    [|reflexivity].
  assert (Hsame : n_bins (self w') = n_bins (self w)).
  { destruct (decision_function_run X w Hrun) as [[-> _]|[-> _]];
      [reflexivity|].
    destruct (get_local_region_after (standardizer X) (region_size_set w))
      as (rs' & g' & new & Hw & _).
    rewrite Hw. reflexivity. }
  apply decision_function_rows in Hrun.
  destruct Hrun as (regions & Hreg & Hall).
  apply get_local_region_length in Hreg.
  destruct regions as [|ind_k regions]; [simpl in Hreg; lia|].
  inversion Hall as [|? ? (T & i & Hok) _]; subst.
  apply row_score_ok in Hok.
  destruct Hok as (label & tsn & corr & _ & _ & _ & Hsel).
  unfold _get_competent_detectors, np.histogram in Hsel.
  rewrite Hsame in Hsel.
  destruct (Z.ltb_spec (n_bins (self w)) 1); [discriminate|lia].
Qed.

End No_bins.

Lemma fit_fits_every_detector_witness :
  let w := Fixture.start
             (init_attributes [Fixture.by_first; Fixture.by_second] 20 30 1
                10 (RS_int 42)) in
  fit Fixture.X_train w = (fst (fit Fixture.X_train w), Ok tt) /\
  Forall2 (fun e e' =>
             estimator_fit e (standardizer Fixture.X_train) = Ok e' /\
             is_ok (predict e' (standardizer Fixture.X_train)) = true)
    (estimator_list (self w))
    (estimator_list (self (fst (fit Fixture.X_train w)))).
Proof.
  intros w.
  assert (Hrun : fit Fixture.X_train w = (fst (fit Fixture.X_train w), Ok tt))
    by (vm_compute; reflexivity).
  split; [exact Hrun|].
  exact (fit_fits_every_detector Fixture.X_train w Hrun).
Defined.

Lemma no_bins_never_scores_witness :
  let made :=
    snd (Fixture.construct
           [Fixture.by_first; Fixture.by_second; Fixture.by_third] 20 30 0
           (RS_int 42)) in
  let w :=
    match made with
    | Ok obj => fst (fit Fixture.X_large (Fixture.start obj))
    | Raise _ => Fixture.large_world 30 (RS_int 42)
    end in
  is_ok made = true /\
  (n_bins (self w) < 1)%Z /\
  (0 < shape0 (standardizer Fixture.X_probe))%Z /\
  is_ok (snd (decision_function Fixture.X_probe w)) = false.
Proof.
  intros made w.
  assert (Hbins : (n_bins (self w) < 1)%Z) by (vm_compute; reflexivity).
  assert (Hrows : (0 < shape0 (standardizer Fixture.X_probe))%Z)
    by (vm_compute; reflexivity).
  split; [vm_compute; reflexivity|]. split; [exact Hbins|].
  split; [exact Hrows|].
  exact (no_bins_never_scores Fixture.X_probe w Hbins Hrows).
Defined.
